(** * Entity deduplication and provenance tracking of the KOI knowledge graph

    A shallow embedding of [entity-deduplication-system.py] (the classes
    [EntityDeduplicator] and [RelationshipDeduplicator]) and of
    [extractors/provenance-tracking-system.py] (the class [ProvenanceTracker]),
    with the properties the specification states about them (Part III) and
    further properties of the code: the list of matches, runs of
    [add_entity], the statistics, the exports and the coreference graph, the
    relationship store, and sessions of the provenance tracker with their
    log and provenance records (Part IV).

    Conventions of the embedding.
    - A Python [str] is a [string] whose characters are the code points
      U+0000..U+00FF; every string operation used by the code ([lower],
      [split], [strip], [re.sub] with [\w] and [\s]) maps such strings to such
      strings, and the character classes below are the ones CPython uses on
      that range.
    - A Python [float] is a rational number [Q]: the scores 0.95 and 1.0, the
      threshold, and the average [(confidence + score) / 2] are exact. Where
      rounding decides (the cosine of two tf-idf rows), the arithmetic of the
      library is also given in binary64 (module [Tfidf64]), and a double
      enters the code as the rational it denotes.
    - A [dict] is an association list in insertion order; assigning to a key
      it holds replaces the value in place. A [set] is a duplicate-free list
      (Python leaves its iteration order unspecified; the lists here iterate
      in insertion order).
    - An object the code mutates (the registry, a signature, the tracker) is
      a value a function takes and returns.
    - An entity record is a [dict] whose ['@type'] and ['name'] entries are
      strings when present, as the callers of the code provide them (on
      other values [str.lower] raises before anything is stored).
    - What a call draws from [uuid.uuid4] and from the clock is an argument
      of the call.
    - A call that raises returns [Raise].
    - [hashlib.sha256] and [json.dumps] are implemented in full (modules
      [Sha256] and [Json]); scikit-learn's vectorizer is a field of the
      deduplicator (see [Tfidf] and [Tfidf64]). *)

From Stdlib Require Import ZArith NArith QArith Qround Lqa List Sorted String Ascii Bool Lia Arith.
From Stdlib Require PrimFloat FloatOps.
Import ListNotations.

Open Scope string_scope.
Open Scope list_scope.

(* ================================================================== *)
(** * Part I. Definitions *)
(* ================================================================== *)

(** ** Python strings over the code points below 256 *)

Module PyStr.

Definition chars := list ascii.

Definition code (c : ascii) : N := N_of_ascii c.

Definition between (lo hi n : N) : bool := ((lo <=? n) && (n <=? hi))%N.

(** [str.lower] on one character: A-Z and the upper-case letters of the
    Latin-1 supplement (U+00C0..U+00DE without the multiplication sign). *)
Definition lower_char (c : ascii) : ascii :=
  let n := code c in
  if between 65 90 n || (between 192 222 n && negb (n =? 215)%N)
  then ascii_of_N (n + 32) else c.

(** [str.isspace], which is also [\s] of [re] and what [split] and [strip]
    take for white space. *)
Definition is_space (c : ascii) : bool :=
  let n := code c in
  between 9 13 n || between 28 32 n || (n =? 133)%N || (n =? 160)%N.

(** [\w] of [re] on [str] patterns: alphanumeric or underscore. *)
Definition is_word (c : ascii) : bool :=
  let n := code c in
  between 48 57 n || between 65 90 n || (n =? 95)%N || between 97 122 n
  || (n =? 170)%N || between 178 179 n || (n =? 181)%N || between 185 186 n
  || between 188 190 n || between 192 214 n || between 216 246 n
  || between 248 255 n.

Definition space : ascii := " "%char.

Definition lower (l : chars) : chars := map lower_char l.

(** [s.split()]: the maximal runs of non-space characters. A non-space
    character either starts a word of its own (the next character is a
    space, or there is none) or extends the first word of the rest. *)
Fixpoint split_ws (l : chars) : list chars :=
  match l with
  | [] => []
  | c :: r =>
      if is_space c then split_ws r
      else match r with
           | [] => [[c]]
           | c' :: _ =>
               if is_space c' then [c] :: split_ws r
               else match split_ws r with
                    | w :: ws => (c :: w) :: ws
                    | [] => [[c]]
                    end
           end
  end.

(** [sep.join(words)] *)
Fixpoint join (sep : chars) (ws : list chars) : chars :=
  match ws with
  | [] => []
  | [w] => w
  | w :: ws' => w ++ sep ++ join sep ws'
  end.

Fixpoint lstrip (l : chars) : chars :=
  match l with
  | [] => []
  | c :: r => if is_space c then lstrip r else l
  end.

Definition rstrip (l : chars) : chars := rev (lstrip (rev l)).

(** [s.strip()] *)
Definition strip (l : chars) : chars := rstrip (lstrip l).

Fixpoint chars_eqb (a b : chars) : bool :=
  match a, b with
  | [], [] => true
  | x :: a', y :: b' => Ascii.eqb x y && chars_eqb a' b'
  | _, _ => false
  end.

(** [s.endswith(suffix)] *)
Definition endswith (l suffix : chars) : bool :=
  (List.length suffix <=? List.length l)%nat
  && chars_eqb (skipn (List.length l - List.length suffix) l) suffix.

(** [s[:-n]] for [n > 0] *)
Definition drop_last (n : nat) (l : chars) : chars :=
  firstn (List.length l - n) l.

(** [s.replace(c, '')] for a one-character [c] *)
Definition remove_char (c : ascii) (l : chars) : chars :=
  filter (fun x => negb (Ascii.eqb x c)) l.

Definition of_string : string -> chars := list_ascii_of_string.
Definition to_string : chars -> string := string_of_list_ascii.

(** Truth value of a [str]: non-empty. *)
Definition nonempty (s : string) : bool :=
  match s with EmptyString => false | _ => true end.

End PyStr.

(** ** The Normalizer: [EntityDeduplicator.normalize_name] *)

Module Normalizer.
Import PyStr.

(** The character class [[\w\s-]]: what [re.sub(r'[^\w\s-]', '', _)] keeps. *)
Definition keep_char (c : ascii) : bool :=
  is_word c || is_space c || Ascii.eqb c "-"%char.

Definition suffixes : list chars :=
  map of_string [" inc"; " llc"; " corp"; " corporation"; " limited"; " ltd"].

(** One turn of the loop over [suffixes]. *)
Definition strip_suffix (normalized suffix : chars) : chars :=
  if endswith normalized suffix
  then drop_last (List.length suffix) normalized
  else normalized.

Definition normalize_chars (name : chars) : chars :=
  let normalized := lower name in
  let normalized := filter keep_char normalized in
  let normalized := join [space] (split_ws normalized) in
  let normalized := fold_left strip_suffix suffixes normalized in
  strip normalized.

Definition normalize_name (name : string) : string :=
  to_string (normalize_chars (of_string name)).

End Normalizer.

(** ** [hashlib.sha256] (FIPS 180-4) and [str.encode] *)

Module Sha256.
Local Open Scope Z_scope.

Definition word (x : Z) : Z := x mod 4294967296.
Definition add32 (a b : Z) : Z := word (a + b).
Definition rotr (n x : Z) : Z :=
  Z.lor (Z.shiftr x n) (word (Z.shiftl x (32 - n))).
Definition not32 (x : Z) : Z := Z.lxor x 4294967295.

Definition Ch (x y z : Z) : Z := Z.lxor (Z.land x y) (Z.land (not32 x) z).
Definition Maj (x y z : Z) : Z :=
  Z.lxor (Z.lxor (Z.land x y) (Z.land x z)) (Z.land y z).
Definition Sigma0 (x : Z) : Z := Z.lxor (Z.lxor (rotr 2 x) (rotr 13 x)) (rotr 22 x).
Definition Sigma1 (x : Z) : Z := Z.lxor (Z.lxor (rotr 6 x) (rotr 11 x)) (rotr 25 x).
Definition sigma0 (x : Z) : Z := Z.lxor (Z.lxor (rotr 7 x) (rotr 18 x)) (Z.shiftr x 3).
Definition sigma1 (x : Z) : Z := Z.lxor (Z.lxor (rotr 17 x) (rotr 19 x)) (Z.shiftr x 10).

Definition H0 : list Z :=
  [ 1779033703; 3144134277; 1013904242; 2773480762;
    1359893119; 2600822924; 528734635; 1541459225 ].

Definition K : list Z :=
  [ 1116352408; 1899447441; 3049323471; 3921009573; 961987163; 1508970993;
    2453635748; 2870763221; 3624381080; 310598401; 607225278; 1426881987;
    1925078388; 2162078206; 2614888103; 3248222580; 3835390401; 4022224774;
    264347078; 604807628; 770255983; 1249150122; 1555081692; 1996064986;
    2554220882; 2821834349; 2952996808; 3210313671; 3336571891; 3584528711;
    113926993; 338241895; 666307205; 773529912; 1294757372; 1396182291;
    1695183700; 1986661051; 2177026350; 2456956037; 2730485921; 2820302411;
    3259730800; 3345764771; 3516065817; 3600352804; 4094571909; 275423344;
    430227734; 506948616; 659060556; 883997877; 958139571; 1322822218;
    1537002063; 1747873779; 1955562222; 2024104815; 2227730452; 2361852424;
    2428436474; 2756734187; 3204031479; 3329325298 ].

(** Padding: the byte 0x80, zero bytes up to 56 modulo 64, and the bit
    length of the message as a 64-bit big-endian number. *)
Definition big_endian (nbytes : nat) (x : Z) : list Z :=
  map (fun i => Z.shiftr x (8 * Z.of_nat (nbytes - 1 - i)) mod 256) (seq 0 nbytes).

Definition pad (msg : list Z) : list Z :=
  let n := Z.of_nat (List.length msg) in
  let zeros := Z.to_nat ((55 - n) mod 64) in
  msg ++ [128] ++ repeat 0 zeros ++ big_endian 8 (8 * n).

Fixpoint chunks (size count : nat) (l : list Z) : list (list Z) :=
  match count with
  | O => []
  | S count' => firstn size l :: chunks size count' (skipn size l)
  end.

Definition from_big_endian (bytes : list Z) : Z :=
  fold_left (fun acc b => acc * 256 + b) bytes 0.

Definition block_words (block : list Z) : list Z :=
  map from_big_endian (chunks 4 16 block).

(** The message schedule, most recent word first. *)
Fixpoint schedule (n : nat) (w : list Z) : list Z :=
  match n with
  | O => w
  | S n' =>
      let next :=
        add32 (add32 (sigma1 (nth 1 w 0)) (nth 6 w 0))
              (add32 (sigma0 (nth 14 w 0)) (nth 15 w 0)) in
      schedule n' (next :: w)
  end.

Record regs := Regs { ra : Z; rb : Z; rc : Z; rd : Z; re : Z; rf : Z; rg : Z; rh : Z }.

Definition round (s : regs) (kw : Z * Z) : regs :=
  let t1 := add32 (add32 (add32 (rh s) (Sigma1 (re s)))
                         (add32 (Ch (re s) (rf s) (rg s)) (fst kw))) (snd kw) in
  let t2 := add32 (Sigma0 (ra s)) (Maj (ra s) (rb s) (rc s)) in
  Regs (add32 t1 t2) (ra s) (rb s) (rc s) (add32 (rd s) t1) (re s) (rf s) (rg s).

Definition regs_of (h : list Z) : regs :=
  Regs (nth 0 h 0) (nth 1 h 0) (nth 2 h 0) (nth 3 h 0)
       (nth 4 h 0) (nth 5 h 0) (nth 6 h 0) (nth 7 h 0).

Definition list_of (s : regs) : list Z :=
  [ra s; rb s; rc s; rd s; re s; rf s; rg s; rh s].

Definition compress (h : list Z) (block : list Z) : list Z :=
  let w := rev (schedule 48 (rev (block_words block))) in
  let s := fold_left round (combine K w) (regs_of h) in
  map (fun p => add32 (fst p) (snd p)) (combine h (list_of s)).

Definition digest_words (msg : list Z) : list Z :=
  let padded := pad msg in
  fold_left compress (chunks 64 (List.length padded / 64) padded) H0.

Definition hex_digit (d : Z) : ascii :=
  if d <? 10 then ascii_of_N (Z.to_N (48 + d)) else ascii_of_N (Z.to_N (87 + d)).

Definition hex_word (x : Z) : list ascii :=
  map (fun i => hex_digit (Z.shiftr x (4 * Z.of_nat (7 - i)) mod 16)) (seq 0 8).

(** [hashlib.sha256(msg).hexdigest()] *)
Definition hexdigest (msg : list Z) : list ascii :=
  flat_map hex_word (digest_words msg).

(** [s.encode()]: UTF-8 of code points below 256. *)
Definition utf8 (s : list ascii) : list Z :=
  flat_map (fun c =>
    let n := Z.of_N (N_of_ascii c) in
    if n <? 128 then [n] else [192 + Z.shiftr n 6; 128 + Z.land n 63]) s.

End Sha256.

(** ** Python dictionaries, sets and values *)

Module Dict.
Section Dict.
Context {K V : Type}.
Variable eqb : K -> K -> bool.

(** [d.get(k)] *)
Fixpoint get (d : list (K * V)) (k : K) : option V :=
  match d with
  | [] => None
  | (k', v) :: r => if eqb k' k then Some v else get r k
  end.

(** [d[k] = v]: an existing key keeps its place, a new one goes last. *)
Fixpoint set (d : list (K * V)) (k : K) (v : V) : list (K * V) :=
  match d with
  | [] => [(k, v)]
  | (k', v') :: r => if eqb k' k then (k', v) :: r else (k', v') :: set r k v
  end.

(** [k in d] *)
Definition mem (d : list (K * V)) (k : K) : bool :=
  match get d k with Some _ => true | None => false end.

End Dict.
End Dict.

Module PySet.
Section PySet.
Context {A : Type}.
Variable eqb : A -> A -> bool.

Definition mem (x : A) (s : list A) : bool := existsb (eqb x) s.

(** [s.add(x)] *)
Definition add (x : A) (s : list A) : list A :=
  if mem x s then s else s ++ [x].

(** [set(l)] *)
Definition of_list (l : list A) : list A :=
  fold_left (fun s x => add x s) l [].

(** [s1 & s2] and [s1 | s2] *)
Definition inter (s1 s2 : list A) : list A := filter (fun x => mem x s2) s1.
Definition union (s1 s2 : list A) : list A :=
  s1 ++ filter (fun x => negb (mem x s1)) s2.

End PySet.
End PySet.

(** The values an entity record carries: hashable scalars and lists of
    scalars. A Python [float] is the rational its literal denotes. *)
Inductive atom :=
| ANone
| ABool (b : bool)
| AInt (z : Z)
| AFloat (q : Q)
| AStr (s : string).

Inductive pyval :=
| VAtom (a : atom)
| VList (l : list atom).

Module PyVal.

(** The number a scalar stands for in a comparison ([True == 1] holds, as
    [1 == 1.0] does). *)
Definition numeric (a : atom) : option Q :=
  match a with
  | ABool b => Some (if b then 1 else 0)
  | AInt z => Some (inject_Z z)
  | AFloat q => Some q
  | ANone | AStr _ => None
  end.

(** Python's [==] on scalars. *)
Definition atom_eqb (a b : atom) : bool :=
  match numeric a, numeric b with
  | Some p, Some q => Qeq_bool p q
  | None, None =>
      match a, b with
      | ANone, ANone => true
      | AStr s, AStr t => String.eqb s t
      | _, _ => false
      end
  | _, _ => false
  end.

Fixpoint atoms_eqb (l m : list atom) : bool :=
  match l, m with
  | [], [] => true
  | a :: l', b :: m' => atom_eqb a b && atoms_eqb l' m'
  | _, _ => false
  end.

Definition eqb (v w : pyval) : bool :=
  match v, w with
  | VAtom a, VAtom b => atom_eqb a b
  | VList l, VList m => atoms_eqb l m
  | _, _ => false
  end.

(** Truth value testing. *)
Definition truthy (v : pyval) : bool :=
  match v with
  | VAtom ANone => false
  | VAtom (ABool b) => b
  | VAtom (AInt z) => negb (z =? 0)%Z
  | VAtom (AFloat q) => negb (Qeq_bool q 0)
  | VAtom (AStr s) => PyStr.nonempty s
  | VList l => match l with [] => false | _ => true end
  end.

(** Truth value of [d.get(k)], where a missing key gives [None]. *)
Definition truthy_opt (o : option pyval) : bool :=
  match o with Some v => truthy v | None => false end.

(** [d.get(k)] as a value. *)
Definition or_none (o : option pyval) : pyval :=
  match o with Some v => v | None => VAtom ANone end.

(** [d or {}] for an optional [dict] *)
Definition or_empty (d : option (list (string * pyval))) : list (string * pyval) :=
  match d with
  | Some (item :: rest) => item :: rest
  | _ => []
  end.

End PyVal.

Abbreviation sget := (Dict.get String.eqb).
Abbreviation sset := (Dict.set String.eqb).
Abbreviation smem := (Dict.mem String.eqb).

(** An entity record as the extractors hand it over: a [Dict] whose ['@type']
    and ['name'] entries, when present, are strings. [ent_items] holds the
    entries under all other keys. *)
Record Entity := {
  ent_type : option string;
  ent_name : option string;
  ent_items : list (string * pyval)
}.

Module Ent.

(** [entity.get('@type', default)] and [entity.get('name', default)] *)
Definition get_type (e : Entity) (default : string) : string :=
  match ent_type e with Some t => t | None => default end.
Definition get_name (e : Entity) (default : string) : string :=
  match ent_name e with Some n => n | None => default end.

(** [entity.get(k)] for the other keys *)
Definition get (e : Entity) (k : string) : option pyval := sget (ent_items e) k.

(** [entity.get('confidence', 1.0)] *)
Definition get_confidence (e : Entity) : pyval :=
  match get e "confidence" with Some c => c | None => VAtom (AFloat 1) end.

(** [entity.items()] *)
Definition items (e : Entity) : list (string * pyval) :=
  match ent_type e with Some t => [("@type", VAtom (AStr t))] | None => [] end
  ++ match ent_name e with Some n => [("name", VAtom (AStr n))] | None => [] end
  ++ ent_items e.

(** [k not in ['@id', '@type', 'name']] *)
Definition not_reserved (k : string) : bool :=
  negb (String.eqb k "@id" || String.eqb k "@type" || String.eqb k "name").

End Ent.

(** ** The entity deduplicator: [EntitySignature] and [EntityDeduplicator] *)

Record EntitySignature := {
  canonical_name : string;
  entity_type : string;
  aliases : list string;
  properties : list (string * pyval);
  source_documents : list pyval;
  confidence : Q
}.

(** The state of an [EntityDeduplicator]. [vectorizer] stands for the
    [TfidfVectorizer] object the constructor stores, seen through the one use
    the class makes of it: [fit_transform] on two names followed by
    [cosine_similarity] of the two rows ([None] when that raises). *)
Record EntityDeduplicator := {
  similarity_threshold : Q;
  entity_registry : list (string * EntitySignature);
  name_index : list (string * list string);
  type_index : list (string * list string);
  vectorizer : string -> string -> option Q
}.

Module Dedup.
Import PyStr.

Definition normalize_name := Normalizer.normalize_name.

(** [__init__] *)
Definition init (similarity_threshold : Q) (vectorizer : string -> string -> option Q)
  : EntityDeduplicator :=
  {| similarity_threshold := similarity_threshold;
     entity_registry := [];
     name_index := [];
     type_index := [];
     vectorizer := vectorizer |}.

(** [generate_canonical_id] *)
Definition generate_canonical_id (etype name : string) : string :=
  let normalized := normalize_name name in
  let content := (etype ++ ":" ++ normalized)%string in
  let hexdigest := Sha256.hexdigest (Sha256.utf8 (of_string content)) in
  ("entity:" ++ to_string (lower (of_string etype)) ++ ":"
   ++ to_string (firstn 12 hexdigest))%string.

(** The identifier as a function of the entity type and the normalized
    name, which is all [generate_canonical_id] reads of the name. *)
Definition id_of_normalized (etype normalized : string) : string :=
  ("entity:" ++ to_string (lower (of_string etype)) ++ ":"
   ++ to_string (firstn 12 (Sha256.hexdigest
                              (Sha256.utf8 (of_string (etype ++ ":" ++ normalized))))))%string.

(** The fallback of [calculate_similarity]: Jaccard index of the two
    character sets. *)
Definition char_set (name : string) : list ascii :=
  PySet.of_list Ascii.eqb (remove_char space (lower (of_string name))).

Definition char_overlap (name1 name2 : string) : Q :=
  let set1 := char_set name1 in
  let set2 := char_set name2 in
  match set1, set2 with
  | [], _ | _, [] => 0
  | _, _ =>
      Z.of_nat (List.length (PySet.inter Ascii.eqb set1 set2))
      # Pos.of_nat (List.length (PySet.union Ascii.eqb set1 set2))
  end.

(** [calculate_similarity] *)
Definition calculate_similarity (d : EntityDeduplicator) (name1 name2 : string) : Q :=
  if negb (nonempty name1) || negb (nonempty name2) then 0
  else if String.eqb (normalize_name name1) (normalize_name name2) then 1
  else match vectorizer d name1 name2 with
       | Some similarity => similarity
       | None => char_overlap name1 name2
       end.

(** The inner loop of the fuzzy strategy: the similarity of the first name
    that reaches the threshold. *)
Fixpoint first_similar (d : EntityDeduplicator) (entity_name : string)
         (names_to_check : list string) : option Q :=
  match names_to_check with
  | [] => None
  | name :: rest =>
      let similarity := calculate_similarity d entity_name name in
      if Qle_bool (similarity_threshold d) similarity then Some similarity
      else first_similar d entity_name rest
  end.

(** [sorted(matches, key=lambda x: x[1], reverse=True)]: stable, so equal
    scores keep the order in which they were found. *)
Fixpoint insert_desc (x : string * Q) (l : list (string * Q)) : list (string * Q) :=
  match l with
  | [] => [x]
  | y :: r => if Qle_bool (snd y) (snd x) then x :: l else y :: insert_desc x r
  end.

Definition sort_desc (l : list (string * Q)) : list (string * Q) :=
  fold_right insert_desc [] l.

(** The closing loop of [find_matches]: the first entry of each canonical id. *)
Fixpoint unique_matches (seen : list string) (l : list (string * Q)) : list (string * Q) :=
  match l with
  | [] => []
  | (canonical_id, c) :: r =>
      if PySet.mem String.eqb canonical_id seen then unique_matches seen r
      else (canonical_id, c) :: unique_matches (canonical_id :: seen) r
  end.

(** Strategy 1: exact match on the normalized name. *)
Definition exact_matches (d : EntityDeduplicator) (normalized etype : string)
  : list (string * Q) :=
  match sget (name_index d) normalized with
  | None => []
  | Some ids =>
      flat_map (fun canonical_id =>
        match sget (entity_registry d) canonical_id with
        | Some signature =>
            if String.eqb (entity_type signature) etype
            then [(canonical_id, 1)] else []
        | None => []
        end) ids
  end.

(** Strategy 2: fuzzy matching over the type index. *)
Definition fuzzy_matches (d : EntityDeduplicator) (entity_name etype : string)
  : list (string * Q) :=
  match sget (type_index d) etype with
  | None => []
  | Some ids =>
      flat_map (fun canonical_id =>
        match sget (entity_registry d) canonical_id with
        | Some signature =>
            match first_similar d entity_name
                    (canonical_name signature :: aliases signature) with
            | Some similarity => [(canonical_id, similarity)]
            | None => []
            end
        | None => []
        end) ids
  end.

(** [entity.get(k) and entity[k] == signature.properties.get(k)] *)
Definition same_property (entity : Entity) (signature : EntitySignature) (k : string) : bool :=
  PyVal.truthy_opt (Ent.get entity k)
  && PyVal.eqb (PyVal.or_none (Ent.get entity k))
               (PyVal.or_none (sget (properties signature) k)).

(** Strategy 3: property-based matching. *)
Definition property_matches (d : EntityDeduplicator) (entity : Entity) (etype : string)
  : list (string * Q) :=
  if PyVal.truthy_opt (Ent.get entity "email")
     || PyVal.truthy_opt (Ent.get entity "website")
     || PyVal.truthy_opt (Ent.get entity "identifier")
  then
    flat_map (fun item : string * EntitySignature =>
      let (canonical_id, signature) := item in
      if negb (String.eqb (entity_type signature) etype) then []
      else
        (if same_property entity signature "email" then [(canonical_id, 0.95)] else [])
        ++ (if same_property entity signature "website" then [(canonical_id, 0.95)] else [])
        ++ (if same_property entity signature "identifier" then [(canonical_id, 1)] else []))
      (entity_registry d)
  else [].

(** The candidates of all strategies, in the order the code appends them. *)
Definition candidates (d : EntityDeduplicator) (entity : Entity) : list (string * Q) :=
  let entity_name := Ent.get_name entity "" in
  let etype := Ent.get_type entity "" in
  exact_matches d (normalize_name entity_name) etype
  ++ fuzzy_matches d entity_name etype
  ++ property_matches d entity etype.

(** [find_matches] *)
Definition find_matches (d : EntityDeduplicator) (entity : Entity) : list (string * Q) :=
  if negb (nonempty (Ent.get_name entity "")) then []
  else unique_matches [] (sort_desc (candidates d entity)).

(** The property loop of [merge_entities], one item at a time. *)
Definition merge_property (props : list (string * pyval)) (item : string * pyval)
  : list (string * pyval) :=
  let (key, value) := item in
  if Ent.not_reserved key && PyVal.truthy value then
    match sget props key with
    | None => sset props key value
    | Some old =>
        if negb (PyVal.truthy old) then sset props key value
        else match value, old with
             | VList new_items, VList old_items =>
                 sset props key
                      (VList (PySet.of_list PyVal.atom_eqb (old_items ++ new_items)))
             | _, _ => props
             end
    end
  else props.

Definition merge_signature (signature : EntitySignature) (new_entity : Entity) (c : Q)
  : EntitySignature :=
  let new_name := Ent.get_name new_entity "" in
  {| canonical_name := canonical_name signature;
     entity_type := entity_type signature;
     aliases :=
       if nonempty new_name
          && negb (String.eqb (normalize_name new_name)
                              (normalize_name (canonical_name signature)))
       then PySet.add String.eqb new_name (aliases signature)
       else aliases signature;
     properties := fold_left merge_property (Ent.items new_entity) (properties signature);
     source_documents :=
       if PyVal.truthy_opt (Ent.get new_entity "foundIn")
       then PySet.add PyVal.eqb (PyVal.or_none (Ent.get new_entity "foundIn"))
                      (source_documents signature)
       else source_documents signature;
     confidence := (confidence signature + c) / 2 |}.

Definition with_registry (d : EntityDeduplicator) (r : list (string * EntitySignature))
  : EntityDeduplicator :=
  {| similarity_threshold := similarity_threshold d;
     entity_registry := r;
     name_index := name_index d;
     type_index := type_index d;
     vectorizer := vectorizer d |}.

(** [merge_entities]; the canonical id is one of the registry (a [KeyError]
    otherwise, which [add_entity] never meets). *)
Definition merge_entities (d : EntityDeduplicator) (canonical_id : string)
           (new_entity : Entity) (c : Q) : EntityDeduplicator :=
  match sget (entity_registry d) canonical_id with
  | Some signature =>
      with_registry d
        (sset (entity_registry d) canonical_id (merge_signature signature new_entity c))
  | None => d
  end.

(** [index[k].add(x)] on a [defaultdict(set)] *)
Definition index_add (index : list (string * list string)) (k x : string)
  : list (string * list string) :=
  match sget index k with
  | Some ids => sset index k (PySet.add String.eqb x ids)
  | None => sset index k [x]
  end.

(** The signature [add_entity] builds for a new canonical entity;
    [confidence] is left to the default of the dataclass. *)
Definition new_signature (entity : Entity) : EntitySignature :=
  {| canonical_name := Ent.get_name entity "";
     entity_type := Ent.get_type entity "";
     aliases := [];
     properties := filter (fun kv => Ent.not_reserved (fst kv)) (Ent.items entity);
     source_documents :=
       if PyVal.truthy_opt (Ent.get entity "foundIn")
       then [PyVal.or_none (Ent.get entity "foundIn")] else [];
     confidence := 1 |}.

(** The [else] branch of [add_entity]. *)
Definition mint (d : EntityDeduplicator) (entity : Entity) : string * EntityDeduplicator :=
  let canonical_id :=
    generate_canonical_id (Ent.get_type entity "Unknown") (Ent.get_name entity "unnamed") in
  let signature := new_signature entity in
  let normalized := normalize_name (canonical_name signature) in
  (canonical_id,
   {| similarity_threshold := similarity_threshold d;
      entity_registry := sset (entity_registry d) canonical_id signature;
      name_index := index_add (name_index d) normalized canonical_id;
      type_index := index_add (type_index d) (entity_type signature) canonical_id;
      vectorizer := vectorizer d |}).

(** The test of [add_entity]: is there a best match at or above the
    threshold? *)
Definition best_match (d : EntityDeduplicator) (entity : Entity) : option (string * Q) :=
  match find_matches d entity with
  | (canonical_id, c) :: _ =>
      if Qle_bool (similarity_threshold d) c then Some (canonical_id, c) else None
  | [] => None
  end.

(** Does [add_entity] take the merge branch? *)
Definition merges (d : EntityDeduplicator) (entity : Entity) : bool :=
  match best_match d entity with Some _ => true | None => false end.

(** [add_entity] *)
Definition add_entity (d : EntityDeduplicator) (entity : Entity) : string * EntityDeduplicator :=
  match best_match d entity with
  | Some (canonical_id, c) => (canonical_id, merge_entities d canonical_id entity c)
  | None => mint d entity
  end.

(** A caller's loop: [for entity in entities: dedup.add_entity(entity)],
    collecting the canonical ids. *)
Fixpoint add_all (d : EntityDeduplicator) (entities : list Entity)
  : list string * EntityDeduplicator :=
  match entities with
  | [] => ([], d)
  | e :: rest =>
      let (canonical_id, d1) := add_entity d e in
      let (ids, d2) := add_all d1 rest in
      (canonical_id :: ids, d2)
  end.

(** How many of the calls of that loop merged instead of minting. *)
Fixpoint count_merges (d : EntityDeduplicator) (entities : list Entity) : nat :=
  match entities with
  | [] => 0
  | e :: rest =>
      ((if merges d e then 1 else 0)
       + count_merges (snd (add_entity d e)) rest)%nat
  end.

End Dedup.

(** ** The vectorizer the constructor installs

    [TfidfVectorizer(analyzer='char_wb', ngram_range=(2, 4), lowercase=True)]
    and [cosine_similarity] belong to scikit-learn, not to this repository.
    [Tfidf.cosine] follows the library's definition on a corpus of two
    documents: the character n-grams (n = 2..4) of every blank-padded word of
    the lower-cased text, raw counts as term frequencies, the smoothed inverse
    document frequency [ln (3 / (1 + df)) + 1] (1 for an n-gram of both names,
    [1 + ln 1.5] for an n-gram of one), and the cosine of the two rows. With
    [n] the sum of [c1 * c2] over shared n-grams, [s_i] the sum of [c_i ^ 2]
    over shared n-grams and [u_i] the same sum over the n-grams only name [i]
    has, the cosine is [n / sqrt ((s1 + idf2 * u1) * (s2 + idf2 * u2))], where
    [idf2 = (1 + ln 1.5) ^ 2]. The library computes it in floating point; here
    [idf2] is cut to 18 decimals and the root to 9. It is exact on the two
    values the examples of this development rest on: 0 when the names share
    no n-gram, 1 when their n-gram counts agree.  An empty vocabulary (no
    n-gram in either name) makes [fit_transform] raise. *)

Module Tfidf.
Import PyStr.

Fixpoint windows (n : nat) (l : chars) : list chars :=
  match l with
  | [] => []
  | _ :: r => if (n <=? List.length l)%nat then firstn n l :: windows n r else []
  end.

(** The [char_wb] analyzer. *)
Definition ngrams (name : string) : list chars :=
  flat_map (fun w =>
    let w := space :: w ++ [space] in
    windows 2 w ++ windows 3 w ++ windows 4 w)
    (split_ws (lower (of_string name))).

Definition count (g : chars) (grams : list chars) : Z :=
  Z.of_nat (List.length (filter (chars_eqb g) grams)).

Definition sum (l : list Z) : Z := fold_right Z.add 0%Z l.

Definition idf2 : Q := 1975332170109494194 # 1000000000000000000.

(** The squared norm of the row of [grams] against the other document. *)
Definition norm2 (grams other : list chars) : Q :=
  let vocabulary := PySet.of_list chars_eqb grams in
  let shared := filter (fun g => PySet.mem chars_eqb g other) vocabulary in
  let own := filter (fun g => negb (PySet.mem chars_eqb g other)) vocabulary in
  inject_Z (sum (map (fun g => count g grams * count g grams)%Z shared))
  + idf2 * inject_Z (sum (map (fun g => count g grams * count g grams)%Z own)).

Definition dot (grams1 grams2 : list chars) : Z :=
  sum (map (fun g => count g grams1 * count g grams2)%Z
           (PySet.of_list chars_eqb grams1)).

(** The square root of a non-negative rational, to nine decimals. *)
Definition sqrt9 (x : Q) : Q :=
  Z.sqrt (Qfloor (x * inject_Z (10 ^ 18))) # 1000000000.

Definition cosine (name1 name2 : string) : option Q :=
  let grams1 := ngrams name1 in
  let grams2 := ngrams name2 in
  match grams1, grams2 with
  | [], [] => None
  | _, _ =>
      let n := dot grams1 grams2 in
      if (n =? 0)%Z then Some 0
      else Some (sqrt9 (inject_Z (n * n)
                        / (norm2 grams1 grams2 * norm2 grams2 grams1)))
  end.

End Tfidf.

(** ** The same cosine in binary64

    [Tfidf.cosine] is the cosine in exact arithmetic. The library works in
    binary64, and what [calculate_similarity] returns is the double it
    computes. [Tfidf64] follows that computation, operation by operation:
    - [CountVectorizer] numbers the n-grams by first occurrence in the corpus
      of the two names and fills each row in that order; sorting the
      vocabulary afterwards renumbers the columns and leaves the entries of a
      row where they are;
    - [TfidfTransformer] multiplies each count by
      [idf = np.log(3 / (1 + df)) + 1.0], which is 1.0 for an n-gram of both
      names and the double [0x1.67cc8fb2fe613p+0] (1.4054651081081644) for
      an n-gram of one, and normalizes each row
      ([inplace_csr_row_normalize_l2]: the squares are added from 0.0 through
      the entries of the row, a row whose sum is 0.0 is left as it is, every
      entry is divided by the root of the sum);
    - [cosine_similarity] normalizes both rows once more and multiplies
      them: the products of the entries the two rows share are added from
      0.0 through the entries of the first row.
    Every operation rounds to the nearest double; none is fused with
    another. *)

Module Tfidf64.
Import PyStr.

Definition float := PrimFloat.float.

(** [float(c)] for a count. *)
Definition of_count (c : Z) : float := PrimFloat.of_uint63 (Uint63Axioms.of_Z c).

(** [np.log(1.5) + 1.0] *)
Definition idf_of_one : float :=
  FloatOps.SF2Prim (SpecFloat.S754_finite false 6329652137158163 (-52)).

Definition idf (grams1 grams2 : list chars) (g : chars) : float :=
  if PySet.mem chars_eqb g grams1 && PySet.mem chars_eqb g grams2
  then PrimFloat.one else idf_of_one.

Definition vocabulary (grams1 grams2 : list chars) : list chars :=
  PySet.of_list chars_eqb (grams1 ++ grams2).

(** The row of the document [grams] before it is normalized. *)
Definition row (grams1 grams2 grams : list chars) : list (chars * float) :=
  flat_map (fun g =>
    let c := Tfidf.count g grams in
    if (c =? 0)%Z then []
    else [(g, PrimFloat.mul (of_count c) (idf grams1 grams2 g))])
    (vocabulary grams1 grams2).

(** [normalize(X, norm='l2')] on one row. *)
Definition normalize (r : list (chars * float)) : list (chars * float) :=
  let sum := fold_left (fun s x => PrimFloat.add s (PrimFloat.mul (snd x) (snd x)))
                       r PrimFloat.zero in
  if PrimFloat.eqb sum PrimFloat.zero then r
  else let norm := PrimFloat.sqrt sum in
       map (fun x => (fst x, PrimFloat.div (snd x) norm)) r.

(** The product of two rows. *)
Definition dot (r1 r2 : list (chars * float)) : float :=
  fold_left (fun s x =>
    match find (fun y => chars_eqb (fst x) (fst y)) r2 with
    | Some y => PrimFloat.add s (PrimFloat.mul (snd x) (snd y))
    | None => s
    end) r1 PrimFloat.zero.

(** [cosine_similarity(vectors[0:1], vectors[1:2])[0][0]] after
    [vectors = fit_transform([name1, name2])]; [None] when [fit_transform]
    raises (empty vocabulary). *)
Definition cosine_similarity (name1 name2 : string) : option float :=
  let grams1 := Tfidf.ngrams name1 in
  let grams2 := Tfidf.ngrams name2 in
  match grams1, grams2 with
  | [], [] => None
  | _, _ =>
      let vectors0 := normalize (row grams1 grams2 grams1) in
      let vectors1 := normalize (row grams1 grams2 grams2) in
      Some (dot (normalize vectors0) (normalize vectors1))
  end.

(** The rational a finite double denotes (the values above are sums of
    products of finite doubles and stay finite). *)
Definition to_Q (x : float) : Q :=
  match FloatOps.Prim2SF x with
  | SpecFloat.S754_finite s m e =>
      let n := if s then Z.neg m else Z.pos m in
      match e with
      | Z0 => n # 1
      | Z.pos p => (n * 2 ^ Z.pos p) # 1
      | Z.neg p => n # (2 ^ p)
      end
  | _ => 0
  end.

Definition cosine (name1 name2 : string) : option Q :=
  option_map to_Q (cosine_similarity name1 name2).

End Tfidf64.

(** ** The relationship deduplicator: [RelationshipDeduplicator] *)

Module Rel.
Import PyStr.

Definition triple : Type := string * string * string.

Definition triple_eqb (a b : triple) : bool :=
  let '(s1, p1, o1) := a in
  let '(s2, p2, o2) := b in
  String.eqb s1 s2 && String.eqb p1 p2 && String.eqb o1 o2.

(** [self.relationships]: (subject, predicate, object) -> properties *)
Definition relationships := list (triple * list (string * pyval)).

Definition init : relationships := [].

Definition predicate_map : list (string * string) :=
  [ ("supports", "supports");
    ("support", "supports");
    ("evidenceFor", "supports");
    ("opposes", "opposes");
    ("oppose", "opposes");
    ("contradicts", "opposes");
    ("addresses", "addresses");
    ("address", "addresses");
    ("answers", "addresses") ].

Definition str_lower (s : string) : string := to_string (lower (of_string s)).

(** [normalize_relationship] *)
Definition normalize_relationship (subject predicate obj : string) : triple :=
  let normalized_predicate :=
    match sget predicate_map (str_lower predicate) with
    | Some p => p
    | None => str_lower predicate
    end in
  (subject, normalized_predicate, obj).

(** The loop of the [else] branch: a key already stored keeps its value. *)
Definition merge_properties (stored new_properties : list (string * pyval))
  : list (string * pyval) :=
  fold_left (fun acc kv => if smem acc (fst kv) then acc else sset acc (fst kv) (snd kv))
            new_properties stored.

(** [add_relationship] *)
Definition add_relationship (rels : relationships) (subject predicate obj : string)
           (properties : option (list (string * pyval))) : relationships :=
  let triple := normalize_relationship subject predicate obj in
  match Dict.get triple_eqb rels triple with
  | None => Dict.set triple_eqb rels triple (PyVal.or_empty properties)
  | Some stored =>
      match PyVal.or_empty properties with
      | [] => rels
      | new_properties =>
          Dict.set triple_eqb rels triple (merge_properties stored new_properties)
      end
  end.

(** [get_relationships]: one record per stored triple, the stored
    properties laid over the three fixed keys. *)
Definition get_relationships (rels : relationships) : list (list (string * pyval)) :=
  map (fun item : triple * list (string * pyval) =>
         let '((subj, pred, obj), props) := item in
         fold_left (fun acc kv => sset acc (fst kv) (snd kv)) props
           [ ("subject", VAtom (AStr subj));
             ("predicate", VAtom (AStr pred));
             ("object", VAtom (AStr obj)) ])
      rels.

End Rel.

(** ** [json.dumps(_, sort_keys=True)] *)

#[local] Unset Elimination Schemes.
Inductive json :=
| JNull
| JBool (b : bool)
| JInt (z : Z)
| JFloat (q : Q)
| JStr (s : string)
| JList (l : list json)
| JDict (d : list (string * json)).
#[local] Set Elimination Schemes.

Module Json.
Import PyStr.

Definition dquote : ascii := ascii_of_N 34.
Definition backslash : ascii := ascii_of_N 92.

Fixpoint digits (fuel : nat) (n : Z) (acc : chars) : chars :=
  match fuel with
  | O => acc
  | S fuel' =>
      let acc := ascii_of_N (Z.to_N (48 + n mod 10)) :: acc in
      if (n <? 10)%Z then acc else digits fuel' (n / 10)%Z acc
  end.

(** [repr] of a non-negative [int] *)
Definition natural (n : Z) : chars := digits (S (Z.to_nat (Z.log2 n))) n [].

Definition integer (z : Z) : chars :=
  if (z <? 0)%Z then "-"%char :: natural (- z) else natural z.

(** The digits after the point, until the expansion ends (17 at most). *)
Fixpoint fraction (fuel : nat) (num den : Z) : chars :=
  match fuel with
  | O => []
  | S fuel' =>
      if (num =? 0)%Z then []
      else ascii_of_N (Z.to_N (48 + (10 * num) / den))
           :: fraction fuel' ((10 * num) mod den)%Z den
  end.

(** [repr] of a [float] in positional notation (magnitudes from 1e-4 up to
    1e16, which is where Python prints no exponent). *)
Definition float (q : Q) : chars :=
  let den := Z.pos (Qden q) in
  let num := Z.abs (Qnum q) in
  let frac := fraction 17 (num mod den)%Z den in
  (if (Qnum q <? 0)%Z then ["-"%char] else [])
  ++ natural (num / den)%Z ++ ["."%char]
  ++ match frac with [] => ["0"%char] | _ => frac end.

Definition hex (d : N) : ascii :=
  if (d <? 10)%N then ascii_of_N (48 + d) else ascii_of_N (87 + d).

(** One character of a string under [ensure_ascii]. *)
Definition escape (c : ascii) : chars :=
  let n := code c in
  if (n =? 34)%N then [backslash; dquote]
  else if (n =? 92)%N then [backslash; backslash]
  else if (n =? 8)%N then [backslash; "b"%char]
  else if (n =? 12)%N then [backslash; "f"%char]
  else if (n =? 10)%N then [backslash; "n"%char]
  else if (n =? 13)%N then [backslash; "r"%char]
  else if (n =? 9)%N then [backslash; "t"%char]
  else if between 32 126 n then [c]
  else backslash :: of_string "u00" ++ [hex (n / 16); hex (n mod 16)].

Definition quote (s : string) : chars :=
  dquote :: flat_map escape (of_string s) ++ [dquote].

Fixpoint insert_key (x : string * chars) (l : list (string * chars)) : list (string * chars) :=
  match l with
  | [] => [x]
  | y :: r => if String.leb (fst x) (fst y) then x :: l else y :: insert_key x r
  end.

Definition sort_keys (l : list (string * chars)) : list (string * chars) :=
  fold_right insert_key [] l.

Fixpoint dumps_chars (j : json) : chars :=
  match j with
  | JNull => of_string "null"
  | JBool b => of_string (if b then "true" else "false")
  | JInt z => integer z
  | JFloat q => float q
  | JStr s => quote s
  | JList l => "["%char :: join (of_string ", ") (map dumps_chars l) ++ ["]"%char]
  | JDict d =>
      "{"%char
      :: join (of_string ", ")
              (map (fun kv => quote (fst kv) ++ of_string ": " ++ snd kv)
                   (sort_keys (map (fun kv => (fst kv, dumps_chars (snd kv))) d)))
      ++ ["}"%char]
  end.

Definition dumps (j : json) : string := to_string (dumps_chars j).

Definition of_atom (a : atom) : json :=
  match a with
  | ANone => JNull
  | ABool b => JBool b
  | AInt z => JInt z
  | AFloat q => JFloat q
  | AStr s => JStr s
  end.

Definition of_pyval (v : pyval) : json :=
  match v with
  | VAtom a => of_atom a
  | VList l => JList (map of_atom l)
  end.

End Json.

(** ** The provenance tracker: [ProvenanceTracker] and its dataclasses *)

Module EntityObservation.
Record t := {
  observation_id : string;
  entity_type : string;
  name : string;
  properties : list (string * pyval);
  source_document : string;
  source_cid : string;
  extraction_timestamp : string;
  extraction_method : string;
  position : list (string * pyval);
  confidence : pyval
}.
End EntityObservation.

Module EntityResolution.
Record t := {
  resolution_id : string;
  canonical_id : string;
  observation_ids : list string;
  resolution_method : string;
  resolution_confidence : Q;
  resolution_timestamp : string;
  resolution_evidence : list (string * string)
}.
End EntityResolution.

Module CanonicalEntity.
Record t := {
  canonical_id : string;
  primary_name : string;
  entity_type : string;
  all_names : list string;
  merged_properties : list (string * pyval);
  observations : list EntityObservation.t;
  resolutions : list EntityResolution.t;
  created_at : string;
  last_updated : string
}.
End CanonicalEntity.

(** The state of a [ProvenanceTracker]. A transformation is the [dict] the
    code builds, as a JSON object. *)
Record ProvenanceTracker := {
  observations : list (string * EntityObservation.t);
  resolutions : list (string * EntityResolution.t);
  canonical : list (string * CanonicalEntity.t);
  name_to_observations : list (string * list string);
  doc_to_observations : list (string * list string);
  canonical_to_observations : list (string * list string);
  transformations : list (list (string * json))
}.

Module Prov.
Import PyStr.

(** [__init__] *)
Definition init : ProvenanceTracker :=
  {| observations := []; resolutions := []; canonical := [];
     name_to_observations := []; doc_to_observations := [];
     canonical_to_observations := []; transformations := [] |}.

(** [generate_cid] *)
Definition generate_cid (content : string) : string :=
  ("cid:sha256:"
   ++ to_string (firstn 16 (Sha256.hexdigest (Sha256.utf8 (of_string content)))))%string.

(** [generate_rid] *)
Definition generate_rid (resource_type identifier : string) : string :=
  ("orn:regen." ++ resource_type ++ ":" ++ identifier)%string.

(** [normalize_name]: [name.lower().strip().replace('.', '').replace(',', '')] *)
Definition normalize_name (name : string) : string :=
  to_string (remove_char ","%char (remove_char "."%char (strip (lower (of_string name))))).

(** [record_transformation]: the record gets the content id of its own
    dump and joins the log. *)
Definition with_cid (transformation : list (string * json)) : list (string * json) :=
  sset transformation "cid" (JStr (generate_cid (Json.dumps (JDict transformation)))).

Definition record_transformation (log : list (list (string * json)))
           (transformation : list (string * json)) : list (list (string * json)) :=
  log ++ [with_cid transformation].

(** The record of an extraction, before its content id is added. *)
Definition extract_transformation (observation : EntityObservation.t) : list (string * json) :=
  [ ("@type", JStr "regen:Transformation");
    ("@id", JStr (generate_rid "transform"
                    ("extract_" ++ EntityObservation.observation_id observation)));
    ("process", JStr "Extract");
    ("fromState", JStr (EntityObservation.source_cid observation));
    ("toState", JStr (EntityObservation.observation_id observation));
    ("method", JStr (EntityObservation.extraction_method observation));
    ("timestamp", JStr (EntityObservation.extraction_timestamp observation));
    ("confidence", Json.of_pyval (EntityObservation.confidence observation)) ].

(** The record of a resolution, before its content id is added. *)
Definition resolve_transformation (resolution : EntityResolution.t) : list (string * json) :=
  [ ("@type", JStr "regen:Transformation");
    ("@id", JStr (generate_rid "transform"
                    ("resolve_" ++ EntityResolution.resolution_id resolution)));
    ("process", JStr "Resolve");
    ("fromState", JList (map JStr (EntityResolution.observation_ids resolution)));
    ("toState", JStr (EntityResolution.canonical_id resolution));
    ("method", JStr (EntityResolution.resolution_method resolution));
    ("timestamp", JStr (EntityResolution.resolution_timestamp resolution));
    ("confidence", JFloat (EntityResolution.resolution_confidence resolution));
    ("evidence",
     JDict (map (fun kv => (fst kv, JStr (snd kv)))
                (EntityResolution.resolution_evidence resolution))) ].

(** [index[k].append(x)], the key created on first use. *)
Definition index_append (index : list (string * list string)) (k x : string)
  : list (string * list string) :=
  match sget index k with
  | Some l => sset index k (l ++ [x])
  | None => sset index k [x]
  end.

(** The [EntityObservation] that [record_observation] builds. [uuid] is
    [uuid.uuid4().hex[:12]] and [now] is
    [datetime.now(tz=timezone.utc).isoformat()], as drawn by the call. *)
Definition new_observation (uuid now : string) (entity : Entity)
           (source_doc source_cid : string)
           (position : option (list (string * pyval))) (method : string)
  : EntityObservation.t :=
  {| EntityObservation.observation_id := ("obs:" ++ uuid)%string;
     EntityObservation.entity_type := Ent.get_type entity "Unknown";
     EntityObservation.name := Ent.get_name entity "";
     EntityObservation.properties :=
       filter (fun kv => Ent.not_reserved (fst kv)) (Ent.items entity);
     EntityObservation.source_document := source_doc;
     EntityObservation.source_cid := source_cid;
     EntityObservation.extraction_timestamp := now;
     EntityObservation.extraction_method := method;
     EntityObservation.position := PyVal.or_empty position;
     EntityObservation.confidence := Ent.get_confidence entity |}.

(** [record_observation] *)
Definition record_observation (t : ProvenanceTracker) (uuid now : string)
           (entity : Entity) (source_doc source_cid : string)
           (position : option (list (string * pyval))) (method : string)
  : string * ProvenanceTracker :=
  let observation :=
    new_observation uuid now entity source_doc source_cid position method in
  let observation_id := EntityObservation.observation_id observation in
  let normalized := normalize_name (Ent.get_name entity "") in
  (observation_id,
   {| observations := sset (observations t) observation_id observation;
      resolutions := resolutions t;
      canonical := canonical t;
      name_to_observations := index_append (name_to_observations t) normalized observation_id;
      doc_to_observations := index_append (doc_to_observations t) source_doc observation_id;
      canonical_to_observations := canonical_to_observations t;
      transformations :=
        record_transformation (transformations t) (extract_transformation observation) |}).

(** The inner test of [find_matching_canonical]: some known name of the
    canonical entity normalizes to [normalized]. *)
Definition knows_name (c : CanonicalEntity.t) (normalized : string) : bool :=
  existsb (fun name => String.eqb (normalize_name name) normalized)
          (CanonicalEntity.all_names c).

(** [find_matching_canonical] for an observation at hand. *)
Definition find_matching_canonical (t : ProvenanceTracker) (observation : EntityObservation.t)
  : option string :=
  let normalized := normalize_name (EntityObservation.name observation) in
  match
    find (fun item : string * CanonicalEntity.t =>
            String.eqb (EntityObservation.entity_type observation)
                       (CanonicalEntity.entity_type (snd item))
            && knows_name (snd item) normalized)
         (canonical t)
  with
  | Some (canonical_id, _) => Some canonical_id
  | None => None
  end.

(** The outcome of a Python block that may raise. *)
Inductive result (A : Type) :=
| Ok (a : A)
| Raise (exception : string).
Arguments Ok {A} a.
Arguments Raise {A} exception.

(** The first loop of [create_canonical_entity]: the first observation that
    matches a canonical entity decides. *)
Fixpoint find_existing (t : ProvenanceTracker) (observation_ids : list string)
  : result (option string) :=
  match observation_ids with
  | [] => Ok None
  | obs_id :: rest =>
      match sget (observations t) obs_id with
      | None => Raise "KeyError"
      | Some observation =>
          match find_matching_canonical t observation with
          | Some m => if nonempty m then Ok (Some m) else find_existing t rest
          | None => find_existing t rest
          end
      end
  end.

(** The property merge of [create_canonical_entity]. *)
Definition merge_property (merged : list (string * pyval)) (item : string * pyval)
  : list (string * pyval) :=
  let (key, value) := item in
  match sget merged key with
  | None => sset merged key value
  | Some old =>
      match value, old with
      | VList new_items, VList old_items =>
          sset merged key (VList (PySet.of_list PyVal.atom_eqb (old_items ++ new_items)))
      | _, _ => merged
      end
  end.

(** One turn of the loop that adds the observations to the canonical
    entity. *)
Definition absorb (c : CanonicalEntity.t) (obs : EntityObservation.t) : CanonicalEntity.t :=
  {| CanonicalEntity.canonical_id := CanonicalEntity.canonical_id c;
     CanonicalEntity.primary_name := CanonicalEntity.primary_name c;
     CanonicalEntity.entity_type := CanonicalEntity.entity_type c;
     CanonicalEntity.all_names :=
       PySet.add String.eqb (EntityObservation.name obs) (CanonicalEntity.all_names c);
     CanonicalEntity.merged_properties :=
       fold_left merge_property (EntityObservation.properties obs)
                 (CanonicalEntity.merged_properties c);
     CanonicalEntity.observations := CanonicalEntity.observations c ++ [obs];
     CanonicalEntity.resolutions := CanonicalEntity.resolutions c;
     CanonicalEntity.created_at := CanonicalEntity.created_at c;
     CanonicalEntity.last_updated := CanonicalEntity.last_updated c |}.

(** [[self.observations[i] for i in observation_ids]], raising on an
    unknown id. *)
Fixpoint lookup_all (store : list (string * EntityObservation.t)) (ids : list string)
  : result (list EntityObservation.t) :=
  match ids with
  | [] => Ok []
  | i :: rest =>
      match sget store i, lookup_all store rest with
      | Some o, Ok os => Ok (o :: os)
      | _, _ => Raise "KeyError"
      end
  end.

(** What one call of [create_canonical_entity] draws: two uuids and four
    readings of the clock. *)
Record draws := {
  uuid_canonical : string;
  uuid_resolution : string;
  now_created : string;
  now_first_updated : string;
  now_resolution : string;
  now_last_updated : string
}.

Definition new_canonical (dr : draws) (first_obs : EntityObservation.t) : CanonicalEntity.t :=
  {| CanonicalEntity.canonical_id := ("entity:" ++ uuid_canonical dr)%string;
     CanonicalEntity.primary_name := EntityObservation.name first_obs;
     CanonicalEntity.entity_type := EntityObservation.entity_type first_obs;
     CanonicalEntity.all_names := [EntityObservation.name first_obs];
     CanonicalEntity.merged_properties := [];
     CanonicalEntity.observations := [];
     CanonicalEntity.resolutions := [];
     CanonicalEntity.created_at := now_created dr;
     CanonicalEntity.last_updated := now_first_updated dr |}.

(** The [EntityResolution] that [create_canonical_entity] builds. *)
Definition new_resolution (dr : draws) (canonical_id : string)
           (observation_ids : list string) (resolution_method : string)
  : EntityResolution.t :=
  let exact := String.eqb resolution_method "exact_match" in
  {| EntityResolution.resolution_id := ("res:" ++ uuid_resolution dr)%string;
     EntityResolution.canonical_id := canonical_id;
     EntityResolution.observation_ids := observation_ids;
     EntityResolution.resolution_method := resolution_method;
     EntityResolution.resolution_confidence := if exact then 0.95 else 0.8;
     EntityResolution.resolution_timestamp := now_resolution dr;
     EntityResolution.resolution_evidence :=
       [ ("method", resolution_method);
         ("matched_on", if exact then "name" else "similarity") ] |}.

(** The end of the call: the resolution joins the canonical entity and the
    clock is read once more. *)
Definition close (c : CanonicalEntity.t) (resolution : EntityResolution.t) (now : string)
  : CanonicalEntity.t :=
  {| CanonicalEntity.canonical_id := CanonicalEntity.canonical_id c;
     CanonicalEntity.primary_name := CanonicalEntity.primary_name c;
     CanonicalEntity.entity_type := CanonicalEntity.entity_type c;
     CanonicalEntity.all_names := CanonicalEntity.all_names c;
     CanonicalEntity.merged_properties := CanonicalEntity.merged_properties c;
     CanonicalEntity.observations := CanonicalEntity.observations c;
     CanonicalEntity.resolutions := CanonicalEntity.resolutions c ++ [resolution];
     CanonicalEntity.created_at := CanonicalEntity.created_at c;
     CanonicalEntity.last_updated := now |}.

(** [create_canonical_entity]. A call that raises returns [Raise] (the
    tracker it leaves half updated is not followed further). *)
Definition create_canonical_entity (t : ProvenanceTracker) (dr : draws)
           (observation_ids : list string) (resolution_method : string)
  : result (string * ProvenanceTracker) :=
  match observation_ids with
  | [] => Raise "ValueError"
  | first_id :: _ =>
      match find_existing t observation_ids with
      | Raise e => Raise e
      | Ok existing_canonical =>
          let target :=
            match existing_canonical with
            | Some existing =>
                match sget (canonical t) existing with
                | Some c => Ok (existing, c)
                | None => Raise "KeyError"
                end
            | None =>
                match sget (observations t) first_id with
                | Some first_obs =>
                    Ok (("entity:" ++ uuid_canonical dr)%string, new_canonical dr first_obs)
                | None => Raise "KeyError"
                end
            end in
          match target, lookup_all (observations t) observation_ids with
          | Ok (canonical_id, c), Ok obs =>
              let resolution :=
                new_resolution dr canonical_id observation_ids resolution_method in
              let resolution_id := EntityResolution.resolution_id resolution in
              Ok (canonical_id,
                  {| observations := observations t;
                     resolutions := sset (resolutions t) resolution_id resolution;
                     canonical :=
                       sset (canonical t) canonical_id
                            (close (fold_left absorb obs c) resolution (now_last_updated dr));
                     name_to_observations := name_to_observations t;
                     doc_to_observations := doc_to_observations t;
                     canonical_to_observations :=
                       fold_left (fun index obs_id => index_append index canonical_id obs_id)
                                 observation_ids (canonical_to_observations t);
                     transformations :=
                       record_transformation (transformations t)
                         (resolve_transformation resolution) |})
          | Raise e, _ => Raise e
          | _, Raise e => Raise e
          end
      end
  end.

(** The calls a client makes, each with what it draws from [uuid] and the
    clock, and a session of such calls. *)
Inductive call :=
| RecordObservation (uuid now : string) (entity : Entity) (source_doc source_cid : string)
                    (position : option (list (string * pyval))) (method : string)
| CreateCanonicalEntity (dr : draws) (observation_ids : list string)
                        (resolution_method : string).

Definition step (t : ProvenanceTracker) (c : call) : result ProvenanceTracker :=
  match c with
  | RecordObservation uuid now entity source_doc source_cid position method =>
      Ok (snd (record_observation t uuid now entity source_doc source_cid position method))
  | CreateCanonicalEntity dr observation_ids resolution_method =>
      match create_canonical_entity t dr observation_ids resolution_method with
      | Ok (_, t') => Ok t'
      | Raise e => Raise e
      end
  end.

Fixpoint run (t : ProvenanceTracker) (calls : list call) : result ProvenanceTracker :=
  match calls with
  | [] => Ok t
  | c :: rest =>
      match step t c with
      | Ok t' => run t' rest
      | Raise e => Raise e
      end
  end.

End Prov.

(** ** The reports of the entity deduplicator: [resolve_coreferences],
    [get_statistics] and [export_canonical_entities] *)

Module DedupReports.
Import PyStr.

(** The [nx.Graph] that [resolve_coreferences] returns: one node per
    position of the list, with the entity record as its attributes, and the
    weighted edges in the order in which they are added. *)
Record graph := {
  nodes : list (nat * Entity);
  edges : list (nat * nat * Q)
}.

(** [entity1.get('@type') != entity2.get('@type')]: a missing key reads
    [None], which equals [None] only. *)
Definition differ_in_type (entity1 entity2 : Entity) : bool :=
  match ent_type entity1, ent_type entity2 with
  | Some t1, Some t2 => negb (String.eqb t1 t2)
  | None, None => false
  | _, _ => true
  end.

(** The body of the inner loop, for the entities at positions [i < j]. *)
Definition coreference (d : EntityDeduplicator) (i j : nat) (entity1 entity2 : Entity)
  : list (nat * nat * Q) :=
  if differ_in_type entity1 entity2 then []
  else
    let similarity :=
      Dedup.calculate_similarity d (Ent.get_name entity1 "") (Ent.get_name entity2 "") in
    if Qle_bool (similarity_threshold d) similarity then [(i, j, similarity)] else [].

(** [resolve_coreferences] *)
Definition resolve_coreferences (d : EntityDeduplicator) (entities : list Entity) : graph :=
  let n := List.length entities in
  {| nodes := combine (seq 0 n) entities;
     edges :=
       flat_map (fun i =>
         flat_map (fun j =>
           match nth_error entities i, nth_error entities j with
           | Some entity1, Some entity2 => coreference d i j entity1 entity2
           | _, _ => []
           end) (seq (S i) (n - S i)))
         (seq 0 n) |}.

(** The [dict] that [get_statistics] returns, one field per key. *)
Record statistics := {
  total_canonical_entities : nat;
  total_aliases : nat;
  total_source_documents : nat;
  average_confidence : Q;
  type_distribution : list (string * nat);
  deduplication_ratio : Q
}.

(** [np.mean] of a non-empty list *)
Definition mean (l : list Q) : Q :=
  fold_right Qplus 0 l / inject_Z (Z.of_nat (List.length l)).

(** [type_distribution[t] += 1] on a [defaultdict(int)] *)
Definition count_type (distribution : list (string * nat)) (t : string)
  : list (string * nat) :=
  sset distribution t
       (match sget distribution t with Some n => n | None => 0 end + 1)%nat.

(** [get_statistics] *)
Definition get_statistics (d : EntityDeduplicator) : statistics :=
  let signatures := map snd (entity_registry d) in
  let total_entities := List.length (entity_registry d) in
  let total_aliases := list_sum (map (fun sig => List.length (aliases sig)) signatures) in
  let total_documents :=
    List.length (fold_left (PySet.union PyVal.eqb) (map source_documents signatures) []) in
  {| total_canonical_entities := total_entities;
     total_aliases := total_aliases;
     total_source_documents := total_documents;
     average_confidence :=
       if (0 <? total_entities)%nat then mean (map confidence signatures) else 0;
     type_distribution := fold_left count_type (map entity_type signatures) [];
     deduplication_ratio :=
       inject_Z (Z.of_nat total_aliases) / inject_Z (Z.of_nat (Nat.max total_entities 1)) |}.

(** One record of [export_canonical_entities]: the six fixed keys, then
    [**signature.properties], whose keys replace the value of a fixed key of
    the same name. The values are written as [json] trees. *)
Definition export_entity (canonical_id : string) (signature : EntitySignature)
  : list (string * json) :=
  fold_left (fun entity (kv : string * pyval) => sset entity (fst kv) (Json.of_pyval (snd kv)))
    (properties signature)
    [ ("@id", JStr canonical_id);
      ("@type", JStr (entity_type signature));
      ("name", JStr (canonical_name signature));
      ("aliases", JList (map JStr (aliases signature)));
      ("confidence", JFloat (confidence signature));
      ("source_documents", JList (map Json.of_pyval (source_documents signature))) ].

(** [export_canonical_entities] *)
Definition export_canonical_entities (d : EntityDeduplicator) : list (list (string * json)) :=
  map (fun item : string * EntitySignature => export_entity (fst item) (snd item))
      (entity_registry d).

End DedupReports.

(** ** [str], [repr] and [in] on the values of a transformation record *)

Module PyRepr.
Import PyStr.

Definition apostrophe : ascii := ascii_of_N 39.

(** [l.startswith(prefix)] *)
Fixpoint startswith (l prefix : chars) : bool :=
  match prefix, l with
  | [], _ => true
  | p :: prefix', c :: l' => Ascii.eqb p c && startswith l' prefix'
  | _ :: _, [] => false
  end.

Fixpoint contains_chars (hay needle : chars) : bool :=
  startswith hay needle
  || match hay with
     | [] => false
     | _ :: rest => contains_chars rest needle
     end.

(** [needle in hay] for two [str]: [needle] is a substring of [hay]. *)
Definition contains (needle hay : string) : bool :=
  contains_chars (of_string hay) (of_string needle).

(** [str.isprintable] on one character. *)
Definition is_printable (c : ascii) : bool :=
  let n := code c in
  between 32 126 n || (between 161 255 n && negb (n =? 173)%N).

(** One character of the [repr] of a [str] written between [quote]s. *)
Definition repr_char (quote c : ascii) : chars :=
  let n := code c in
  if Ascii.eqb c quote || (n =? 92)%N then [Json.backslash; c]
  else if (n =? 9)%N then [Json.backslash; "t"%char]
  else if (n =? 10)%N then [Json.backslash; "n"%char]
  else if (n =? 13)%N then [Json.backslash; "r"%char]
  else if is_printable c then [c]
  else [Json.backslash; "x"%char; Json.hex (n / 16); Json.hex (n mod 16)].

(** [repr] of a [str]: single quotes, unless the string holds a single
    quote and no double quote. *)
Definition repr_quote (l : chars) : ascii :=
  if existsb (Ascii.eqb apostrophe) l && negb (existsb (Ascii.eqb Json.dquote) l)
  then Json.dquote else apostrophe.

Definition repr_str (s : string) : chars :=
  let l := of_string s in
  let quote := repr_quote l in
  quote :: flat_map (repr_char quote) l ++ [quote].

(** [repr] of a value. *)
Fixpoint repr_chars (j : json) : chars :=
  match j with
  | JNull => of_string "None"
  | JBool b => of_string (if b then "True" else "False")
  | JInt z => Json.integer z
  | JFloat q => Json.float q
  | JStr s => repr_str s
  | JList l => "["%char :: join (of_string ", ") (map repr_chars l) ++ ["]"%char]
  | JDict d =>
      "{"%char
      :: join (of_string ", ")
              (map (fun kv => repr_str (fst kv) ++ of_string ": " ++ repr_chars (snd kv)) d)
      ++ ["}"%char]
  end.

(** [str] of a value: a [str] is itself, anything else its [repr]. *)
Definition str (j : json) : string :=
  match j with
  | JStr s => s
  | _ => to_string (repr_chars j)
  end.

End PyRepr.

(** ** The reports of the provenance tracker: [get_entity_provenance] and
    [export_provenance_graph] *)

Module ProvReports.
Import PyStr.

(** A [dict] of entity properties as a [json] object. *)
Definition properties_json (d : list (string * pyval)) : json :=
  JDict (map (fun kv => (fst kv, Json.of_pyval (snd kv))) d).

(** [len(set(obs.source_document for obs in observations))] *)
Definition unique_sources (observations : list EntityObservation.t) : nat :=
  List.length (PySet.of_list String.eqb (map EntityObservation.source_document observations)).

Definition observation_entry (obs : EntityObservation.t) : json :=
  JDict [ ("@id", JStr (EntityObservation.observation_id obs));
          ("name", JStr (EntityObservation.name obs));
          ("source", JStr (EntityObservation.source_document obs));
          ("source_cid", JStr (EntityObservation.source_cid obs));
          ("timestamp", JStr (EntityObservation.extraction_timestamp obs));
          ("method", JStr (EntityObservation.extraction_method obs));
          ("position", properties_json (EntityObservation.position obs));
          ("confidence", Json.of_pyval (EntityObservation.confidence obs)) ].

Definition resolution_entry (res : EntityResolution.t) : json :=
  JDict [ ("@id", JStr (EntityResolution.resolution_id res));
          ("method", JStr (EntityResolution.resolution_method res));
          ("timestamp", JStr (EntityResolution.resolution_timestamp res));
          ("confidence", JFloat (EntityResolution.resolution_confidence res));
          ("linked_observations", JList (map JStr (EntityResolution.observation_ids res)));
          ("evidence",
           JDict (map (fun kv => (fst kv, JStr (snd kv)))
                      (EntityResolution.resolution_evidence res))) ].

(** [str(t.get(k, ''))] *)
Definition field_str (transformation : list (string * json)) (k : string) : string :=
  PyRepr.str (match sget transformation k with Some v => v | None => JStr "" end).

(** The test that selects the transformations of a canonical entity: its id
    occurs in the text of [toState], or the id of one of its observations
    occurs in the text of [fromState]. *)
Definition concerns (t : ProvenanceTracker) (canonical_id : string)
           (transformation : list (string * json)) : bool :=
  PyRepr.contains canonical_id (field_str transformation "toState")
  || existsb (fun obs_id => PyRepr.contains obs_id (field_str transformation "fromState"))
             (match sget (canonical_to_observations t) canonical_id with
              | Some ids => ids
              | None => []
              end).

(** [get_entity_provenance]; [None] for an unknown id. *)
Definition get_entity_provenance (t : ProvenanceTracker) (canonical_id : string)
  : option json :=
  match sget (canonical t) canonical_id with
  | None => None
  | Some c =>
      Some (JDict
        [ ("@context",
           JDict [ ("regen", JStr "https://regen.network/ontology#");
                   ("prov", JStr "http://www.w3.org/ns/prov#") ]);
          ("@type", JStr "regen:EntityProvenance");
          ("@id", JStr canonical_id);
          ("canonical",
           JDict [ ("name", JStr (CanonicalEntity.primary_name c));
                   ("type", JStr (CanonicalEntity.entity_type c));
                   ("properties", properties_json (CanonicalEntity.merged_properties c));
                   ("aliases", JList (map JStr (CanonicalEntity.all_names c))) ]);
          ("observations", JList (map observation_entry (CanonicalEntity.observations c)));
          ("resolutions", JList (map resolution_entry (CanonicalEntity.resolutions c)));
          ("transformations",
           JList (map JDict (filter (concerns t canonical_id) (transformations t))));
          ("statistics",
           JDict [ ("total_observations",
                    JInt (Z.of_nat (List.length (CanonicalEntity.observations c))));
                   ("unique_sources",
                    JInt (Z.of_nat (unique_sources (CanonicalEntity.observations c))));
                   ("name_variations",
                    JInt (Z.of_nat (List.length (CanonicalEntity.all_names c))));
                   ("created_at", JStr (CanonicalEntity.created_at c));
                   ("last_updated", JStr (CanonicalEntity.last_updated c)) ]) ])
  end.

(** [export_provenance_graph]; [now] is the reading of the clock. *)
Definition export_provenance_graph (t : ProvenanceTracker) (now : string) : json :=
  JDict
    [ ("@context",
       JDict [ ("regen", JStr "https://regen.network/ontology#");
               ("prov", JStr "http://www.w3.org/ns/prov#");
               ("koi", JStr "https://regen.network/koi#") ]);
      ("metadata",
       JDict [ ("generated_at", JStr now);
               ("total_observations", JInt (Z.of_nat (List.length (observations t))));
               ("total_resolutions", JInt (Z.of_nat (List.length (resolutions t))));
               ("total_canonical_entities", JInt (Z.of_nat (List.length (canonical t))));
               ("total_transformations", JInt (Z.of_nat (List.length (transformations t)))) ]);
      ("canonical_entities",
       JList (map (fun item : string * CanonicalEntity.t =>
                     let (canonical_id, entity) := item in
                     JDict [ ("@id", JStr canonical_id);
                             ("primary_name", JStr (CanonicalEntity.primary_name entity));
                             ("type", JStr (CanonicalEntity.entity_type entity));
                             ("aliases", JList (map JStr (CanonicalEntity.all_names entity)));
                             ("properties",
                              properties_json (CanonicalEntity.merged_properties entity));
                             ("observation_count",
                              JInt (Z.of_nat (List.length (CanonicalEntity.observations entity))));
                             ("source_count",
                              JInt (Z.of_nat (unique_sources
                                                (CanonicalEntity.observations entity)))) ])
                  (canonical t)));
      ("transformations", JList (map JDict (transformations t)));
      ("provenance_links",
       JDict (map (fun item : string * CanonicalEntity.t =>
                     (fst item,
                      match get_entity_provenance t (fst item) with
                      | Some provenance => provenance
                      | None => JNull
                      end))
                  (canonical t))) ].

End ProvReports.

(* ================================================================== *)
(** * Part II. The vocabulary of the statements, and example inputs *)
(* ================================================================== *)

(** ** Normal forms of names *)

Module NormalForm.
Import PyStr Normalizer.

(** [' '.join(s.split())] *)
Definition collapse (l : chars) : chars := join [space] (split_ws l).

(** A character a normalized name may hold besides the blank. *)
Definition settled (c : ascii) : bool := Ascii.eqb (lower_char c) c && keep_char c.

(** Words of settled characters separated by single blanks; [in_word] tells
    whether the previous character belongs to a word. *)
Fixpoint tidy_from (in_word : bool) (l : chars) : bool :=
  match l with
  | [] => in_word
  | c :: r =>
      if is_space c then in_word && Ascii.eqb c space && tidy_from false r
      else settled c && tidy_from true r
  end.

Definition tidy (l : chars) : bool :=
  match l with [] => true | _ => tidy_from false l end.

(** Does a normalized name still end in one of the legal suffixes? *)
Definition has_suffix (name : string) : bool :=
  existsb (endswith (of_string name)) suffixes.

End NormalForm.

(** ** Registries, runs and thresholds *)

(** The sorted list is in descending order, so its head dominates. *)
Definition descending (l : list (string * Q)) : Prop :=
  StronglySorted (fun a b => (snd b <= snd a)%Q) l.

(** How a signature keeps the name of an observation: as (a variant of) the
    canonical name, or verbatim among the aliases. *)
Definition covers (signature : EntitySignature) (name : string) : Prop :=
  Dedup.normalize_name name = Dedup.normalize_name (canonical_name signature)
  \/ In name (aliases signature).

(** No mint of the run assigns a canonical id the registry already holds. *)
Fixpoint no_remint (d : EntityDeduplicator) (entities : list Entity) : bool :=
  match entities with
  | [] => true
  | e :: rest =>
      match Dedup.best_match d e with
      | Some _ => true
      | None => negb (smem (entity_registry d) (fst (Dedup.mint d e)))
      end
      && no_remint (snd (Dedup.add_entity d e)) rest
  end.

(** The registry and the type index agree: the registry has one entry per
    key, and an id filed under a type names a signature of that type. *)
Definition registry_sound (d : EntityDeduplicator) : Prop :=
  NoDup (map fst (entity_registry d))
  /\ forall ty ids cid,
       sget (type_index d) ty = Some ids -> In cid ids ->
       exists signature,
         sget (entity_registry d) cid = Some signature /\ entity_type signature = ty.

(** The same registry and indices under another threshold. *)
Definition with_threshold (d : EntityDeduplicator) (t : Q) : EntityDeduplicator :=
  {| similarity_threshold := t;
     entity_registry := entity_registry d;
     name_index := name_index d;
     type_index := type_index d;
     vectorizer := vectorizer d |}.

(** ** Replay of the transformation log *)

Module Replay.

(** What the replay property compares of a canonical entity: its primary
    name, type, known names, merged properties and the ids of its
    observations. *)
Definition view : Type :=
  string * string * list string * list (string * pyval) * list string.

Definition canonical_view (c : CanonicalEntity.t) : view :=
  (CanonicalEntity.primary_name c,
   CanonicalEntity.entity_type c,
   CanonicalEntity.all_names c,
   CanonicalEntity.merged_properties c,
   map EntityObservation.observation_id (CanonicalEntity.observations c)).

Definition store_view (store : list (string * CanonicalEntity.t)) : list (string * view) :=
  map (fun item => (fst item, canonical_view (snd item))) store.

Fixpoint strings (l : list json) : list string :=
  match l with
  | [] => []
  | JStr s :: r => s :: strings r
  | _ :: r => strings r
  end.

(** The observation ids a record was resolved from. *)
Definition record_ids (t : list (string * json)) : list string :=
  match sget t "fromState" with
  | Some (JList l) => strings l
  | _ => []
  end.

Definition start (canonical_id : string) (first_obs : EntityObservation.t) : CanonicalEntity.t :=
  {| CanonicalEntity.canonical_id := canonical_id;
     CanonicalEntity.primary_name := EntityObservation.name first_obs;
     CanonicalEntity.entity_type := EntityObservation.entity_type first_obs;
     CanonicalEntity.all_names := [EntityObservation.name first_obs];
     CanonicalEntity.merged_properties := [];
     CanonicalEntity.observations := [];
     CanonicalEntity.resolutions := [];
     CanonicalEntity.created_at := "";
     CanonicalEntity.last_updated := "" |}.

(** Modelled from the spec: the repository has no replay procedure. The
    specification asks that the canonical-entity store can be re-derived by
    replaying the [Extract] and [Resolve] records of the transformation log.
    An [Extract] record leaves the canonical store as it is; a [Resolve]
    record names the canonical id ([toState]) and the observations
    ([fromState]), whose content is read from the observation store, which is
    never discarded. The observations are merged as [create_canonical_entity]
    merges them, into the entity of that id, started from the first
    observation when the id is new. *)
Definition replay_record (observations : list (string * EntityObservation.t))
           (store : list (string * CanonicalEntity.t)) (t : list (string * json))
  : list (string * CanonicalEntity.t) :=
  match sget t "process", sget t "toState" with
  | Some (JStr process), Some (JStr canonical_id) =>
      if String.eqb process "Resolve" then
        match Prov.lookup_all observations (record_ids t) with
        | Prov.Ok (first_obs :: rest) =>
            let c := match sget store canonical_id with
                     | Some c => c
                     | None => start canonical_id first_obs
                     end in
            sset store canonical_id (fold_left Prov.absorb (first_obs :: rest) c)
        | _ => store
        end
      else store
  | _, _ => store
  end.

Definition replay (observations : list (string * EntityObservation.t))
           (log : list (list (string * json))) : list (string * CanonicalEntity.t) :=
  fold_left (replay_record observations) log [].

(** Every id drawn in the session is new: an observation id is not in the
    observation store, and the id of a canonical entity that is created is
    not in the canonical store. *)
Fixpoint fresh_draws (t : ProvenanceTracker) (calls : list Prov.call) : bool :=
  match calls with
  | [] => true
  | c :: rest =>
      match c with
      | Prov.RecordObservation uuid _ _ _ _ _ _ =>
          negb (smem (observations t) ("obs:" ++ uuid)%string)
      | Prov.CreateCanonicalEntity dr observation_ids _ =>
          match Prov.find_existing t observation_ids with
          | Prov.Ok (Some _) => true
          | _ => negb (smem (canonical t) ("entity:" ++ Prov.uuid_canonical dr)%string)
          end
      end
      && match Prov.step t c with
         | Prov.Ok t' => fresh_draws t' rest
         | Prov.Raise _ => true
         end
  end.

(** The invariant of a session: the replay of the log so far gives the view
    of the canonical store, and the log names known observations only. *)
Definition replayed (t : ProvenanceTracker) : Prop :=
  store_view (replay (observations t) (transformations t)) = store_view (canonical t)
  /\ forall r i, In r (transformations t) -> In i (record_ids r) ->
                 sget (observations t) i <> None.

End Replay.

(** ** Runs of the relationship deduplicator *)

(** A caller's loop over [add_relationship]: one call per subject,
    predicate, object and optional properties. *)
Definition add_relationships (rels : Rel.relationships)
           (calls : list (string * string * string * option (list (string * pyval))))
  : Rel.relationships :=
  fold_left (fun rels call =>
               let '(subject, predicate, obj, properties) := call in
               Rel.add_relationship rels subject predicate obj properties)
            calls rels.

(** The three keys every record of [get_relationships] starts from. *)
Definition triple_record (t : Rel.triple) : list (string * pyval) :=
  let '(subj, pred, obj) := t in
  [ ("subject", VAtom (AStr subj));
    ("predicate", VAtom (AStr pred));
    ("object", VAtom (AStr obj)) ].

(** ** Bounds on confidences, and plain properties *)

(** No confidence of the registry is below [lo]. *)
Definition confidences_at_least (lo : Q) (d : EntityDeduplicator) : Prop :=
  forall cid signature,
    In (cid, signature) (entity_registry d) ->
    (lo <= confidence signature)%Q.

(** No signature of the registry holds a property under ['@id'], ['@type']
    or ['name']. *)
Definition properties_plain (d : EntityDeduplicator) : Prop :=
  forall cid signature,
    In (cid, signature) (entity_registry d) ->
    Forall (fun kv : string * pyval => Ent.not_reserved (fst kv) = true) (properties signature).

(** ** The shape of identifiers *)

(** A lower-case hexadecimal digit. *)
Definition is_hex_digit (c : ascii) : bool :=
  PyStr.between 48 57 (PyStr.code c) || PyStr.between 97 102 (PyStr.code c).

(** ** Sessions of the provenance tracker *)

(** Whether a call or a session raised nothing, and the tracker a session
    ends with ([Prov.init] when it raised). *)
Definition succeeds {A : Type} (r : Prov.result A) : bool :=
  match r with
  | Prov.Ok _ => true
  | Prov.Raise _ => false
  end.

Definition final (calls : list Prov.call) : ProvenanceTracker :=
  match Prov.run Prov.init calls with
  | Prov.Ok t => t
  | Prov.Raise _ => Prov.init
  end.

(** A transformation record without its content id. *)
Definition without_cid (transformation : list (string * json)) : list (string * json) :=
  filter (fun kv => negb (String.eqb (fst kv) "cid")) transformation.

(** The content id of a record is the one [generate_cid] gives for the
    dump of the record without it. *)
Definition certified (transformation : list (string * json)) : Prop :=
  sget transformation "cid"
  = Some (JStr (Prov.generate_cid (Json.dumps (JDict (without_cid transformation))))).

(** [j[k1][k2]...] on nested [dict]s. *)
Fixpoint lookup (j : json) (path : list string) : option json :=
  match path with
  | [] => Some j
  | k :: rest =>
      match j with
      | JDict d =>
          match sget d k with
          | Some v => lookup v rest
          | None => None
          end
      | _ => None
      end
  end.

Definition is_record_observation (c : Prov.call) : bool :=
  match c with
  | Prov.RecordObservation _ _ _ _ _ _ _ => true
  | Prov.CreateCanonicalEntity _ _ _ => false
  end.

(** What [create_canonical_entity] keeps of a canonical entity. Its known
    names are distinct and hold the primary name and the name of each of its
    observations. *)
Definition names_sound (c : CanonicalEntity.t) : Prop :=
  NoDup (CanonicalEntity.all_names c)
  /\ In (CanonicalEntity.primary_name c) (CanonicalEntity.all_names c)
  /\ Forall (fun o => In (EntityObservation.name o) (CanonicalEntity.all_names c))
            (CanonicalEntity.observations c).

(** It has a first observation, whose name and type are its primary name
    and its entity type. *)
Definition led_by_first (c : CanonicalEntity.t) : Prop :=
  exists first rest,
    CanonicalEntity.observations c = first :: rest
    /\ CanonicalEntity.primary_name c = EntityObservation.name first
    /\ CanonicalEntity.entity_type c = EntityObservation.entity_type first.

Definition canonical_sound (c : CanonicalEntity.t) : Prop :=
  led_by_first c /\ names_sound c.

(** The test of [find_matching_canonical] on one entry of the canonical
    store. *)
Definition observation_matches (observation : EntityObservation.t)
           (item : string * CanonicalEntity.t) : bool :=
  String.eqb (EntityObservation.entity_type observation)
             (CanonicalEntity.entity_type (snd item))
  && Prov.knows_name (snd item)
       (Prov.normalize_name (EntityObservation.name observation)).

(** The value under a key of a record, when it is a list. *)
Definition listed (j : json) (k : string) : list json :=
  match lookup j [k] with
  | Some (JList l) => l
  | _ => []
  end.

(** The stores of a session: every observation and canonical entity is
    filed under its own id, the canonical store has one entry per id, and
    no canonical id is the empty string. *)
Definition stores_sound (t : ProvenanceTracker) : Prop :=
  (forall i o, sget (observations t) i = Some o -> EntityObservation.observation_id o = i)
  /\ NoDup (map fst (canonical t))
  /\ (forall cid c, In (cid, c) (canonical t) ->
        CanonicalEntity.canonical_id c = cid /\ PyStr.nonempty cid = true).

(** The index [canonical_to_observations] agrees with the canonical store:
    it lists, for each canonical entity, the ids of its observations, and
    has no entry for an id the store lacks. *)
Definition index_agrees (t : ProvenanceTracker) : Prop :=
  forall cid,
    sget (canonical_to_observations t) cid
    = option_map (fun c => map EntityObservation.observation_id (CanonicalEntity.observations c))
                 (sget (canonical t) cid).

(** ** Example inputs *)

(** The deduplicator the example of the source file builds. *)
Definition default_dedup : EntityDeduplicator := Dedup.init 0.85 Tfidf.cosine.

(** The same deduplicator with the cosine as the library rounds it. *)
Definition binary64_dedup : EntityDeduplicator := Dedup.init 0.85 Tfidf64.cosine.

Definition entity_of (etype name : string) (items : list (string * pyval)) : Entity :=
  {| ent_type := Some etype; ent_name := Some name; ent_items := items |}.

Definition unnamed_with_website : Entity :=
  {| ent_type := Some "regen:Agent"; ent_name := Some "";
     ent_items := [("website", VAtom (AStr "https://regen.network"));
                   ("foundIn", VAtom (AStr "doc1.md"))] |}.

Definition unnamed_with_email : Entity :=
  {| ent_type := Some "regen:Agent"; ent_name := Some "";
     ent_items := [("email", VAtom (AStr "info@regen.network"));
                   ("foundIn", VAtom (AStr "doc2.md"))] |}.

Definition half_confident_entity : Entity :=
  {| ent_type := Some "regen:Agent"; ent_name := Some "Regen Network";
     ent_items := [("confidence", VAtom (AFloat 0.5))] |}.

Definition regen_unknown : Entity :=
  {| ent_type := Some "Unknown"; ent_name := Some "Regen Network"; ent_items := [] |}.

Definition regen_untyped : Entity :=
  {| ent_type := None; ent_name := Some "Regen Network"; ent_items := [] |}.

(** The three entities of the example at the end of the source file. *)
Definition source_example : list Entity :=
  [ entity_of "regen:Agent" "Regen Network"
      [("website", VAtom (AStr "https://regen.network")); ("foundIn", VAtom (AStr "doc1.md"))];
    entity_of "regen:Agent" "Regen Network Inc."
      [("email", VAtom (AStr "info@regen.network")); ("foundIn", VAtom (AStr "doc2.md"))];
    entity_of "regen:Agent" "REGEN NETWORK"
      [("description", VAtom (AStr "Ecological data platform"));
       ("foundIn", VAtom (AStr "doc3.md"))] ].

(** Two organisations whose names are close (cosine about 0.58: all six
    n-grams of "ab" are among the twelve of "ab cd"), and two further
    records that share a contact detail with the second. *)
Definition contact_run : list Entity :=
  [ entity_of "regen:Agent" "ab"
      [("email", VAtom (AStr "one@example.org")); ("website", VAtom (AStr "one.example.org"))];
    entity_of "regen:Agent" "ab cd"
      [("email", VAtom (AStr "two@example.org")); ("website", VAtom (AStr "two.example.org"))];
    entity_of "regen:Agent" "x" [("email", VAtom (AStr "two@example.org"))];
    entity_of "regen:Agent" "y" [("website", VAtom (AStr "two.example.org"))] ].

(** Two records of one organisation, the words of its name in either
    order: the normal forms differ, the n-grams are the same. *)
Definition permuted_names_run : list Entity :=
  [ entity_of "regen:Agent" "Regen Network" [("foundIn", VAtom (AStr "doc1.md"))];
    entity_of "regen:Agent" "Network Regen" [("foundIn", VAtom (AStr "doc2.md"))] ].

(** The same pattern with the names of the example in the source file. *)
Definition regen_contact_run : list Entity :=
  [ entity_of "regen:Agent" "Regen Network"
      [("email", VAtom (AStr "info@regen.network"));
       ("website", VAtom (AStr "https://regen.network"))];
    entity_of "regen:Agent" "Regen Networks"
      [("email", VAtom (AStr "hello@regen.foundation"));
       ("website", VAtom (AStr "https://regen.foundation"))];
    entity_of "regen:Agent" "Gregory Landua" [("email", VAtom (AStr "hello@regen.foundation"))];
    entity_of "regen:Agent" "Foundation" [("website", VAtom (AStr "https://regen.foundation"))] ].

Definition regen_observed : Prov.call :=
  Prov.RecordObservation "3f2a9c1b7d4e" "2025-01-15T10:00:00+00:00"
    {| ent_type := Some "regen:Agent"; ent_name := Some "Regen Network";
       ent_items := [("website", VAtom (AStr "https://regen.network"))] |}
    "data/notion/page1.md" "cid:sha256:abc123" None "mistral:7b".

Definition credits_observed : Prov.call :=
  Prov.RecordObservation "3f2a9c1b7d4e" "2025-01-15T10:00:00+00:00"
    {| ent_type := Some "regen:EcologicalAsset"; ent_name := Some "Carbon Credits";
       ent_items := [("amount", VAtom (AStr "1000"))] |}
    "data/notion/page1.md" "cid:sha256:abc123" None "mistral:7b".

Definition resolve_first : Prov.call :=
  Prov.CreateCanonicalEntity
    {| Prov.uuid_canonical := "a1b2c3d4e5f6"; Prov.uuid_resolution := "0f9e8d7c6b5a";
       Prov.now_created := "2025-01-15T10:00:01+00:00";
       Prov.now_first_updated := "2025-01-15T10:00:01+00:00";
       Prov.now_resolution := "2025-01-15T10:00:01+00:00";
       Prov.now_last_updated := "2025-01-15T10:00:01+00:00" |}
    ["obs:3f2a9c1b7d4e"] "exact_match".

(** The session of the example in the source file (its five observations,
    the resolution of the three sightings of Regen Network), followed by the
    resolution of one more observation on its own. *)
Definition example_session : list Prov.call :=
  [ Prov.RecordObservation "000000000001" "2025-01-15T10:00:00+00:00"
      {| ent_type := Some "regen:Agent"; ent_name := Some "Regen Network";
         ent_items := [("website", VAtom (AStr "https://regen.network"))] |}
      "data/notion/page1.md" "cid:sha256:abc123" None "mistral:7b";
    Prov.RecordObservation "000000000002" "2025-01-15T10:00:01+00:00"
      {| ent_type := Some "regen:EcologicalAsset"; ent_name := Some "Carbon Credits";
         ent_items := [("amount", VAtom (AStr "1000"))] |}
      "data/notion/page1.md" "cid:sha256:abc123" None "mistral:7b";
    Prov.RecordObservation "000000000003" "2025-01-15T10:00:02+00:00"
      {| ent_type := Some "regen:Agent"; ent_name := Some "Regen Network Inc.";
         ent_items := [("email", VAtom (AStr "info@regen.network"))] |}
      "data/discourse/thread2.json" "cid:sha256:def456" None "mistral:7b";
    Prov.RecordObservation "000000000004" "2025-01-15T10:00:03+00:00"
      {| ent_type := Some "regen:GovernanceAct"; ent_name := Some "Proposal #23";
         ent_items := [("status", VAtom (AStr "passed"))] |}
      "data/discourse/thread2.json" "cid:sha256:def456" None "mistral:7b";
    Prov.RecordObservation "000000000005" "2025-01-15T10:00:04+00:00"
      {| ent_type := Some "regen:Agent"; ent_name := Some "REGEN NETWORK";
         ent_items := [("description", VAtom (AStr "Ecological platform"))] |}
      "data/github/readme.md" "cid:sha256:ghi789" None "mistral:7b";
    Prov.CreateCanonicalEntity
      {| Prov.uuid_canonical := "aaaaaaaaaaaa"; Prov.uuid_resolution := "bbbbbbbbbbbb";
         Prov.now_created := "2025-01-15T10:00:05+00:00";
         Prov.now_first_updated := "2025-01-15T10:00:05+00:00";
         Prov.now_resolution := "2025-01-15T10:00:05+00:00";
         Prov.now_last_updated := "2025-01-15T10:00:05+00:00" |}
      ["obs:000000000001"; "obs:000000000003"; "obs:000000000005"] "exact_match";
    Prov.CreateCanonicalEntity
      {| Prov.uuid_canonical := "cccccccccccc"; Prov.uuid_resolution := "dddddddddddd";
         Prov.now_created := "2025-01-15T10:00:06+00:00";
         Prov.now_first_updated := "2025-01-15T10:00:06+00:00";
         Prov.now_resolution := "2025-01-15T10:00:06+00:00";
         Prov.now_last_updated := "2025-01-15T10:00:06+00:00" |}
      ["obs:000000000002"] "similarity" ].

(* ================================================================== *)
(** * Part III. Properties *)
(* ================================================================== *)

Arguments Dedup.generate_canonical_id : simpl never.
Arguments Dedup.normalize_name : simpl never.
Arguments Normalizer.normalize_name : simpl never.

(** ** Dictionaries and sets *)

Section DictFacts.
Context {V : Type}.
Implicit Types (d : list (string * V)) (k : string) (v : V).

Lemma sget_sset_same d k v : sget (sset d k v) k = Some v.
Proof.
  induction d as [|[k' v'] d IH]; simpl.
  - now rewrite String.eqb_refl.
  - destruct (String.eqb k' k) eqn:E; simpl; rewrite E; auto.
Qed.

Lemma sget_sset_other d k k' v : k <> k' -> sget (sset d k v) k' = sget d k'.
Proof.
  intros Hne. induction d as [|[k0 v0] d IH]; simpl.
  - destruct (String.eqb k k') eqn:E; auto.
    apply String.eqb_eq in E. contradiction.
  - destruct (String.eqb k0 k) eqn:E; simpl.
    + apply String.eqb_eq in E. subst k0.
      destruct (String.eqb k k') eqn:E'; auto.
      apply String.eqb_eq in E'. contradiction.
    + now rewrite IH.
Qed.


Lemma smem_sset d k v : smem (sset d k v) k = true.
Proof. unfold Dict.mem. now rewrite sget_sset_same. Qed.

End DictFacts.

Lemma set_mem_In (x : string) (s : list string) :
  PySet.mem String.eqb x s = true <-> In x s.
Proof.
  unfold PySet.mem. rewrite existsb_exists. split.
  - intros [y [Hy E]]. apply String.eqb_eq in E. now subst.
  - intros H. exists x. split; auto. apply String.eqb_refl.
Qed.

Lemma set_add_In (x y : string) (s : list string) :
  In y (PySet.add String.eqb x s) <-> y = x \/ In y s.
Proof.
  unfold PySet.add. destruct (PySet.mem String.eqb x s) eqn:E.
  - apply set_mem_In in E. split; [auto | intros [->|]; auto].
  - rewrite in_app_iff. simpl. intuition.
Qed.



(** ** The relationship deduplicator *)

(** The lookup in the synonym table is made with the lower-cased predicate,
    so the entry ['evidenceFor'] is never found. *)
Lemma evidenceFor_is_not_normalized (subject obj : string) :
  Rel.normalize_relationship subject "evidenceFor" obj = (subject, "evidencefor", obj).
Proof. reflexivity. Qed.

(** The synonyms written in lower case do reach their canonical predicate. *)
Lemma lower_case_synonyms_normalized (subject obj : string) :
  Rel.normalize_relationship subject "support" obj = (subject, "supports", obj)
  /\ Rel.normalize_relationship subject "oppose" obj = (subject, "opposes", obj)
  /\ Rel.normalize_relationship subject "contradicts" obj = (subject, "opposes", obj)
  /\ Rel.normalize_relationship subject "address" obj = (subject, "addresses", obj)
  /\ Rel.normalize_relationship subject "answers" obj = (subject, "addresses", obj).
Proof. repeat split. Qed.

Lemma merge_properties_keeps_stored (new_properties stored : list (string * pyval)) k v :
  sget stored k = Some v -> sget (Rel.merge_properties stored new_properties) k = Some v.
Proof.
  unfold Rel.merge_properties. revert stored.
  induction new_properties as [|[k' v'] rest IH]; intros stored H; simpl; auto.
  apply IH. unfold Dict.mem.
  destruct (sget stored k') eqn:E; auto.
  destruct (String.eqb k' k) eqn:Ek.
  - apply String.eqb_eq in Ek. subst. congruence.
  - rewrite sget_sset_other; auto.
    intros ->. now rewrite String.eqb_refl in Ek.
Qed.

(** C7, evaluated on its scenario: the triples ("a","supports","b") and
    ("a","evidenceFor","b") are stored as two relationships, the second
    under the predicate "evidencefor". *)
Theorem supports_and_evidenceFor_stay_apart :
  Rel.add_relationship (Rel.add_relationship Rel.init "a" "supports" "b" None)
                       "a" "evidenceFor" "b" None
  = [ (("a", "supports", "b"), []); (("a", "evidencefor", "b"), []) ].
Proof. reflexivity. Qed.

(** ** Minting *)

Arguments Dedup.id_of_normalized : simpl never.



Lemma candidates_empty_registry t v e : Dedup.candidates (Dedup.init t v) e = [].
Proof.
  unfold Dedup.candidates, Dedup.exact_matches, Dedup.fuzzy_matches,
    Dedup.property_matches. simpl.
  now destruct (_ || _).
Qed.

Lemma best_match_empty_registry t v e : Dedup.best_match (Dedup.init t v) e = None.
Proof.
  unfold Dedup.best_match, Dedup.find_matches.
  rewrite candidates_empty_registry. now destruct (negb _).
Qed.

Lemma add_entity_mints d e :
  Dedup.best_match d e = None -> Dedup.add_entity d e = Dedup.mint d e.
Proof. unfold Dedup.add_entity. now intros ->. Qed.

Lemma generate_canonical_id_normalized etype name :
  Dedup.generate_canonical_id etype name
  = Dedup.id_of_normalized etype (Dedup.normalize_name name).
Proof. reflexivity. Qed.

(** C4. Minting from a fresh registry yields an identifier that depends on
    nothing but the entity type (['Unknown'] when absent) and the normalized
    name (of ['unnamed'] when absent): neither the threshold nor the
    vectorizer nor the other entries of the record take part. *)
Theorem fresh_mint_id_deterministic (t : Q) (v : string -> string -> option Q) (e : Entity) :
  fst (Dedup.add_entity (Dedup.init t v) e)
  = Dedup.id_of_normalized (Ent.get_type e "Unknown")
                           (Dedup.normalize_name (Ent.get_name e "unnamed")).
Proof.
  rewrite add_entity_mints by apply best_match_empty_registry.
  reflexivity.
Qed.

(** The identifier CPython computes for the first entity of the example in
    the source file, and for a variant of its name. *)
Example regen_network_id :
  Dedup.generate_canonical_id "regen:Agent" "Regen Network"
  = "entity:regen:agent:b5d36f134f19"
  /\ Dedup.generate_canonical_id "regen:Agent" "REGEN  NETWORK, Inc."
     = "entity:regen:agent:b5d36f134f19".
Proof. split; vm_compute; reflexivity. Qed.



(** What is left of the first of the two entities above: nothing. *)
Example unnamed_registry_after_both :
  map snd (entity_registry
             (snd (Dedup.add_all default_dedup [unnamed_with_website; unnamed_with_email])))
  = [ {| canonical_name := ""; entity_type := "regen:Agent"; aliases := [];
         properties := [("email", VAtom (AStr "info@regen.network"));
                        ("foundIn", VAtom (AStr "doc2.md"))];
         source_documents := [VAtom (AStr "doc2.md")];
         confidence := 1 |} ].
Proof. vm_compute. reflexivity. Qed.

(** ** The confidence of a new canonical entity *)

Lemma sget_filter_not_reserved (l : list (string * pyval)) k :
  Ent.not_reserved k = true ->
  sget (filter (fun kv => Ent.not_reserved (fst kv)) l) k = sget l k.
Proof.
  intros Hk. induction l as [|[k' v] l IH]; simpl; auto.
  destruct (Ent.not_reserved k') eqn:E; simpl.
  - now rewrite IH.
  - destruct (String.eqb k' k) eqn:Ek; auto.
    apply String.eqb_eq in Ek. congruence.
Qed.

Lemma sget_items_other (e : Entity) k :
  Ent.not_reserved k = true -> sget (Ent.items e) k = Ent.get e k.
Proof.
  intros Hk. unfold Ent.items, Ent.get.
  assert (H1 : String.eqb "@type" k = false).
  { destruct (String.eqb "@type" k) eqn:E; auto.
    apply String.eqb_eq in E. now subst k. }
  assert (H2 : String.eqb "name" k = false).
  { destruct (String.eqb "name" k) eqn:E; auto.
    apply String.eqb_eq in E. now subst k. }
  destruct (ent_type e), (ent_name e); cbn [app Dict.get]; now rewrite ?H1, ?H2.
Qed.

Lemma mint_registry_entry d e :
  sget (entity_registry (snd (Dedup.mint d e))) (fst (Dedup.mint d e))
  = Some (Dedup.new_signature e).
Proof. unfold Dedup.mint. simpl. apply sget_sset_same. Qed.

(** C8 fails as stated: an observation of confidence 0.5 is minted into a
    canonical entity of confidence 1.0. *)
Lemma mint_drops_observation_confidence :
  Dedup.best_match default_dedup half_confident_entity = None
  /\ Ent.get_confidence half_confident_entity = VAtom (AFloat 0.5)
  /\ option_map confidence
       (sget (entity_registry (snd (Dedup.add_entity default_dedup half_confident_entity)))
             (fst (Dedup.add_entity default_dedup half_confident_entity)))
     = Some 1
  /\ Qeq_bool 1 0.5 = false.
Proof. vm_compute. repeat split. Qed.

(** C8, amended. When [add_entity] mints, the new canonical entity has the
    default confidence 1.0 of the dataclass whatever the observation
    carries; a ['confidence'] entry of the observation is kept as an ordinary
    property. *)
Theorem mint_confidence_is_default (d : EntityDeduplicator) (e : Entity) :
  Dedup.best_match d e = None ->
  exists signature,
    sget (entity_registry (snd (Dedup.add_entity d e))) (fst (Dedup.add_entity d e))
    = Some signature
    /\ confidence signature = 1
    /\ sget (properties signature) "confidence" = Ent.get e "confidence".
Proof.
  intros H. rewrite add_entity_mints by assumption.
  exists (Dedup.new_signature e). split; [apply mint_registry_entry | split; auto].
  unfold Dedup.new_signature. simpl.
  rewrite sget_filter_not_reserved by reflexivity.
  now apply sget_items_other.
Qed.

Lemma mint_confidence_is_default_witness :
  exists signature,
    sget (entity_registry (snd (Dedup.add_entity default_dedup half_confident_entity)))
         (fst (Dedup.add_entity default_dedup half_confident_entity))
    = Some signature
    /\ confidence signature = 1
    /\ sget (properties signature) "confidence" = Some (VAtom (AFloat 0.5)).
Proof.
  apply (mint_confidence_is_default default_dedup half_confident_entity).
  vm_compute. reflexivity.
Defined.

(** ** Candidates, their order, and the best match *)

Lemma sget_In_some {V : Type} (d : list (string * V)) k v :
  In (k, v) d -> sget d k <> None.
Proof.
  induction d as [|[k' v'] d IH]; simpl; [tauto|].
  intros [H|H].
  - inversion H; subst. now rewrite String.eqb_refl.
  - destruct (String.eqb k' k); [discriminate | auto].
Qed.

Lemma insert_desc_In x y l : In y (Dedup.insert_desc x l) <-> y = x \/ In y l.
Proof.
  induction l as [|z l IH]; simpl.
  - intuition.
  - destruct (Qle_bool (snd z) (snd x)); simpl; [intuition|].
    rewrite IH. intuition.
Qed.

Lemma sort_desc_In y l : In y (Dedup.sort_desc l) <-> In y l.
Proof.
  induction l as [|x l IH]; simpl; [tauto|].
  rewrite insert_desc_In, IH. intuition.
Qed.

Lemma unique_matches_In seen y l : In y (Dedup.unique_matches seen l) -> In y l.
Proof.
  revert seen. induction l as [|[cid c] l IH]; simpl; intros seen H; auto.
  destruct (PySet.mem String.eqb cid seen).
  - right. eauto.
  - destruct H as [H|H]; [now left | right; eauto].
Qed.

Lemma unique_matches_head l :
  hd_error (Dedup.unique_matches [] l) = hd_error l.
Proof. destruct l as [|[cid c] l]; reflexivity. Qed.

Lemma insert_desc_descending x l : descending l -> descending (Dedup.insert_desc x l).
Proof.
  unfold descending. induction 1 as [|y l Hl IH Hy]; simpl.
  - repeat constructor.
  - destruct (Qle_bool (snd y) (snd x)) eqn:E.
    + apply Qle_bool_iff in E. constructor; [now constructor|].
      constructor; auto.
      rewrite Forall_forall in *. intros z Hz.
      apply Qle_trans with (snd y); auto.
    + constructor; auto.
      rewrite Forall_forall in *. intros z Hz.
      apply insert_desc_In in Hz. destruct Hz as [->|Hz]; auto.
      destruct (Qlt_le_dec (snd x) (snd y)) as [Hlt|Hle].
      * now apply Qlt_le_weak.
      * apply Qle_bool_iff in Hle. congruence.
Qed.

Lemma sort_desc_descending l : descending (Dedup.sort_desc l).
Proof.
  induction l; simpl; [constructor | now apply insert_desc_descending].
Qed.

Lemma sort_desc_head_max l m :
  hd_error (Dedup.sort_desc l) = Some m -> forall y, In y l -> (snd y <= snd m)%Q.
Proof.
  intros Hm y Hy. apply sort_desc_In in Hy.
  pose proof (sort_desc_descending l) as Hs.
  destruct (Dedup.sort_desc l) as [|z r]; [discriminate|].
  inversion Hm; subst z. inversion Hs; subst.
  destruct Hy as [<-|Hy]; [apply Qle_refl|].
  rewrite Forall_forall in *. auto.
Qed.

Lemma sort_desc_nonempty l : l <> [] -> Dedup.sort_desc l <> [].
Proof.
  destruct l as [|x l]; [congruence|]. intros _ H.
  assert (Hin : In x (Dedup.sort_desc (x :: l))) by (apply sort_desc_In; now left).
  rewrite H in Hin. destruct Hin.
Qed.

(** [best_match] says whether some candidate reaches the threshold. *)
Lemma best_match_some d e cid c :
  Dedup.best_match d e = Some (cid, c) ->
  PyStr.nonempty (Ent.get_name e "") = true
  /\ In (cid, c) (Dedup.candidates d e)
  /\ (similarity_threshold d <= c)%Q.
Proof.
  unfold Dedup.best_match, Dedup.find_matches.
  destruct (PyStr.nonempty (Ent.get_name e "")); simpl; [|discriminate].
  destruct (Dedup.unique_matches [] (Dedup.sort_desc (Dedup.candidates d e)))
    as [|[cid' c'] r] eqn:E; [discriminate|].
  destruct (Qle_bool (similarity_threshold d) c') eqn:Ec; [|discriminate].
  intros H. inversion H; subst. repeat split.
  - apply sort_desc_In. apply unique_matches_In with (seen := []).
    rewrite E. now left.
  - now apply Qle_bool_iff.
Qed.

Lemma best_match_none_iff d e :
  Dedup.best_match d e = None <->
  PyStr.nonempty (Ent.get_name e "") = false
  \/ forall cid c, In (cid, c) (Dedup.candidates d e) -> ~ (similarity_threshold d <= c)%Q.
Proof.
  unfold Dedup.best_match, Dedup.find_matches.
  destruct (PyStr.nonempty (Ent.get_name e "")); simpl; [|intuition].
  pose proof (unique_matches_head (Dedup.sort_desc (Dedup.candidates d e))) as Hh.
  pose proof (sort_desc_head_max (Dedup.candidates d e)) as Hmax.
  destruct (Dedup.unique_matches [] (Dedup.sort_desc (Dedup.candidates d e)))
    as [|[cid' c'] r] eqn:E; simpl in Hh.
  - split; auto. intros _. right. intros cid c Hin.
    destruct (Dedup.candidates d e) as [|x l] eqn:Ec; [destruct Hin|].
    exfalso. apply (sort_desc_nonempty (x :: l)); [congruence|].
    destruct (Dedup.sort_desc (x :: l)); [auto | discriminate].
  - symmetry in Hh. specialize (Hmax _ Hh).
    destruct (Qle_bool (similarity_threshold d) c') eqn:Ec.
    + split; [discriminate|]. intros [H|H]; [discriminate|]. exfalso.
      apply Qle_bool_iff in Ec. apply (H cid' c'); auto.
      apply sort_desc_In.
      destruct (Dedup.sort_desc (Dedup.candidates d e)); [discriminate|].
      inversion Hh; subst. now left.
    + split; auto. intros _. right. intros cid c Hin Hle.
      specialize (Hmax _ Hin). simpl in Hmax.
      assert (Hc : (similarity_threshold d <= c')%Q) by (eapply Qle_trans; eauto).
      apply Qle_bool_iff in Hc. congruence.
Qed.

(** ** Names and aliases of a canonical entity *)

Lemma In_flat_map_registry (r : list (string * EntitySignature))
      (f : string -> EntitySignature -> list (string * Q)) ids cid c :
  In (cid, c) (flat_map (fun canonical_id =>
          match sget r canonical_id with
          | Some signature => f canonical_id signature
          | None => []
          end) ids) ->
  (forall i s, In (cid, c) (f i s) -> i = cid) ->
  sget r cid <> None.
Proof.
  intros H Hf. apply in_flat_map in H. destruct H as [i [_ Hi]].
  destruct (sget r i) as [s|] eqn:E; [|destruct Hi].
  apply Hf in Hi. congruence.
Qed.

Lemma candidates_in_registry d e cid c :
  In (cid, c) (Dedup.candidates d e) -> sget (entity_registry d) cid <> None.
Proof.
  unfold Dedup.candidates. rewrite !in_app_iff. intros [H|[H|H]].
  - unfold Dedup.exact_matches in H.
    destruct (sget (name_index d) _) as [ids|]; [|destruct H].
    eapply In_flat_map_registry; [exact H|].
    intros i s Hy. cbv beta in Hy. destruct (String.eqb _ _); [|destruct Hy].
    destruct Hy as [Hy|[]]. congruence.
  - unfold Dedup.fuzzy_matches in H.
    destruct (sget (type_index d) _) as [ids|]; [|destruct H].
    eapply In_flat_map_registry; [exact H|].
    intros i s Hy. cbv beta in Hy. destruct (Dedup.first_similar _ _ _); [|destruct Hy].
    destruct Hy as [Hy|[]]. congruence.
  - unfold Dedup.property_matches in H.
    destruct (_ || _); [|destruct H].
    apply in_flat_map in H. destruct H as [[i s] [Hin Hi]].
    assert (cid = i).
    { destruct (negb _); [destruct Hi|].
      rewrite !in_app_iff in Hi.
      destruct Hi as [Hi|[Hi|Hi]];
        match type of Hi with
        | In _ (if ?b then _ else _) => destruct b
        end; simpl in Hi; intuition congruence. }
    subst i. eapply sget_In_some; eauto.
Qed.

Lemma add_entity_merges d e cid c :
  Dedup.best_match d e = Some (cid, c) ->
  exists signature,
    sget (entity_registry d) cid = Some signature
    /\ Dedup.add_entity d e
       = (cid, Dedup.with_registry d
                 (sset (entity_registry d) cid (Dedup.merge_signature signature e c))).
Proof.
  intros H. pose proof (best_match_some _ _ _ _ H) as [_ [Hin _]].
  apply candidates_in_registry in Hin.
  destruct (sget (entity_registry d) cid) as [signature|] eqn:E; [|congruence].
  exists signature. split; auto.
  unfold Dedup.add_entity, Dedup.merge_entities. now rewrite H, E.
Qed.

Lemma merge_signature_covers signature e c :
  PyStr.nonempty (Ent.get_name e "") = true ->
  covers (Dedup.merge_signature signature e c) (Ent.get_name e "").
Proof.
  intros Hne. unfold covers, Dedup.merge_signature. cbn [aliases canonical_name].
  rewrite Hne. cbn [andb].
  destruct (String.eqb _ _) eqn:E; cbn [negb].
  - left. now apply String.eqb_eq.
  - right. apply set_add_In. now left.
Qed.

Lemma merge_signature_keeps signature e c name :
  covers signature name -> covers (Dedup.merge_signature signature e c) name.
Proof.
  unfold covers, Dedup.merge_signature. cbn [aliases canonical_name].
  intros [H|H]; [now left | right].
  destruct (_ && _); auto. apply set_add_In. now right.
Qed.

(** One call of [add_entity] covers the name it was given. *)
Lemma add_entity_covers d e :
  exists signature,
    sget (entity_registry (snd (Dedup.add_entity d e))) (fst (Dedup.add_entity d e))
    = Some signature
    /\ covers signature (Ent.get_name e "").
Proof.
  destruct (Dedup.best_match d e) as [[cid c]|] eqn:B.
  - destruct (add_entity_merges _ _ _ _ B) as [signature [Hs ->]]. simpl.
    rewrite sget_sset_same. eexists. split; eauto.
    apply merge_signature_covers. now apply best_match_some in B.
  - rewrite add_entity_mints by assumption.
    rewrite mint_registry_entry. eexists. split; eauto. now left.
Qed.

(** A later call keeps what a signature covers, unless it mints over it. *)
Lemma add_entity_keeps_cover d e cid signature name :
  sget (entity_registry d) cid = Some signature ->
  covers signature name ->
  no_remint d [e] = true ->
  exists signature',
    sget (entity_registry (snd (Dedup.add_entity d e))) cid = Some signature'
    /\ covers signature' name.
Proof.
  intros Hs Hc Hn. simpl in Hn. rewrite andb_true_r in Hn.
  destruct (Dedup.best_match d e) as [[cid' c]|] eqn:B.
  - destruct (add_entity_merges _ _ _ _ B) as [s' [Hs' ->]]. simpl.
    destruct (String.string_dec cid' cid) as [->|Hne].
    + rewrite sget_sset_same. eexists. split; eauto.
      rewrite Hs in Hs'. inversion Hs'; subst. now apply merge_signature_keeps.
    + rewrite sget_sset_other by assumption. eauto.
  - rewrite add_entity_mints by assumption.
    unfold Dedup.mint in *. simpl in *.
    destruct (String.string_dec
                (Dedup.generate_canonical_id (Ent.get_type e "Unknown")
                                             (Ent.get_name e "unnamed")) cid) as [Heq|Hne].
    + rewrite Heq in Hn. unfold Dict.mem in Hn. now rewrite Hs in Hn.
    + rewrite sget_sset_other by assumption. eauto.
Qed.

Lemma add_all_cons d e rest :
  Dedup.add_all d (e :: rest)
  = (fst (Dedup.add_entity d e) :: fst (Dedup.add_all (snd (Dedup.add_entity d e)) rest),
     snd (Dedup.add_all (snd (Dedup.add_entity d e)) rest)).
Proof.
  cbn [Dedup.add_all]. destruct (Dedup.add_entity d e) as [cid d1]. cbn [fst snd].
  now destruct (Dedup.add_all d1 rest).
Qed.

Lemma add_all_keeps_cover entities : forall d cid signature name,
  sget (entity_registry d) cid = Some signature ->
  covers signature name ->
  no_remint d entities = true ->
  exists signature',
    sget (entity_registry (snd (Dedup.add_all d entities))) cid = Some signature'
    /\ covers signature' name.
Proof.
  induction entities as [|e rest IH]; intros d cid signature name Hs Hc Hn.
  - simpl. eauto.
  - rewrite add_all_cons. simpl.
    simpl in Hn. apply andb_true_iff in Hn. destruct Hn as [Hn1 Hn2].
    destruct (add_entity_keeps_cover d e cid signature name Hs Hc) as [s' [Hs' Hc']].
    { simpl. now rewrite Hn1. }
    eapply IH; eauto.
Qed.

(** C1 fails as stated: after the first two entities of the example in the
    source file, which resolve to one canonical entity, the alias set is
    empty, so it holds the normalized name of neither. *)
Lemma aliases_miss_normalized_names :
  exists cid signature,
    fst (Dedup.add_all default_dedup
           [ {| ent_type := Some "regen:Agent"; ent_name := Some "Regen Network";
                ent_items := [("website", VAtom (AStr "https://regen.network"))] |};
             {| ent_type := Some "regen:Agent"; ent_name := Some "Regen Network Inc.";
                ent_items := [("email", VAtom (AStr "info@regen.network"))] |} ])
    = [cid; cid]
    /\ sget (entity_registry
               (snd (Dedup.add_all default_dedup
                  [ {| ent_type := Some "regen:Agent"; ent_name := Some "Regen Network";
                       ent_items := [("website", VAtom (AStr "https://regen.network"))] |};
                    {| ent_type := Some "regen:Agent"; ent_name := Some "Regen Network Inc.";
                       ent_items := [("email", VAtom (AStr "info@regen.network"))] |} ])))
            cid
       = Some signature
    /\ Dedup.normalize_name "Regen Network" = "regen network"
    /\ Dedup.normalize_name "Regen Network Inc." = "regen network"
    /\ aliases signature = [].
Proof.
  eexists. eexists. vm_compute. repeat split.
Qed.

(** C1, amended. In a run of [add_entity] calls in which no mint assigns a
    canonical id the registry already holds, every observation's name is
    covered by the final signature of the canonical entity it was resolved
    to: it normalizes to the same key as the canonical name, or it is among
    the aliases as written (aliases hold raw names, and neither the minting
    observation's name nor its variants are added to them). *)
Theorem names_covered_without_remint (entities : list Entity) :
  forall (d : EntityDeduplicator),
  no_remint d entities = true ->
  forall (i : nat) (e : Entity) (cid : string),
  nth_error entities i = Some e ->
  nth_error (fst (Dedup.add_all d entities)) i = Some cid ->
  exists signature,
    sget (entity_registry (snd (Dedup.add_all d entities))) cid = Some signature
    /\ covers signature (Ent.get_name e "").
Proof.
  induction entities as [|e0 rest IH]; intros d Hn i e cid He Hc.
  - destruct i; discriminate.
  - rewrite add_all_cons in *. simpl in *.
    apply andb_true_iff in Hn. destruct Hn as [_ Hn].
    destruct i as [|i]; simpl in *.
    + inversion He; subst e0. inversion Hc; subst cid.
      destruct (add_entity_covers d e) as [s [Hs Hcov]].
      eapply add_all_keeps_cover; eauto.
    + eapply IH; eauto.
Qed.

(** ** Entity types of candidates *)

Section RegistryKeys.
Context {V : Type}.
Implicit Types (r : list (string * V)) (k : string) (v : V).

Lemma sget_none_keys r k : sget r k = None <-> ~ In k (map fst r).
Proof.
  induction r as [|[k' v'] r IH]; simpl; [tauto|].
  destruct (String.eqb k' k) eqn:E.
  - apply String.eqb_eq in E. subst. split; [discriminate | tauto].
  - rewrite IH. split; [|tauto].
    intros H [Hk|Hk]; auto. subst. now rewrite String.eqb_refl in E.
Qed.

Lemma keys_sset_present r k v :
  sget r k <> None -> map fst (sset r k v) = map fst r.
Proof.
  induction r as [|[k' v'] r IH]; simpl; [congruence|].
  destruct (String.eqb k' k) eqn:E; simpl; auto.
  intros H. now rewrite IH.
Qed.

Lemma keys_sset_absent r k v :
  sget r k = None -> map fst (sset r k v) = map fst r ++ [k].
Proof.
  induction r as [|[k' v'] r IH]; simpl; auto.
  destruct (String.eqb k' k) eqn:E; simpl; [discriminate|].
  intros H. now rewrite IH.
Qed.

Lemma NoDup_keys_sget r k v :
  NoDup (map fst r) -> In (k, v) r -> sget r k = Some v.
Proof.
  induction r as [|[k' v'] r IH]; simpl; [tauto|].
  intros Hnd [H|H].
  - inversion H; subst. now rewrite String.eqb_refl.
  - inversion Hnd; subst.
    destruct (String.eqb k' k) eqn:E; auto.
    apply String.eqb_eq in E. subst k'.
    exfalso. apply H2. change k with (fst (k, v)). now apply in_map.
Qed.

End RegistryKeys.

Lemma In_flat_map_lookup (r : list (string * EntitySignature))
      (f : string -> EntitySignature -> list (string * Q)) ids x :
  In x (flat_map (fun canonical_id =>
          match sget r canonical_id with
          | Some signature => f canonical_id signature
          | None => []
          end) ids) ->
  exists i s, In i ids /\ sget r i = Some s /\ In x (f i s).
Proof.
  intros H. apply in_flat_map in H. destruct H as [i [Hi Hx]].
  destruct (sget r i) as [s|] eqn:E; [|destruct Hx]. eauto.
Qed.

Lemma candidates_same_type d e cid c :
  registry_sound d ->
  In (cid, c) (Dedup.candidates d e) ->
  exists signature,
    sget (entity_registry d) cid = Some signature
    /\ entity_type signature = Ent.get_type e "".
Proof.
  intros [Hnd Hti]. unfold Dedup.candidates. rewrite !in_app_iff. intros [H|[H|H]].
  - unfold Dedup.exact_matches in H.
    destruct (sget (name_index d) _) as [ids|]; [|destruct H].
    apply In_flat_map_lookup in H. destruct H as [i [s [_ [Hs Hx]]]].
    destruct (String.eqb _ _) eqn:E; [|destruct Hx].
    destruct Hx as [Hx|[]]. inversion Hx; subst.
    apply String.eqb_eq in E. eauto.
  - unfold Dedup.fuzzy_matches in H.
    destruct (sget (type_index d) _) as [ids|] eqn:Ei; [|destruct H].
    apply In_flat_map_lookup in H. destruct H as [i [s [Hi [Hs Hx]]]].
    destruct (Dedup.first_similar _ _ _); [|destruct Hx].
    destruct Hx as [Hx|[]]. inversion Hx; subst.
    destruct (Hti _ _ _ Ei Hi) as [s' [Hs' Ht]]. eauto.
  - unfold Dedup.property_matches in H.
    destruct (_ || _); [|destruct H].
    apply in_flat_map in H. destruct H as [[i s] [Hin Hi]].
    destruct (String.eqb (entity_type s) (Ent.get_type e "")) eqn:E;
      cbn [negb] in Hi; [|destruct Hi].
    apply String.eqb_eq in E.
    assert (cid = i).
    { rewrite !in_app_iff in Hi.
      destruct Hi as [Hi|[Hi|Hi]];
        match type of Hi with
        | In _ (if ?b then _ else _) => destruct b
        end; cbn [In] in Hi; intuition congruence. }
    subst i. exists s. split; auto. now apply NoDup_keys_sget.
Qed.

Lemma registry_sound_init t v : registry_sound (Dedup.init t v).
Proof. split; [constructor | discriminate]. Qed.

Lemma index_add_lookup index k x ty ids cid :
  sget (Dedup.index_add index k x) ty = Some ids -> In cid ids ->
  (ty = k /\ cid = x) \/ (exists ids', sget index ty = Some ids' /\ In cid ids').
Proof.
  unfold Dedup.index_add. intros H Hin.
  destruct (String.string_dec k ty) as [->|Hne].
  - destruct (sget index ty) as [old|] eqn:E; rewrite sget_sset_same in H;
      inversion H; subst ids.
    + apply set_add_In in Hin. destruct Hin as [->|Hin]; eauto.
    + destruct Hin as [<-|[]]. auto.
  - destruct (sget index k); rewrite sget_sset_other in H by assumption; eauto.
Qed.

Lemma registry_sound_step d e :
  registry_sound d -> no_remint d [e] = true ->
  registry_sound (snd (Dedup.add_entity d e)).
Proof.
  intros [Hnd Hti] Hn. cbn [no_remint] in Hn. rewrite andb_true_r in Hn.
  destruct (Dedup.best_match d e) as [[cid c]|] eqn:B.
  - destruct (add_entity_merges _ _ _ _ B) as [s [Hs ->]].
    unfold Dedup.with_registry. cbn [snd]. split; cbn [entity_registry type_index].
    + rewrite keys_sset_present; [assumption | congruence].
    + intros ty ids cid0 Hi Hin. destruct (Hti _ _ _ Hi Hin) as [s0 [Hs0 Ht]].
      destruct (String.string_dec cid cid0) as [->|Hne].
      * rewrite sget_sset_same. eexists. split; eauto.
        rewrite Hs in Hs0. inversion Hs0; subst. reflexivity.
      * rewrite sget_sset_other by assumption. eauto.
  - rewrite add_entity_mints by assumption. unfold Dedup.mint in *.
    cbn [fst snd] in *. unfold Dict.mem in Hn.
    set (m := Dedup.generate_canonical_id _ _) in *.
    destruct (sget (entity_registry d) m) eqn:Em; [discriminate|].
    split; cbn [entity_registry type_index].
    + rewrite keys_sset_absent by assumption.
      apply NoDup_app; [assumption | repeat constructor; intros [] | ].
      intros a Ha [<-|[]]. now apply sget_none_keys in Em.
    + intros ty ids cid0 Hi Hin.
      destruct (index_add_lookup _ _ _ _ _ _ Hi Hin) as [[-> ->]|[ids' [Hi' Hin']]].
      * rewrite sget_sset_same. eauto.
      * destruct (Hti _ _ _ Hi' Hin') as [s0 [Hs0 Ht]].
        rewrite sget_sset_other; [eauto | congruence].
Qed.

Lemma add_entity_type d e :
  registry_sound d ->
  exists signature,
    sget (entity_registry (snd (Dedup.add_entity d e))) (fst (Dedup.add_entity d e))
    = Some signature
    /\ entity_type signature = Ent.get_type e "".
Proof.
  intros Hs. destruct (Dedup.best_match d e) as [[cid c]|] eqn:B.
  - destruct (add_entity_merges _ _ _ _ B) as [s [Hg ->]]. cbn [fst snd].
    unfold Dedup.with_registry. cbn [entity_registry].
    rewrite sget_sset_same. eexists. split; eauto.
    apply best_match_some in B. destruct B as [_ [Hin _]].
    destruct (candidates_same_type _ _ _ _ Hs Hin) as [s' [Hg' Ht]].
    rewrite Hg in Hg'. inversion Hg'; subst. exact Ht.
  - rewrite add_entity_mints by assumption.
    rewrite mint_registry_entry. eauto.
Qed.

Lemma add_entity_keeps_type d e cid signature :
  sget (entity_registry d) cid = Some signature ->
  no_remint d [e] = true ->
  exists signature',
    sget (entity_registry (snd (Dedup.add_entity d e))) cid = Some signature'
    /\ entity_type signature' = entity_type signature.
Proof.
  intros Hs Hn. cbn [no_remint] in Hn. rewrite andb_true_r in Hn.
  destruct (Dedup.best_match d e) as [[cid' c]|] eqn:B.
  - destruct (add_entity_merges _ _ _ _ B) as [s' [Hs' ->]]. cbn [snd].
    unfold Dedup.with_registry. cbn [entity_registry].
    destruct (String.string_dec cid' cid) as [->|Hne].
    + rewrite sget_sset_same. eexists. split; eauto.
      rewrite Hs in Hs'. now inversion Hs'.
    + rewrite sget_sset_other by assumption. eauto.
  - rewrite add_entity_mints by assumption.
    unfold Dedup.mint in *. cbn [fst snd entity_registry] in *.
    set (m := Dedup.generate_canonical_id _ _) in *.
    destruct (String.string_dec m cid) as [Heq|Hne].
    + rewrite Heq in Hn. unfold Dict.mem in Hn. now rewrite Hs in Hn.
    + rewrite sget_sset_other by assumption. eauto.
Qed.

Lemma add_all_keeps_type entities : forall d cid signature,
  sget (entity_registry d) cid = Some signature ->
  no_remint d entities = true ->
  exists signature',
    sget (entity_registry (snd (Dedup.add_all d entities))) cid = Some signature'
    /\ entity_type signature' = entity_type signature.
Proof.
  induction entities as [|e rest IH]; intros d cid signature Hs Hn.
  - cbn. eauto.
  - rewrite add_all_cons. cbn [snd].
    cbn [no_remint] in Hn. apply andb_true_iff in Hn. destruct Hn as [Hn1 Hn2].
    destruct (add_entity_keeps_type d e cid signature Hs) as [s' [Hs' Ht]].
    { cbn [no_remint]. now rewrite Hn1. }
    destruct (IH _ _ _ Hs' Hn2) as [s'' [Hs'' Ht']].
    exists s''. split; auto. congruence.
Qed.

(** Outside the re-minting of an id, the type restriction holds: in a run
    in which no mint assigns a canonical id the registry already holds,
    every observation has the entity type of the canonical entity it was
    resolved to, so observations of different types never share one. *)
Lemma resolved_type_without_remint (entities : list Entity) :
  forall d,
  registry_sound d ->
  no_remint d entities = true ->
  forall i e cid,
  nth_error entities i = Some e ->
  nth_error (fst (Dedup.add_all d entities)) i = Some cid ->
  exists signature,
    sget (entity_registry (snd (Dedup.add_all d entities))) cid = Some signature
    /\ entity_type signature = Ent.get_type e "".
Proof.
  induction entities as [|e0 rest IH]; intros d Hs Hn i e cid He Hc.
  - destruct i; discriminate.
  - rewrite add_all_cons in *. cbn [fst snd] in *.
    cbn [no_remint] in Hn. apply andb_true_iff in Hn. destruct Hn as [Hn1 Hn2].
    destruct i as [|i]; cbn [nth_error] in *.
    + inversion He; subst e0. inversion Hc; subst cid.
      destruct (add_entity_type d e Hs) as [s [Hg Ht]].
      destruct (add_all_keeps_type rest _ _ _ Hg Hn2) as [s' [Hg' Ht']].
      exists s'. split; auto. congruence.
    + eapply IH; eauto. apply registry_sound_step; auto.
      cbn [no_remint]. now rewrite Hn1.
Qed.

(** C6, evaluated on a failing input. An entity of type ['Unknown'] and an
    entity without ['@type'] (type [''] for matching, ['Unknown'] for the id)
    get the same canonical id; the mint of the second replaces the signature
    of the first but leaves the id filed under ['Unknown'] in the type index.
    The fuzzy strategy then proposes that entity, now of type [''], for an
    observation of type ['Unknown'], and [add_entity] merges the two. *)
Theorem untyped_mint_breaks_type_restriction :
  let d1 := snd (Dedup.add_entity default_dedup regen_unknown) in
  let d2 := snd (Dedup.add_entity d1 regen_untyped) in
  let cid := fst (Dedup.add_entity default_dedup regen_unknown) in
  fst (Dedup.add_entity d1 regen_untyped) = cid
  /\ option_map entity_type (sget (entity_registry d2) cid) = Some ""
  /\ Ent.get_type regen_unknown "" = "Unknown"
  /\ Dedup.exact_matches d2 "regen network" "Unknown" = []
  /\ Dedup.fuzzy_matches d2 "Regen Network" "Unknown" = [(cid, 1)]
  /\ Dedup.find_matches d2 regen_unknown = [(cid, 1)]
  /\ fst (Dedup.add_entity d2 regen_unknown) = cid
  /\ no_remint default_dedup [regen_unknown; regen_untyped] = false.
Proof. vm_compute. repeat split. Qed.

(** ** The threshold *)

Lemma first_similar_lower d t1 t2 entity_name names c :
  (t1 <= t2)%Q ->
  Dedup.first_similar (with_threshold d t2) entity_name names = Some c ->
  exists c', Dedup.first_similar (with_threshold d t1) entity_name names = Some c'
             /\ (t1 <= c')%Q.
Proof.
  intros Hle. induction names as [|n names IH]; cbn [Dedup.first_similar]; [discriminate|].
  change (Dedup.calculate_similarity (with_threshold d t2) entity_name n)
    with (Dedup.calculate_similarity (with_threshold d t1) entity_name n).
  cbn [similarity_threshold with_threshold].
  set (s := Dedup.calculate_similarity (with_threshold d t1) entity_name n).
  destruct (Qle_bool t1 s) eqn:E1.
  - intros _. exists s. split; auto. now apply Qle_bool_iff.
  - destruct (Qle_bool t2 s) eqn:E2; [|exact IH].
    apply Qle_bool_iff in E2.
    assert (H : (t1 <= s)%Q) by (eapply Qle_trans; eauto).
    apply Qle_bool_iff in H. congruence.
Qed.

Lemma first_similar_threshold d entity_name names c :
  Dedup.first_similar d entity_name names = Some c -> (similarity_threshold d <= c)%Q.
Proof.
  induction names as [|n names IH]; cbn [Dedup.first_similar]; [discriminate|].
  destruct (Qle_bool _ _) eqn:E; auto.
  intros H. inversion H; subst. now apply Qle_bool_iff.
Qed.

Lemma candidates_lower d t1 t2 e cid c :
  (t1 <= t2)%Q ->
  In (cid, c) (Dedup.candidates (with_threshold d t2) e) -> (t2 <= c)%Q ->
  exists c', In (cid, c') (Dedup.candidates (with_threshold d t1) e) /\ (t1 <= c')%Q.
Proof.
  intros Hle. unfold Dedup.candidates. rewrite !in_app_iff. intros [H|[H|H]] Hc.
  - exists c. rewrite !in_app_iff. split; [now left | eapply Qle_trans; eauto].
  - unfold Dedup.fuzzy_matches in H.
    change (type_index (with_threshold d t2)) with (type_index d) in H.
    change (entity_registry (with_threshold d t2)) with (entity_registry d) in H.
    destruct (sget (type_index d) (Ent.get_type e "")) as [ids|] eqn:Ei; [|destruct H].
    apply in_flat_map in H. destruct H as [i [Hi Hx]].
    destruct (sget (entity_registry d) i) as [s|] eqn:Es; [|destruct Hx].
    destruct (Dedup.first_similar (with_threshold d t2) _ _) as [c2|] eqn:F; [|destruct Hx].
    destruct Hx as [Hx|[]]. inversion Hx; subst.
    destruct (first_similar_lower _ _ _ _ _ _ Hle F) as [c' [F' Hc']].
    exists c'. rewrite !in_app_iff. split; auto. right. left.
    unfold Dedup.fuzzy_matches.
    change (type_index (with_threshold d t1)) with (type_index d).
    change (entity_registry (with_threshold d t1)) with (entity_registry d).
    rewrite Ei. apply in_flat_map. exists cid. split; auto.
    rewrite Es, F'. now left.
  - exists c. rewrite !in_app_iff. split; [now right; right | eapply Qle_trans; eauto].
Qed.

(** C9, amended. On one and the same registry, an observation that is
    merged under a threshold is merged under every lower threshold: raising
    the threshold never turns a mint into a merge. *)
Theorem merge_survives_lower_threshold (d : EntityDeduplicator) (t1 t2 : Q) (e : Entity) :
  (t1 <= t2)%Q ->
  Dedup.merges (with_threshold d t2) e = true ->
  Dedup.merges (with_threshold d t1) e = true.
Proof.
  unfold Dedup.merges. intros Hle H2.
  destruct (Dedup.best_match (with_threshold d t2) e) as [[cid c]|] eqn:B; [|discriminate].
  apply best_match_some in B. destruct B as [Hne [Hin Hc]].
  cbn [similarity_threshold with_threshold] in Hc.
  destruct (candidates_lower _ _ _ _ _ _ Hle Hin Hc) as [c' [Hin' Hc']].
  destruct (Dedup.best_match (with_threshold d t1) e) eqn:H1; auto.
  apply best_match_none_iff in H1. destruct H1 as [H1|H1]; [congruence|].
  destruct (H1 _ _ Hin' Hc').
Qed.

(** C9 fails as stated: over [contact_run] the threshold 0.5 gives one
    merge and the threshold 0.85 gives two. Under 0.5 the second record is
    merged into the first by name and its contact details are dropped
    (first write wins), so the last two records find nothing to match; under
    0.85 the second record is minted and the last two are merged into it by
    e-mail and website. *)
Lemma higher_threshold_more_merges :
  Qle_bool 0.5 0.85 = true
  /\ Dedup.count_merges (Dedup.init 0.5 Tfidf.cosine) contact_run = 1%nat
  /\ Dedup.count_merges (Dedup.init 0.85 Tfidf.cosine) contact_run = 2%nat
  /\ no_remint (Dedup.init 0.5 Tfidf.cosine) contact_run = true
  /\ no_remint (Dedup.init 0.85 Tfidf.cosine) contact_run = true.
Proof. vm_compute. repeat split. Qed.

Example higher_threshold_more_merges_regen :
  Dedup.count_merges (Dedup.init 0.5 Tfidf.cosine) regen_contact_run = 1%nat
  /\ Dedup.count_merges (Dedup.init 0.85 Tfidf.cosine) regen_contact_run = 2%nat.
Proof. vm_compute. repeat split. Qed.

Lemma merge_survives_lower_threshold_witness :
  Dedup.merges
    (with_threshold (snd (Dedup.add_all default_dedup (firstn 2 contact_run))) 0.5)
    (entity_of "regen:Agent" "x" [("email", VAtom (AStr "two@example.org"))])
  = true.
Proof.
  apply (merge_survives_lower_threshold
           (snd (Dedup.add_all default_dedup (firstn 2 contact_run))) 0.5 0.85).
  - vm_compute. discriminate.
  - vm_compute. reflexivity.
Defined.

(** In [contact_run] under the default threshold the third record, named
    "x", is merged by e-mail into the entity minted for "ab cd", and is
    covered there as an alias. *)
Lemma names_covered_without_remint_witness :
  exists signature,
    sget (entity_registry (snd (Dedup.add_all default_dedup contact_run)))
         (nth 2 (fst (Dedup.add_all default_dedup contact_run)) "")
    = Some signature
    /\ covers signature "x".
Proof.
  apply (names_covered_without_remint contact_run default_dedup) with (i := 2%nat)
    (e := entity_of "regen:Agent" "x" [("email", VAtom (AStr "two@example.org"))]);
    vm_compute; reflexivity.
Defined.

(** The example of the source file: three records, one canonical entity,
    whose alias set stays empty because the three names have one normal
    form. *)
Example source_example_resolved :
  fst (Dedup.add_all default_dedup source_example)
  = [ "entity:regen:agent:b5d36f134f19"; "entity:regen:agent:b5d36f134f19";
      "entity:regen:agent:b5d36f134f19" ]
  /\ map (fun item =>
            (canonical_name (snd item), aliases (snd item),
             map fst (properties (snd item)), source_documents (snd item),
             Qeq_bool (confidence (snd item)) 1))
         (entity_registry (snd (Dedup.add_all default_dedup source_example)))
     = [ ("Regen Network", [],
          ["website"; "foundIn"; "email"; "description"],
          [VAtom (AStr "doc1.md"); VAtom (AStr "doc2.md"); VAtom (AStr "doc3.md")],
          true) ].
Proof. vm_compute. split; reflexivity. Qed.

Example contact_run_aliases :
  map (fun item => (canonical_name (snd item), aliases (snd item)))
      (entity_registry (snd (Dedup.add_all default_dedup contact_run)))
  = [("ab", []); ("ab cd", ["x"; "y"])].
Proof. vm_compute. reflexivity. Qed.

(** ** Normalization *)

Module NormalizerFacts.
Import PyStr Normalizer NormalForm.

Lemma lower_char_idempotent c : lower_char (lower_char c) = lower_char c.
Proof. destruct c as [[] [] [] [] [] [] [] []]; reflexivity. Qed.

Lemma tidy_from_weaken l : tidy_from false l = true -> tidy_from true l = true.
Proof.
  destruct l as [|c r]; cbn [tidy_from]; [discriminate|].
  destruct (is_space c); [discriminate | auto].
Qed.

Lemma tidy_from_nonempty l : tidy_from false l = true -> l <> [].
Proof. destruct l; [discriminate | congruence]. Qed.

Lemma tidy_from_head l c r :
  tidy_from false l = true -> l = c :: r -> is_space c = false.
Proof.
  intros H ->. cbn [tidy_from] in H. destruct (is_space c); [discriminate | auto].
Qed.

Lemma split_ws_words l : Forall (fun w => w <> []) (split_ws l).
Proof.
  induction l as [|c r IH]; cbn [split_ws]; [constructor|].
  destruct (is_space c); auto.
  destruct r as [|c' r']; [repeat constructor; congruence|].
  destruct (is_space c').
  - constructor; [congruence | exact IH].
  - destruct (split_ws (c' :: r')) as [|w ws]; [repeat constructor; congruence|].
    inversion IH; subst. constructor; [congruence | assumption].
Qed.

Lemma join_nil_words sep ws :
  Forall (fun w => w <> []) ws -> join sep ws = [] -> ws = [].
Proof.
  destruct ws as [|w ws]; auto. intros H Hj. inversion H; subst.
  exfalso. cbn [join] in Hj. destruct ws; [congruence|].
  destruct w; [congruence | discriminate].
Qed.

Lemma collapse_nil l : collapse l = [] -> split_ws l = [].
Proof. apply join_nil_words, split_ws_words. Qed.

Lemma join_cons_cons sep c w ws : join sep ((c :: w) :: ws) = c :: join sep (w :: ws).
Proof. destruct ws; reflexivity. Qed.

(** The recursion [collapse] obeys. *)
Lemma collapse_space c r : is_space c = true -> collapse (c :: r) = collapse r.
Proof. unfold collapse. cbn [split_ws]. now intros ->. Qed.

Lemma collapse_last c : is_space c = false -> collapse [c] = [c].
Proof. unfold collapse. cbn [split_ws]. now intros ->. Qed.

Lemma collapse_word_end c c' r :
  is_space c = false -> is_space c' = true ->
  collapse (c :: c' :: r)
  = match collapse (c' :: r) with [] => [c] | rest => c :: space :: rest end.
Proof.
  intros Hc Hc'. rewrite (collapse_space c' r Hc').
  pose proof (split_ws_words r) as Hw.
  unfold collapse. cbn [split_ws]. rewrite Hc, Hc'.
  destruct (split_ws r) as [|w ws]; [reflexivity|].
  inversion Hw; subst.
  change (join [space] ([c] :: w :: ws)) with (c :: space :: join [space] (w :: ws)).
  destruct (join [space] (w :: ws)) eqn:E; auto.
  apply join_nil_words in E; [discriminate | assumption].
Qed.

Lemma split_ws_unfold c c' r :
  split_ws (c :: c' :: r)
  = if is_space c then split_ws (c' :: r)
    else if is_space c' then [c] :: split_ws (c' :: r)
    else match split_ws (c' :: r) with
         | w :: ws => (c :: w) :: ws
         | [] => [[c]]
         end.
Proof. reflexivity. Qed.

Lemma split_ws_nonempty c r : is_space c = false -> split_ws (c :: r) <> [].
Proof.
  intros Hc. destruct r as [|c' r]; [cbn [split_ws]; rewrite Hc; congruence|].
  rewrite split_ws_unfold, Hc.
  destruct (is_space c'); [congruence|].
  destruct (split_ws (c' :: r)); congruence.
Qed.

Lemma collapse_word_inner c c' r :
  is_space c = false -> is_space c' = false ->
  collapse (c :: c' :: r) = c :: collapse (c' :: r).
Proof.
  intros Hc Hc'. unfold collapse. rewrite split_ws_unfold, Hc, Hc'.
  pose proof (split_ws_nonempty c' r Hc') as H.
  destruct (split_ws (c' :: r)) as [|w ws]; [congruence|].
  apply join_cons_cons.
Qed.

(** Collapsing settled characters gives a tidy name. *)
Lemma collapse_tidy l :
  Forall (fun c => settled c = true) l ->
  collapse l = [] \/ tidy_from false (collapse l) = true.
Proof.
  induction l as [|c r IH]; intros H; [now left|].
  inversion H as [|? ? Hc Hr]; subst. specialize (IH Hr).
  destruct (is_space c) eqn:Ec.
  - now rewrite collapse_space.
  - right. destruct r as [|c' r'].
    + rewrite collapse_last by assumption. cbn [tidy_from]. now rewrite Ec, Hc.
    + destruct (is_space c') eqn:Ec'.
      * rewrite collapse_word_end by assumption.
        destruct (collapse (c' :: r')) as [|x rest] eqn:E.
        -- cbn [tidy_from]. now rewrite Ec, Hc.
        -- destruct IH as [IH|IH]; [discriminate|].
           cbn [tidy_from]. rewrite Ec, Hc. cbn [andb].
           change (is_space space) with true. cbn [andb].
           change (Ascii.eqb space space) with true. exact IH.
      * rewrite collapse_word_inner by assumption.
        destruct IH as [IH|IH].
        -- apply collapse_nil in IH. exfalso. now apply (split_ws_nonempty c' r').
        -- cbn [tidy_from]. rewrite Ec, Hc. cbn [andb]. now apply tidy_from_weaken.
Qed.

(** A tidy name is left alone by each step of the normalization. *)
Lemma tidy_from_lower b l : tidy_from b l = true -> lower l = l.
Proof.
  revert b. induction l as [|c r IH]; intros b H; [reflexivity|].
  cbn [tidy_from] in H. unfold lower in *. cbn [map].
  destruct (is_space c) eqn:Ec.
  - apply andb_true_iff in H. destruct H as [H Hr].
    apply andb_true_iff in H. destruct H as [_ Hs].
    apply Ascii.eqb_eq in Hs. subst c. f_equal. eauto.
  - apply andb_true_iff in H. destruct H as [Hc Hr].
    unfold settled in Hc. apply andb_true_iff in Hc. destruct Hc as [Hl _].
    apply Ascii.eqb_eq in Hl. rewrite Hl. f_equal. eauto.
Qed.

Lemma tidy_from_filter b l : tidy_from b l = true -> filter keep_char l = l.
Proof.
  revert b. induction l as [|c r IH]; intros b H; [reflexivity|].
  cbn [tidy_from] in H. cbn [filter].
  destruct (is_space c) eqn:Ec.
  - apply andb_true_iff in H. destruct H as [_ Hr].
    unfold keep_char. rewrite Ec, orb_true_r. cbn [orb]. f_equal. eauto.
  - apply andb_true_iff in H. destruct H as [Hc Hr].
    unfold settled in Hc. apply andb_true_iff in Hc. destruct Hc as [_ Hk].
    rewrite Hk. f_equal. eauto.
Qed.

Lemma tidy_from_collapse l : forall b,
  tidy_from b l = true ->
  collapse l = match l with
               | c :: r => if is_space c then r else l
               | [] => []
               end.
Proof.
  induction l as [|c r IH]; intros b H; [reflexivity|].
  cbn [tidy_from] in H. destruct (is_space c) eqn:Ec.
  - apply andb_true_iff in H. destruct H as [_ Hr].
    rewrite collapse_space by assumption. rewrite (IH _ Hr).
    destruct r as [|c' r']; auto.
    now rewrite (tidy_from_head _ _ _ Hr eq_refl).
  - apply andb_true_iff in H. destruct H as [Hc Hr].
    destruct r as [|c' r']; [now apply collapse_last|].
    specialize (IH _ Hr). destruct (is_space c') eqn:Ec'.
    + rewrite collapse_word_end by assumption. rewrite IH.
      cbn [tidy_from] in Hr. rewrite Ec' in Hr.
      apply andb_true_iff in Hr. destruct Hr as [Hs Hr'].
      apply Ascii.eqb_eq in Hs. subst c'.
      destruct r'; [discriminate | reflexivity].
    + rewrite collapse_word_inner by assumption. now rewrite IH.
Qed.

Lemma tidy_collapse l : tidy l = true -> collapse l = l.
Proof.
  destruct l as [|c r]; [reflexivity|]. unfold tidy. intros H.
  rewrite (tidy_from_collapse _ _ H).
  now rewrite (tidy_from_head _ _ _ H eq_refl).
Qed.

Lemma tidy_from_last b p c : tidy_from b (p ++ [c]) = true -> is_space c = false.
Proof.
  revert b. induction p as [|x p IH]; intros b H; cbn [app tidy_from] in H.
  - destruct (is_space c); auto. now rewrite andb_false_r in H.
  - destruct (is_space x); apply andb_true_iff in H; destruct H as [_ H]; eauto.
Qed.

Lemma tidy_strip l : tidy l = true -> strip l = l.
Proof.
  destruct l as [|c r]; [reflexivity|]. unfold tidy. intros H.
  unfold strip. cbn [lstrip]. rewrite (tidy_from_head _ _ _ H eq_refl).
  unfold rstrip.
  destruct (rev (c :: r)) as [|x p] eqn:E.
  - apply (f_equal (@rev ascii)) in E. rewrite rev_involutive in E. discriminate.
  - assert (Hl : c :: r = rev p ++ [x]).
    { rewrite <- (rev_involutive (c :: r)), E. reflexivity. }
    rewrite Hl in H. apply tidy_from_last in H.
    cbn [lstrip]. rewrite H. rewrite <- E. apply rev_involutive.
Qed.

(** Cutting a tidy name in front of a blank leaves a tidy name. *)
Lemma tidy_from_prefix p w : forall b,
  tidy_from b (p ++ space :: w) = true -> tidy_from b p = true.
Proof.
  induction p as [|c p IH]; intros b H; cbn [app tidy_from] in *.
  - change (is_space space) with true in H. cbv iota in H.
    apply andb_true_iff in H. destruct H as [H _].
    apply andb_true_iff in H. tauto.
  - destruct (is_space c).
    + apply andb_true_iff in H. destruct H as [H1 H2]. rewrite H1. cbn [andb]. eauto.
    + apply andb_true_iff in H. destruct H as [H1 H2]. rewrite H1. cbn [andb]. eauto.
Qed.

Lemma chars_eqb_eq a b : chars_eqb a b = true -> a = b.
Proof.
  revert b. induction a as [|x a IH]; destruct b as [|y b]; cbn [chars_eqb];
    try discriminate; auto.
  intros H. apply andb_true_iff in H. destruct H as [Hx H].
  apply Ascii.eqb_eq in Hx. subst. f_equal. auto.
Qed.

Lemma endswith_split l suffix :
  endswith l suffix = true -> l = drop_last (List.length suffix) l ++ suffix.
Proof.
  unfold endswith, drop_last. intros H. apply andb_true_iff in H. destruct H as [_ H].
  apply chars_eqb_eq in H.
  rewrite <- (firstn_skipn (List.length l - List.length suffix) l) at 1.
  now rewrite H.
Qed.

Lemma strip_suffix_tidy l w :
  tidy l = true -> tidy (strip_suffix l (space :: w)) = true.
Proof.
  intros H. unfold strip_suffix. destruct (endswith l (space :: w)) eqn:E; auto.
  apply endswith_split in E.
  set (p := drop_last (List.length (space :: w)) l) in *.
  destruct p as [|c p']; [reflexivity|].
  unfold tidy. rewrite E in H. cbn [app] in H. unfold tidy in H.
  change (c :: p' ++ space :: w) with ((c :: p') ++ space :: w) in H.
  now apply tidy_from_prefix in H.
Qed.

Lemma suffixes_tidy l : tidy l = true -> tidy (fold_left strip_suffix suffixes l) = true.
Proof.
  intros H. unfold suffixes. cbn [map of_string list_ascii_of_string fold_left].
  repeat apply strip_suffix_tidy. exact H.
Qed.

Lemma suffixes_absent sufs l :
  existsb (endswith l) sufs = false -> fold_left strip_suffix sufs l = l.
Proof.
  induction sufs as [|s sufs IH]; cbn [existsb fold_left]; auto.
  intros H. apply orb_false_iff in H. destruct H as [Hs H].
  unfold strip_suffix at 2. rewrite Hs. auto.
Qed.

Lemma filter_lower_settled l :
  Forall (fun c => settled c = true) (filter keep_char (lower l)).
Proof.
  apply Forall_forall. intros c Hc. apply filter_In in Hc. destruct Hc as [Hc Hk].
  unfold lower in Hc. apply in_map_iff in Hc. destruct Hc as [x [<- _]].
  unfold settled. rewrite Hk, lower_char_idempotent.
  now rewrite (proj2 (Ascii.eqb_eq _ _) eq_refl).
Qed.

(** Every normalized name is tidy. *)
Lemma normalize_chars_tidy l : tidy (normalize_chars l) = true.
Proof.
  unfold normalize_chars.
  assert (H : tidy (join [space] (split_ws (filter keep_char (lower l)))) = true).
  { destruct (collapse_tidy _ (filter_lower_settled l)) as [H|H];
      unfold collapse in H.
    - now rewrite H.
    - unfold tidy. now destruct (join _ _). }
  apply suffixes_tidy in H. now rewrite tidy_strip.
Qed.

Lemma normalize_chars_fixed l :
  tidy l = true -> existsb (endswith l) suffixes = false -> normalize_chars l = l.
Proof.
  intros Ht Hs. unfold normalize_chars.
  assert (H : lower l = l /\ filter keep_char l = l).
  { destruct l as [|c r]; [now split|]. unfold tidy in Ht.
    split; [eapply tidy_from_lower | eapply tidy_from_filter]; eauto. }
  destruct H as [-> ->].
  fold (collapse l). rewrite tidy_collapse by assumption.
  rewrite suffixes_absent by assumption. now apply tidy_strip.
Qed.

End NormalizerFacts.

(** C3 fails as stated: the loop tries each suffix once, in the order of
    the list, so a suffix uncovered by the removal of a later one stays. *)
Lemma normalize_twice_differs :
  Normalizer.normalize_name "a inc inc" = "a inc"
  /\ Normalizer.normalize_name (Normalizer.normalize_name "a inc inc") = "a"
  /\ Normalizer.normalize_name "Acme Inc Ltd" = "acme inc"
  /\ Normalizer.normalize_name (Normalizer.normalize_name "Acme Inc Ltd") = "acme".
Proof. vm_compute. repeat split. Qed.

(** C3, amended. [normalize_name] is a total function, and normalizing a
    normalized name changes nothing provided the normalized name does not
    itself end in one of the legal suffixes. *)
Theorem normalize_idempotent_without_suffix (name : string) :
  NormalForm.has_suffix (Normalizer.normalize_name name) = false ->
  Normalizer.normalize_name (Normalizer.normalize_name name)
  = Normalizer.normalize_name name.
Proof.
  unfold NormalForm.has_suffix, Normalizer.normalize_name, PyStr.of_string,
    PyStr.to_string.
  rewrite list_ascii_of_string_of_list_ascii. intros H.
  rewrite NormalizerFacts.normalize_chars_fixed; auto.
  apply NormalizerFacts.normalize_chars_tidy.
Qed.

Lemma normalize_idempotent_without_suffix_witness :
  Normalizer.normalize_name (Normalizer.normalize_name "Regen  Network, Inc.")
  = Normalizer.normalize_name "Regen  Network, Inc.".
Proof.
  apply (normalize_idempotent_without_suffix "Regen  Network, Inc.").
  vm_compute. reflexivity.
Defined.

(** ** Similarity *)

Section CharSets.









End CharSets.







(** ** Replay of the transformation log *)

Module ReplayFacts.
Import Replay.

Arguments Prov.generate_cid : simpl never.
Arguments Json.dumps : simpl never.

Lemma strings_map_JStr ids : strings (map JStr ids) = ids.
Proof. induction ids as [|i ids IH]; cbn [map strings]; [reflexivity | now rewrite IH]. Qed.

Lemma sget_store_view store k :
  sget (store_view store) k = option_map canonical_view (sget store k).
Proof.
  induction store as [|[k' c] store IH]; cbn [store_view map Dict.get fst snd]; auto.
  destruct (String.eqb k' k); auto.
Qed.

Lemma store_view_sset store k c :
  store_view (sset store k c) = sset (store_view store) k (canonical_view c).
Proof.
  induction store as [|[k' c'] store IH]; cbn [store_view map Dict.set fst snd]; auto.
  destruct (String.eqb k' k); cbn [map fst snd]; auto.
  f_equal. exact IH.
Qed.

Lemma absorb_view c1 c2 obs :
  canonical_view c1 = canonical_view c2 ->
  canonical_view (Prov.absorb c1 obs) = canonical_view (Prov.absorb c2 obs).
Proof.
  unfold canonical_view, Prov.absorb.
  cbn [CanonicalEntity.primary_name CanonicalEntity.entity_type CanonicalEntity.all_names
       CanonicalEntity.merged_properties CanonicalEntity.observations].
  intros H. inversion H as [[H1 H2 H3 H4 H5]].
  now rewrite !map_app, H3, H4, H5.
Qed.

Lemma absorb_all_view obs : forall c1 c2,
  canonical_view c1 = canonical_view c2 ->
  canonical_view (fold_left Prov.absorb obs c1) = canonical_view (fold_left Prov.absorb obs c2).
Proof.
  induction obs as [|o obs IH]; intros c1 c2 H; cbn [fold_left]; auto.
  apply IH. now apply absorb_view.
Qed.

Lemma close_view c resolution now :
  canonical_view (Prov.close c resolution now) = canonical_view c.
Proof. reflexivity. Qed.

(** The fields the replay reads of a stored record. *)
Lemma stored_record_fields (t : list (string * json)) k :
  k <> "cid" ->
  sget (Prov.with_cid t) k = sget t k.
Proof. intros H. apply sget_sset_other. congruence. Qed.

Lemma replay_app observations log t :
  replay observations (log ++ [t]) = replay_record observations (replay observations log) t.
Proof. unfold replay. now rewrite fold_left_app. Qed.

Lemma replay_extract observations store (observation : EntityObservation.t) :
  replay_record observations store
    (Prov.with_cid (Prov.extract_transformation observation))
  = store.
Proof.
  unfold replay_record. rewrite !stored_record_fields by discriminate. reflexivity.
Qed.

Lemma replay_resolve observations store (resolution : EntityResolution.t) :
  replay_record observations store
    (Prov.with_cid (Prov.resolve_transformation resolution))
  = match Prov.lookup_all observations (EntityResolution.observation_ids resolution) with
    | Prov.Ok (first_obs :: rest) =>
        let c := match sget store (EntityResolution.canonical_id resolution) with
                 | Some c => c
                 | None => start (EntityResolution.canonical_id resolution) first_obs
                 end in
        sset store (EntityResolution.canonical_id resolution)
             (fold_left Prov.absorb (first_obs :: rest) c)
    | _ => store
    end.
Proof.
  unfold replay_record, record_ids. rewrite !stored_record_fields by discriminate.
  cbn [Prov.resolve_transformation Dict.get String.eqb Ascii.eqb Bool.eqb].
  now rewrite strings_map_JStr.
Qed.

(** Lookups that agree on the ids of a record replay it alike. *)
Lemma lookup_all_ext obs1 obs2 ids :
  (forall i, In i ids -> sget obs1 i = sget obs2 i) ->
  Prov.lookup_all obs1 ids = Prov.lookup_all obs2 ids.
Proof.
  induction ids as [|i ids IH]; intros H; cbn [Prov.lookup_all]; auto.
  rewrite (H i) by now left. rewrite IH; auto.
  intros j Hj. apply H. now right.
Qed.

Lemma replay_record_ext obs1 obs2 store t :
  (forall i, In i (record_ids t) -> sget obs1 i = sget obs2 i) ->
  replay_record obs1 store t = replay_record obs2 store t.
Proof.
  intros H. unfold replay_record. now rewrite (lookup_all_ext obs1 obs2 _ H).
Qed.

Lemma replay_ext obs1 obs2 log :
  (forall t i, In t log -> In i (record_ids t) -> sget obs1 i = sget obs2 i) ->
  replay obs1 log = replay obs2 log.
Proof.
  unfold replay. generalize (@nil (string * CanonicalEntity.t)).
  induction log as [|t log IH]; intros store H; cbn [fold_left]; auto.
  rewrite (replay_record_ext obs1 obs2); [|intros i Hi; apply (H t); auto; now left].
  apply IH. intros t' i Ht Hi. apply (H t'); auto. now right.
Qed.

Lemma lookup_all_present store ids obs :
  Prov.lookup_all store ids = Prov.Ok obs ->
  List.length obs = List.length ids /\ forall i, In i ids -> sget store i <> None.
Proof.
  revert obs. induction ids as [|i ids IH]; intros obs H; cbn [Prov.lookup_all] in H.
  - inversion H. split; [reflexivity | intros ? []].
  - destruct (sget store i) eqn:E; [|discriminate].
    destruct (Prov.lookup_all store ids) as [os|]; [|discriminate].
    inversion H; subst. destruct (IH os eq_refl) as [Hl Hp].
    split; [cbn [List.length]; now rewrite Hl|].
    intros j [<-|Hj]; [congruence | auto].
Qed.

Lemma replayed_init : replayed Prov.init.
Proof. split; [reflexivity | intros r i []]. Qed.

Lemma record_ids_extract (observation : EntityObservation.t) :
  record_ids
    (Prov.with_cid (Prov.extract_transformation observation))
  = [].
Proof. unfold record_ids. rewrite stored_record_fields by discriminate. reflexivity. Qed.

Lemma record_ids_resolve (resolution : EntityResolution.t) :
  record_ids
    (Prov.with_cid (Prov.resolve_transformation resolution))
  = EntityResolution.observation_ids resolution.
Proof.
  unfold record_ids. rewrite stored_record_fields by discriminate.
  cbn [Prov.resolve_transformation Dict.get String.eqb Ascii.eqb Bool.eqb].
  apply strings_map_JStr.
Qed.

Lemma replayed_record_observation t uuid now entity source_doc source_cid position method :
  replayed t ->
  smem (observations t) ("obs:" ++ uuid)%string = false ->
  replayed (snd (Prov.record_observation t uuid now entity source_doc source_cid
                                         position method)).
Proof.
  intros [Hv Hc] Hf.
  set (o := Prov.new_observation uuid now entity source_doc source_cid position method).
  assert (Hother : forall i, sget (observations t) i <> None ->
                             sget (sset (observations t) ("obs:" ++ uuid)%string o) i
                             = sget (observations t) i).
  { intros i Hi. apply sget_sset_other. intros <-.
    unfold Dict.mem in Hf. destruct (sget (observations t) _); congruence. }
  unfold replayed, Prov.record_observation, Prov.record_transformation.
  cbn [snd observations transformations canonical]. fold o.
  change (EntityObservation.observation_id o) with ("obs:" ++ uuid)%string.
  split.
  - rewrite replay_app, replay_extract. rewrite <- Hv. f_equal.
    apply replay_ext. intros r i Hr Hi. apply Hother. eauto.
  - intros r i Hr Hi. apply in_app_iff in Hr. destruct Hr as [Hr|[<-|[]]].
    + rewrite Hother; eauto.
    + rewrite record_ids_extract in Hi. destruct Hi.
Qed.

(** What a successful [create_canonical_entity] has done. *)
Lemma create_canonical_entity_ok t dr ids method cid t' :
  Prov.create_canonical_entity t dr ids method = Prov.Ok (cid, t') ->
  exists c first_obs rest,
    Prov.lookup_all (observations t) ids = Prov.Ok (first_obs :: rest)
    /\ ((Prov.find_existing t ids = Prov.Ok (Some cid) /\ sget (canonical t) cid = Some c)
        \/ (Prov.find_existing t ids = Prov.Ok None
            /\ cid = ("entity:" ++ Prov.uuid_canonical dr)%string
            /\ c = Prov.new_canonical dr first_obs))
    /\ observations t' = observations t
    /\ canonical t'
       = sset (canonical t) cid
              (Prov.close (fold_left Prov.absorb (first_obs :: rest) c)
                          (Prov.new_resolution dr cid ids method)
                          (Prov.now_last_updated dr))
    /\ transformations t'
       = transformations t
         ++ [Prov.with_cid (Prov.resolve_transformation
                              (Prov.new_resolution dr cid ids method))].
Proof.
  unfold Prov.create_canonical_entity.
  destruct ids as [|first_id more]; [discriminate|].
  destruct (Prov.find_existing t (first_id :: more)) as [existing|] eqn:Ef; [|discriminate].
  cbn [Prov.lookup_all].
  destruct existing as [existing|].
  - destruct (sget (canonical t) existing) as [c|] eqn:Ec; [|discriminate].
    destruct (sget (observations t) first_id) as [o|]; [|discriminate].
    destruct (Prov.lookup_all (observations t) more) as [os|]; [|discriminate].
    intros H. inversion H; subst. exists c, o, os.
    repeat split; auto.
  - destruct (sget (observations t) first_id) as [o|]; [|discriminate].
    destruct (Prov.lookup_all (observations t) more) as [os|]; [|discriminate].
    intros H. inversion H; subst. exists (Prov.new_canonical dr o), o, os.
    repeat split; auto.
Qed.

Lemma replayed_create_canonical_entity t dr ids method cid t' :
  replayed t ->
  Prov.create_canonical_entity t dr ids method = Prov.Ok (cid, t') ->
  match Prov.find_existing t ids with
  | Prov.Ok (Some _) => true
  | _ => negb (smem (canonical t) ("entity:" ++ Prov.uuid_canonical dr)%string)
  end = true ->
  replayed t'.
Proof.
  intros [Hv Hc] H Hf.
  destruct (create_canonical_entity_ok _ _ _ _ _ _ H)
    as [c [o [os [Hl [Hcase [Ho [Hcan Hlog]]]]]]].
  unfold replayed. rewrite Ho, Hcan, Hlog. split.
  - rewrite replay_app, replay_resolve.
    cbn [Prov.new_resolution EntityResolution.observation_ids EntityResolution.canonical_id].
    rewrite Hl. cbv zeta. rewrite !store_view_sset, Hv. f_equal.
    rewrite close_view. apply absorb_all_view.
    pose proof (sget_store_view (replay (observations t) (transformations t)) cid) as Hr.
    rewrite Hv, sget_store_view in Hr.
    destruct Hcase as [[_ Hex]|[Hnone [-> ->]]].
    + rewrite Hex in Hr. cbn [option_map] in Hr.
      destruct (sget (replay (observations t) (transformations t)) cid);
        cbn [option_map] in Hr; [congruence | discriminate].
    + rewrite Hnone in Hf. unfold Dict.mem in Hf.
      destruct (sget (canonical t) _); [discriminate|]. cbn [option_map] in Hr.
      destruct (sget (replay (observations t) (transformations t)) _);
        [discriminate | reflexivity].
  - intros r i Hr Hi. apply in_app_iff in Hr. destruct Hr as [Hr|[<-|[]]]; eauto.
    rewrite record_ids_resolve in Hi.
    cbn [Prov.new_resolution EntityResolution.observation_ids] in Hi.
    now apply (lookup_all_present _ _ _ Hl).
Qed.

Lemma replayed_run calls : forall t t',
  replayed t ->
  Prov.run t calls = Prov.Ok t' ->
  fresh_draws t calls = true ->
  replayed t'.
Proof.
  induction calls as [|c calls IH]; intros t t' Hr Hrun Hf; cbn [Prov.run] in Hrun.
  - inversion Hrun; subst. exact Hr.
  - cbn [fresh_draws] in Hf. apply andb_true_iff in Hf. destruct Hf as [Hf1 Hf2].
    destruct (Prov.step t c) as [t1|] eqn:Es; [|discriminate].
    apply (IH t1 t'); auto.
    destruct c as [uuid now entity source_doc source_cid position method|dr ids method];
      cbn [Prov.step] in Es.
    + inversion Es; subst. apply replayed_record_observation; auto.
      now apply negb_true_iff.
    + destruct (Prov.create_canonical_entity t dr ids method) as [[cid t1']|] eqn:Ec;
        [|discriminate].
      inversion Es; subst. eapply replayed_create_canonical_entity; eauto.
Qed.

End ReplayFacts.

(** C2 fails as stated: the log carries ids, methods, times and confidences,
    but neither names nor properties. Two sessions that differ in the
    observed entity only (same document, same draws) write the same log and
    build different canonical stores, so no replay that reads the log alone
    can return the store of both. *)
Lemma same_log_different_stores :
  exists tA tB,
    Prov.run Prov.init [regen_observed; resolve_first] = Prov.Ok tA
    /\ Prov.run Prov.init [credits_observed; resolve_first] = Prov.Ok tB
    /\ transformations tA = transformations tB
    /\ Replay.store_view (canonical tA)
       = [("entity:a1b2c3d4e5f6",
           ("Regen Network", "regen:Agent", ["Regen Network"],
            [("website", VAtom (AStr "https://regen.network"))], ["obs:3f2a9c1b7d4e"]))]
    /\ Replay.store_view (canonical tB)
       = [("entity:a1b2c3d4e5f6",
           ("Carbon Credits", "regen:EcologicalAsset", ["Carbon Credits"],
            [("amount", VAtom (AStr "1000"))], ["obs:3f2a9c1b7d4e"]))].
Proof. eexists. eexists. vm_compute. repeat split. Qed.

(** C2, amended. For every session of [record_observation] and
    [create_canonical_entity] calls that raise nothing and draw new ids,
    replaying the [Resolve] records of the log, in the order of the log,
    against the observation store gives the canonical store back: the same
    canonical ids in the same order, each with the same primary name, type,
    known names, merged properties and observations. *)
Theorem replay_reproduces_canonical_store (calls : list Prov.call) (t : ProvenanceTracker) :
  Prov.run Prov.init calls = Prov.Ok t ->
  Replay.fresh_draws Prov.init calls = true ->
  Replay.store_view (Replay.replay (observations t) (transformations t))
  = Replay.store_view (canonical t).
Proof.
  intros Hrun Hf.
  exact (proj1 (ReplayFacts.replayed_run calls Prov.init t
                  ReplayFacts.replayed_init Hrun Hf)).
Qed.

Lemma replay_reproduces_canonical_store_witness :
  exists t,
    Prov.run Prov.init example_session = Prov.Ok t
    /\ Replay.store_view (Replay.replay (observations t) (transformations t))
       = Replay.store_view (canonical t).
Proof.
  eexists. split.
  - vm_compute. reflexivity.
  - apply (replay_reproduces_canonical_store example_session).
    + vm_compute. reflexivity.
    + vm_compute. reflexivity.
Defined.

Example example_session_store :
  match Prov.run Prov.init example_session with
  | Prov.Ok t => Replay.store_view (canonical t)
  | Prov.Raise _ => []
  end
  = [ ("entity:aaaaaaaaaaaa",
       ("Regen Network", "regen:Agent",
        ["Regen Network"; "Regen Network Inc."; "REGEN NETWORK"],
        [("website", VAtom (AStr "https://regen.network"));
         ("email", VAtom (AStr "info@regen.network"));
         ("description", VAtom (AStr "Ecological platform"))],
        ["obs:000000000001"; "obs:000000000003"; "obs:000000000005"]));
      ("entity:cccccccccccc",
       ("Carbon Credits", "regen:EcologicalAsset", ["Carbon Credits"],
        [("amount", VAtom (AStr "1000"))], ["obs:000000000002"])) ].
Proof. vm_compute. reflexivity. Qed.

(* ================================================================== *)
(** * Part IV. Further properties of the code *)
(* ================================================================== *)

(** ** The list of matches *)

Lemma unique_matches_fresh seen l cid c :
  In (cid, c) (Dedup.unique_matches seen l) -> ~ In cid seen.
Proof.
  revert seen. induction l as [|[cid0 c0] l IH]; cbn [Dedup.unique_matches]; intros seen H.
  - destruct H.
  - destruct (PySet.mem String.eqb cid0 seen) eqn:E; [eauto|].
    destruct H as [H|H].
    + inversion H; subst. intros Hin. apply set_mem_In in Hin. congruence.
    + apply IH in H. intros Hin. apply H. now right.
Qed.

Lemma unique_matches_NoDup seen l : NoDup (map fst (Dedup.unique_matches seen l)).
Proof.
  revert seen. induction l as [|[cid0 c0] l IH]; cbn [Dedup.unique_matches]; intros seen.
  - constructor.
  - destruct (PySet.mem String.eqb cid0 seen); [apply IH|].
    cbn [map fst]. constructor; [|apply IH].
    intros Hin. apply in_map_iff in Hin. destruct Hin as [[cid c] [Heq Hin]].
    cbn [fst] in Heq. subst cid.
    apply unique_matches_fresh in Hin. apply Hin. now left.
Qed.

Lemma unique_matches_descending seen l :
  descending l -> descending (Dedup.unique_matches seen l).
Proof.
  unfold descending. intros H. revert seen.
  induction H as [|[cid0 c0] l Hl IH Hh]; cbn [Dedup.unique_matches]; intros seen.
  - constructor.
  - destruct (PySet.mem String.eqb cid0 seen); [apply IH|].
    constructor; [apply IH|].
    rewrite Forall_forall in *. intros [cid c] Hin.
    apply Hh. eapply unique_matches_In; eauto.
Qed.

Lemma unique_matches_first seen l cid c :
  descending l -> In (cid, c) l -> ~ In cid seen ->
  exists c', In (cid, c') (Dedup.unique_matches seen l) /\ (c <= c')%Q.
Proof.
  unfold descending. intros H. revert seen.
  induction H as [|[cid0 c0] l Hl IH Hh]; cbn [Dedup.unique_matches]; intros seen Hin Hs.
  - destruct Hin.
  - destruct (PySet.mem String.eqb cid0 seen) eqn:E.
    + destruct Hin as [Hin|Hin]; [|now apply IH].
      inversion Hin; subst. apply set_mem_In in E. contradiction.
    + destruct (String.string_dec cid0 cid) as [->|Hne].
      * exists c0. split; [now left|].
        destruct Hin as [Hin|Hin]; [inversion Hin; apply Qle_refl|].
        rewrite Forall_forall in Hh. exact (Hh _ Hin).
      * destruct Hin as [Hin|Hin]; [inversion Hin; congruence|].
        destruct (IH (cid0 :: seen) Hin) as [c' [Hc' Hle]].
        { intros [Heq|Hs']; [congruence | contradiction]. }
        exists c'. split; [now right | assumption].
Qed.

(** X1. [find_matches] lists its matches by descending confidence, each
    canonical id once. *)
Theorem find_matches_sorted_unique (d : EntityDeduplicator) (e : Entity) :
  descending (Dedup.find_matches d e)
  /\ NoDup (map fst (Dedup.find_matches d e)).
Proof.
  unfold Dedup.find_matches. destruct (negb _).
  - split; constructor.
  - split.
    + apply unique_matches_descending, sort_desc_descending.
    + apply unique_matches_NoDup.
Qed.

(** X2. Every canonical id that one of the three strategies proposes for a
    named entity is among the matches, with a confidence at least as high as
    the proposal's: the closing loop keeps the best entry of each id. *)
Theorem find_matches_keeps_best (d : EntityDeduplicator) (e : Entity) (cid : string) (c : Q) :
  PyStr.nonempty (Ent.get_name e "") = true ->
  In (cid, c) (Dedup.candidates d e) ->
  exists c', In (cid, c') (Dedup.find_matches d e) /\ (c <= c')%Q.
Proof.
  intros Hne Hin. unfold Dedup.find_matches. rewrite Hne. cbn [negb].
  apply unique_matches_first; [apply sort_desc_descending | now apply sort_desc_In | intros []].
Qed.

Lemma find_matches_keeps_best_witness :
  exists c',
    In ("entity:regen:agent:b5d36f134f19", c')
       (Dedup.find_matches (snd (Dedup.add_all default_dedup (firstn 1 source_example)))
                           (nth 1 source_example regen_untyped))
    /\ (1 <= c')%Q.
Proof.
  apply (find_matches_keeps_best
           (snd (Dedup.add_all default_dedup (firstn 1 source_example)))
           (nth 1 source_example regen_untyped)).
  - reflexivity.
  - vm_compute. left. reflexivity.
Defined.

(** ** Runs of [add_entity]: the registry, its size and the confidences *)

Section DictSizes.
Context {V : Type}.
Implicit Types (r : list (string * V)) (k : string) (v : V).

Lemma In_sset r k v k' v' :
  In (k', v') (sset r k v) -> (k' = k /\ v' = v) \/ In (k', v') r.
Proof.
  induction r as [|[k0 v0] r IH]; cbn [Dict.set].
  - intros [H|[]]. inversion H; auto.
  - destruct (String.eqb k0 k) eqn:E.
    + apply String.eqb_eq in E. subst k0.
      intros [H|H]; [inversion H; auto | right; now right].
    + intros [H|H]; [right; now left|].
      destruct (IH H) as [?|?]; [auto | right; now right].
Qed.

Lemma sget_Some_In r k v : sget r k = Some v -> In (k, v) r.
Proof.
  induction r as [|[k0 v0] r IH]; cbn [Dict.get]; [discriminate|].
  destruct (String.eqb k0 k) eqn:E.
  - apply String.eqb_eq in E. subst. intros H. inversion H. now left.
  - intros H. right. auto.
Qed.

Lemma length_sset r k v :
  List.length (sset r k v)
  = (List.length r + if smem r k then 0 else 1)%nat.
Proof.
  unfold Dict.mem.
  induction r as [|[k0 v0] r IH]; cbn [Dict.set Dict.get List.length]; [reflexivity|].
  destruct (String.eqb k0 k); cbn [List.length]; [lia|].
  rewrite IH. destruct (sget r k); lia.
Qed.

Lemma smem_sset_keeps r k v k' : smem r k' = true -> smem (sset r k v) k' = true.
Proof.
  unfold Dict.mem. destruct (String.string_dec k k') as [->|Hne].
  - now rewrite sget_sset_same.
  - now rewrite sget_sset_other.
Qed.

Variable f : V -> nat.

Lemma sum_sset_present r k v old :
  sget r k = Some old ->
  (list_sum (map f (map snd (sset r k v))) + f old
   = list_sum (map f (map snd r)) + f v)%nat.
Proof.
  induction r as [|[k0 v0] r IH]; cbn [Dict.set Dict.get]; [discriminate|].
  destruct (String.eqb k0 k).
  - intros H. inversion H; subst. unfold list_sum in *. cbn [map snd fold_right] in *. lia.
  - intros H. specialize (IH H). unfold list_sum in *. cbn [map snd fold_right] in *. lia.
Qed.

Lemma sum_sset_absent r k v :
  sget r k = None ->
  list_sum (map f (map snd (sset r k v)))
  = (list_sum (map f (map snd r)) + f v)%nat.
Proof.
  induction r as [|[k0 v0] r IH]; cbn [Dict.set Dict.get].
  - intros _. unfold list_sum in *. cbn [map snd fold_right] in *. lia.
  - destruct (String.eqb k0 k); [discriminate|].
    intros H. specialize (IH H). unfold list_sum in *. cbn [map snd fold_right] in *. lia.
Qed.

End DictSizes.

Lemma add_entity_keeps_keys d e k :
  smem (entity_registry d) k = true ->
  smem (entity_registry (snd (Dedup.add_entity d e))) k = true.
Proof.
  intros H. destruct (Dedup.best_match d e) as [[cid c]|] eqn:B.
  - destruct (add_entity_merges _ _ _ _ B) as [s [_ ->]].
    cbn [snd Dedup.with_registry entity_registry]. now apply smem_sset_keeps.
  - rewrite add_entity_mints by assumption.
    unfold Dedup.mint. cbn [snd entity_registry]. now apply smem_sset_keeps.
Qed.

Lemma add_all_keeps_keys entities : forall d k,
  smem (entity_registry d) k = true ->
  smem (entity_registry (snd (Dedup.add_all d entities))) k = true.
Proof.
  induction entities as [|e rest IH]; intros d k H; [exact H|].
  rewrite add_all_cons. cbn [snd]. apply IH. now apply add_entity_keeps_keys.
Qed.

Lemma add_entity_returns_key d e :
  smem (entity_registry (snd (Dedup.add_entity d e))) (fst (Dedup.add_entity d e)) = true.
Proof.
  destruct (add_entity_covers d e) as [s [Hs _]]. unfold Dict.mem. now rewrite Hs.
Qed.

Lemma add_all_returns_keys entities : forall d cid,
  In cid (fst (Dedup.add_all d entities)) ->
  smem (entity_registry (snd (Dedup.add_all d entities))) cid = true.
Proof.
  induction entities as [|e rest IH]; intros d cid H.
  - destruct H.
  - rewrite add_all_cons in *. cbn [fst snd] in *.
    destruct H as [<-|H]; [|now apply IH].
    apply add_all_keeps_keys, add_entity_returns_key.
Qed.

(** X3. Every canonical id that a run of [add_entity] calls returns is a
    key of the registry at the end of the run, whatever was merged or minted
    in between: the ids a caller keeps stay valid. *)
Theorem returned_ids_stay_registered (t : Q) (v : string -> string -> option Q)
        (entities : list Entity) :
  Forall (fun cid =>
            smem (entity_registry (snd (Dedup.add_all (Dedup.init t v) entities))) cid = true)
         (fst (Dedup.add_all (Dedup.init t v) entities)).
Proof. apply Forall_forall. intros cid H. now apply add_all_returns_keys. Qed.

(** The aliases of all signatures of a registry, counted. *)
Lemma total_aliases_registry d :
  DedupReports.total_aliases (DedupReports.get_statistics d)
  = list_sum (map (fun sig => List.length (aliases sig)) (map snd (entity_registry d))).
Proof. reflexivity. Qed.

Lemma merges_best_match d e :
  Dedup.merges d e = match Dedup.best_match d e with Some _ => true | None => false end.
Proof. reflexivity. Qed.

Lemma length_set_add (x : string) (s : list string) :
  (List.length (PySet.add String.eqb x s) <= List.length s + 1)%nat.
Proof.
  unfold PySet.add. destruct (PySet.mem String.eqb x s); [lia|].
  rewrite length_app. cbn [List.length]. lia.
Qed.

Lemma merge_signature_aliases signature e c :
  (List.length (aliases (Dedup.merge_signature signature e c))
   <= List.length (aliases signature) + 1)%nat.
Proof.
  unfold Dedup.merge_signature. cbn [aliases].
  destruct (_ && _); [apply length_set_add | lia].
Qed.

Lemma add_entity_counts d e :
  let d1 := snd (Dedup.add_entity d e) in
  let merged := if Dedup.merges d e then 1%nat else 0%nat in
  (List.length (entity_registry d1) + merged <= List.length (entity_registry d) + 1)%nat
  /\ (no_remint d [e] = true ->
      List.length (entity_registry d1) + merged = List.length (entity_registry d) + 1)%nat
  /\ (list_sum (map (fun sig => List.length (aliases sig)) (map snd (entity_registry d1)))
      <= list_sum (map (fun sig => List.length (aliases sig)) (map snd (entity_registry d)))
         + merged)%nat.
Proof.
  cbv zeta. rewrite merges_best_match. cbn [no_remint]. rewrite andb_true_r.
  destruct (Dedup.best_match d e) as [[cid c]|] eqn:B.
  - destruct (add_entity_merges _ _ _ _ B) as [s [Hs ->]].
    cbn [snd Dedup.with_registry entity_registry].
    rewrite length_sset. unfold Dict.mem. rewrite Hs.
    pose proof (sum_sset_present (fun sig => List.length (aliases sig))
                  (entity_registry d) cid (Dedup.merge_signature s e c) s Hs) as Hsum.
    pose proof (merge_signature_aliases s e c).
    repeat split; try lia.
  - rewrite add_entity_mints by assumption.
    unfold Dedup.mint. cbn [fst snd entity_registry].
    set (m := Dedup.generate_canonical_id _ _).
    rewrite length_sset. unfold Dict.mem.
    destruct (sget (entity_registry d) m) as [old|] eqn:Em.
    + pose proof (sum_sset_present (fun sig => List.length (aliases sig))
                    (entity_registry d) m (Dedup.new_signature e) old Em) as Hsum.
      cbn [Dedup.new_signature aliases List.length] in Hsum.
      repeat split; try lia.
    + rewrite (sum_sset_absent (fun sig => List.length (aliases sig))) by assumption.
      cbn [Dedup.new_signature aliases List.length].
      repeat split; try lia.
Qed.

Lemma add_all_counts entities : forall d,
  let d' := snd (Dedup.add_all d entities) in
  (List.length (entity_registry d') + Dedup.count_merges d entities
   <= List.length (entity_registry d) + List.length entities)%nat
  /\ (no_remint d entities = true ->
      List.length (entity_registry d') + Dedup.count_merges d entities
      = List.length (entity_registry d) + List.length entities)%nat
  /\ (list_sum (map (fun sig => List.length (aliases sig)) (map snd (entity_registry d')))
      <= list_sum (map (fun sig => List.length (aliases sig)) (map snd (entity_registry d)))
         + Dedup.count_merges d entities)%nat.
Proof.
  induction entities as [|e rest IH]; intros d; cbv zeta.
  - cbn [Dedup.add_all snd Dedup.count_merges List.length]. repeat split; lia.
  - rewrite add_all_cons. cbn [snd Dedup.count_merges List.length no_remint].
    destruct (add_entity_counts d e) as [H1 [H2 H3]]. cbv zeta in H1, H2, H3.
    cbn [no_remint] in H2. rewrite andb_true_r in H2.
    destruct (IH (snd (Dedup.add_entity d e))) as [I1 [I2 I3]]. cbv zeta in I1, I2, I3.
    repeat split; try lia.
    intros H. apply andb_true_iff in H. destruct H as [Ha Hb].
    specialize (H2 Ha). specialize (I2 Hb). lia.
Qed.

(** X4. After a run of [add_entity] calls on a new deduplicator, the
    statistics count at most one canonical entity per call that did not
    merge, and at most one alias per call that merged. *)
Theorem statistics_bounded_by_calls (t : Q) (v : string -> string -> option Q)
        (entities : list Entity) :
  let s := DedupReports.get_statistics (snd (Dedup.add_all (Dedup.init t v) entities)) in
  (DedupReports.total_canonical_entities s + Dedup.count_merges (Dedup.init t v) entities
   <= List.length entities)%nat
  /\ (DedupReports.total_aliases s <= Dedup.count_merges (Dedup.init t v) entities)%nat.
Proof.
  cbv zeta. destruct (add_all_counts entities (Dedup.init t v)) as [H1 [_ H3]].
  cbv zeta in H1, H3. rewrite total_aliases_registry.
  cbn [Dedup.init entity_registry List.length map list_sum fold_right] in *.
  split; [exact H1 | exact H3].
Qed.

(** X5. When no mint of the run re-uses a canonical id, every call either
    merges or adds one canonical entity: the number of canonical entities
    and the number of merges add up to the number of calls. *)
Theorem canonical_entities_plus_merges (t : Q) (v : string -> string -> option Q)
        (entities : list Entity) :
  no_remint (Dedup.init t v) entities = true ->
  (DedupReports.total_canonical_entities
     (DedupReports.get_statistics (snd (Dedup.add_all (Dedup.init t v) entities)))
   + Dedup.count_merges (Dedup.init t v) entities
   = List.length entities)%nat.
Proof.
  intros H. destruct (add_all_counts entities (Dedup.init t v)) as [_ [H2 _]].
  cbv zeta in H2. exact (H2 H).
Qed.

Lemma canonical_entities_plus_merges_witness :
  (DedupReports.total_canonical_entities
     (DedupReports.get_statistics (snd (Dedup.add_all (Dedup.init 0.85 Tfidf.cosine) contact_run)))
   + Dedup.count_merges (Dedup.init 0.85 Tfidf.cosine) contact_run
   = List.length contact_run)%nat.
Proof.
  apply (canonical_entities_plus_merges 0.85 Tfidf.cosine contact_run).
  vm_compute. reflexivity.
Defined.

(** ** The confidence of a canonical entity *)

Lemma sget_known {V : Type} (store : list (string * V)) k :
  smem store k = true -> exists v, sget store k = Some v.
Proof. unfold Dict.mem. destruct (sget store k) as [v|]; [eauto | discriminate]. Qed.

Lemma confidences_at_least_step d e :
  (similarity_threshold d <= 1)%Q ->
  confidences_at_least (similarity_threshold d) d ->
  confidences_at_least (similarity_threshold d) (snd (Dedup.add_entity d e)).
Proof.
  intros Ht Hd cid signature.
  destruct (Dedup.best_match d e) as [[cid0 c]|] eqn:B.
  - destruct (add_entity_merges _ _ _ _ B) as [s [Hs ->]].
    cbn [snd Dedup.with_registry entity_registry]. intros Hin.
    apply In_sset in Hin. destruct Hin as [[-> ->]|Hin]; [|eauto].
    apply best_match_some in B. destruct B as [_ [_ Hle]].
    apply sget_Some_In in Hs. apply Hd in Hs.
    unfold Dedup.merge_signature. cbn [confidence].
    apply Qle_shift_div_l; [reflexivity | lra].
  - rewrite add_entity_mints by assumption.
    unfold Dedup.mint. cbn [snd entity_registry]. intros Hin.
    apply In_sset in Hin. destruct Hin as [[-> ->]|Hin]; [|eauto].
    cbn [Dedup.new_signature confidence]. assumption.
Qed.

Lemma add_entity_settings d e :
  similarity_threshold (snd (Dedup.add_entity d e)) = similarity_threshold d
  /\ vectorizer (snd (Dedup.add_entity d e)) = vectorizer d.
Proof.
  unfold Dedup.add_entity. destruct (Dedup.best_match d e) as [[cid c]|].
  - unfold Dedup.merge_entities. cbn [snd].
    destruct (sget (entity_registry d) cid); auto.
  - unfold Dedup.mint. cbn [snd similarity_threshold vectorizer]. auto.
Qed.


Lemma confidences_at_least_run entities : forall d,
  (similarity_threshold d <= 1)%Q ->
  confidences_at_least (similarity_threshold d) d ->
  confidences_at_least (similarity_threshold d) (snd (Dedup.add_all d entities)).
Proof.
  induction entities as [|e rest IH]; intros d Ht Hd; [exact Hd|].
  rewrite add_all_cons. cbn [snd].
  destruct (add_entity_settings d e) as [Et _].
  rewrite <- Et. apply IH.
  - now rewrite Et.
  - rewrite Et. now apply confidences_at_least_step.
Qed.

(** X6. With a threshold of at most 1, the confidence of every canonical
    entity of a run is at least the threshold, whatever the vectorizer
    returns: a mint starts at 1.0 and each merge averages the confidence
    with the score of a match that reached the threshold. (There is no such
    bound from above: the score of a match can be a cosine above 1.) *)
Theorem confidence_at_least_threshold
        (t : Q) (v : string -> string -> option Q) (entities : list Entity)
        (cid : string) (signature : EntitySignature) :
  (t <= 1)%Q ->
  sget (entity_registry (snd (Dedup.add_all (Dedup.init t v) entities))) cid = Some signature ->
  (t <= confidence signature)%Q.
Proof.
  intros Ht Hs. apply sget_Some_In in Hs.
  apply (confidences_at_least_run entities (Dedup.init t v) Ht) in Hs; [exact Hs|].
  intros ? ? [].
Qed.

(** The second record of [permuted_names_run] is merged into the first on
    the cosine of the two names. *)
Example permuted_names_merge :
  Dedup.count_merges binary64_dedup permuted_names_run = 1%nat
  /\ fst (Dedup.add_all binary64_dedup permuted_names_run)
     = ["entity:regen:agent:b5d36f134f19"; "entity:regen:agent:b5d36f134f19"].
Proof. split; reflexivity. Qed.

Lemma confidence_at_least_threshold_witness :
  exists signature,
    sget (entity_registry (snd (Dedup.add_all (Dedup.init 0.85 Tfidf64.cosine)
                                              permuted_names_run)))
         "entity:regen:agent:b5d36f134f19" = Some signature
    /\ (0.85 <= confidence signature)%Q.
Proof.
  destruct (sget_known (entity_registry (snd (Dedup.add_all (Dedup.init 0.85 Tfidf64.cosine)
                                                            permuted_names_run)))
                       "entity:regen:agent:b5d36f134f19" eq_refl) as [signature E].
  exists signature. split; [exact E|].
  apply (confidence_at_least_threshold 0.85 Tfidf64.cosine permuted_names_run
           "entity:regen:agent:b5d36f134f19" signature).
  - discriminate.
  - exact E.
Defined.

(** ** Adding an entity again *)








(** ** Statistics and export *)

Lemma count_type_sum distribution ty :
  list_sum (map snd (DedupReports.count_type distribution ty))
  = (list_sum (map snd distribution) + 1)%nat.
Proof.
  unfold DedupReports.count_type.
  destruct (sget distribution ty) as [n|] eqn:E.
  - pose proof (sum_sset_present (fun n => n) distribution ty (n + 1)%nat n E) as H.
    rewrite !map_id in H. lia.
  - pose proof (sum_sset_absent (fun n => n) distribution ty (0 + 1)%nat E) as H.
    rewrite !map_id in H. lia.
Qed.

Lemma count_type_lookup distribution ty ty' :
  match sget (DedupReports.count_type distribution ty) ty' with Some n => n | None => 0%nat end
  = (match sget distribution ty' with Some n => n | None => 0%nat end
     + if String.eqb ty ty' then 1 else 0)%nat.
Proof.
  unfold DedupReports.count_type. destruct (String.eqb ty ty') eqn:E.
  - apply String.eqb_eq in E. subst ty'. rewrite sget_sset_same. lia.
  - rewrite sget_sset_other; [lia|]. intros ->. now rewrite String.eqb_refl in E.
Qed.

Lemma count_type_positive distribution ty :
  Forall (fun kv : string * nat => (0 < snd kv)%nat) distribution ->
  Forall (fun kv : string * nat => (0 < snd kv)%nat) (DedupReports.count_type distribution ty).
Proof.
  intros H. apply Forall_forall. intros [k n] Hin.
  unfold DedupReports.count_type in Hin. apply In_sset in Hin.
  destruct Hin as [[_ ->]|Hin]; [cbn [snd]; lia|].
  rewrite Forall_forall in H. exact (H _ Hin).
Qed.

Lemma type_distribution_fold (signatures : list (string * EntitySignature)) :
  forall distribution,
  let result :=
    fold_left DedupReports.count_type (map entity_type (map snd signatures)) distribution in
  list_sum (map snd result) = (list_sum (map snd distribution) + List.length signatures)%nat
  /\ (forall ty,
        match sget result ty with Some n => n | None => 0%nat end
        = (match sget distribution ty with Some n => n | None => 0%nat end
           + List.length (filter (fun item : string * EntitySignature =>
                                    String.eqb (entity_type (snd item)) ty) signatures))%nat)
  /\ (Forall (fun kv : string * nat => (0 < snd kv)%nat) distribution ->
      Forall (fun kv : string * nat => (0 < snd kv)%nat) result).
Proof.
  induction signatures as [|[cid s] rest IH]; intros distribution; cbv zeta.
  - cbn [map fold_left List.length filter]. repeat split; auto; intros; lia.
  - cbn [map fold_left List.length filter snd].
    destruct (IH (DedupReports.count_type distribution (entity_type s))) as [H1 [H2 H3]].
    cbv zeta in H1, H2, H3. repeat split.
    + rewrite H1, count_type_sum. lia.
    + intros ty. rewrite H2, count_type_lookup.
      destruct (String.eqb (entity_type s) ty); cbn [List.length]; lia.
    + intros H. apply H3. now apply count_type_positive.
Qed.

(** X8. The type distribution of [get_statistics] counts, for every entity
    type, the canonical entities of that type; a type that is listed has at
    least one, and the counts add up to the number of canonical entities. *)
Theorem type_distribution_counts (d : EntityDeduplicator) :
  let s := DedupReports.get_statistics d in
  list_sum (map snd (DedupReports.type_distribution s))
  = DedupReports.total_canonical_entities s
  /\ (forall ty,
        match sget (DedupReports.type_distribution s) ty with Some n => n | None => 0%nat end
        = List.length (filter (fun item : string * EntitySignature =>
                                 String.eqb (entity_type (snd item)) ty)
                              (entity_registry d)))
  /\ Forall (fun kv : string * nat => (0 < snd kv)%nat) (DedupReports.type_distribution s).
Proof.
  cbv zeta. unfold DedupReports.get_statistics.
  cbn [DedupReports.type_distribution DedupReports.total_canonical_entities].
  destruct (type_distribution_fold (entity_registry d) []) as [H1 [H2 H3]].
  cbv zeta in H1, H2, H3. repeat split.
  - rewrite H1. reflexivity.
  - intros ty. rewrite H2. reflexivity.
  - apply H3. constructor.
Qed.

(** A [dict] laid over another: [{**base, **l}]. *)
Section Overlay.
Context {A B : Type}.
Variable f : A -> B.

Lemma overlay_absent (l : list (string * A)) : forall base k,
  ~ In k (map fst l) ->
  sget (fold_left (fun acc (kv : string * A) => sset acc (fst kv) (f (snd kv))) l base) k
  = sget base k.
Proof.
  induction l as [|[k0 v0] l IH]; intros base k H; cbn [fold_left fst snd]; auto.
  cbn [map fst In] in H. rewrite IH by tauto.
  apply sget_sset_other. tauto.
Qed.

Lemma overlay_present (l : list (string * A)) : forall base k v,
  NoDup (map fst l) -> sget l k = Some v ->
  sget (fold_left (fun acc (kv : string * A) => sset acc (fst kv) (f (snd kv))) l base) k
  = Some (f v).
Proof.
  induction l as [|[k0 v0] l IH]; intros base k v Hnd H; cbn [Dict.get] in H; [discriminate|].
  cbn [fold_left fst snd]. cbn [map fst] in Hnd. inversion Hnd; subst.
  destruct (String.eqb k0 k) eqn:E.
  - apply String.eqb_eq in E. subst k0. inversion H; subst v0.
    rewrite overlay_absent by assumption. apply sget_sset_same.
  - now apply IH.
Qed.

End Overlay.

(** X9. In a record of [export_canonical_entities], an entry of the
    signature's properties replaces the fixed key of the same name: a
    canonical entity that carries a property named ['confidence'],
    ['aliases'] or ['source_documents'] is exported with the property in
    place of the computed value. *)
Theorem exported_property_replaces_fixed_key
        (canonical_id : string) (signature : EntitySignature) (k : string) (v : pyval) :
  NoDup (map fst (properties signature)) ->
  sget (properties signature) k = Some v ->
  sget (DedupReports.export_entity canonical_id signature) k = Some (Json.of_pyval v).
Proof. intros Hnd H. unfold DedupReports.export_entity. now apply overlay_present. Qed.

Lemma exported_property_replaces_fixed_key_witness :
  confidence (Dedup.new_signature half_confident_entity) = 1
  /\ sget (DedupReports.export_entity "entity:regen:agent:b5d36f134f19"
             (Dedup.new_signature half_confident_entity)) "confidence"
     = Some (JFloat 0.5).
Proof.
  split; [reflexivity|].
  apply (exported_property_replaces_fixed_key "entity:regen:agent:b5d36f134f19"
           (Dedup.new_signature half_confident_entity) "confidence" (VAtom (AFloat 0.5))).
  - vm_compute. repeat constructor. intros [].
  - reflexivity.
Defined.

Lemma merge_property_plain props item :
  Forall (fun kv : string * pyval => Ent.not_reserved (fst kv) = true) props ->
  Forall (fun kv : string * pyval => Ent.not_reserved (fst kv) = true)
         (Dedup.merge_property props item).
Proof.
  intros H. destruct item as [key value]. unfold Dedup.merge_property.
  destruct (Ent.not_reserved key) eqn:Ek; cbn [andb]; [|exact H].
  assert (Hset : forall x, Forall (fun kv : string * pyval => Ent.not_reserved (fst kv) = true)
                                  (sset props key x)).
  { intros x. apply Forall_forall. intros [k' v'] Hin. apply In_sset in Hin.
    destruct Hin as [[-> _]|Hin]; [exact Ek|].
    rewrite Forall_forall in H. exact (H _ Hin). }
  destruct (PyVal.truthy value); [|exact H].
  destruct (sget props key) as [old|]; [|apply Hset].
  destruct (negb (PyVal.truthy old)); [apply Hset|].
  destruct value; [exact H|]. destruct old; [exact H | apply Hset].
Qed.

Lemma merge_properties_plain items : forall props,
  Forall (fun kv : string * pyval => Ent.not_reserved (fst kv) = true) props ->
  Forall (fun kv : string * pyval => Ent.not_reserved (fst kv) = true)
         (fold_left Dedup.merge_property items props).
Proof.
  induction items as [|item items IH]; intros props H; cbn [fold_left]; auto.
  apply IH. now apply merge_property_plain.
Qed.

Lemma properties_plain_step d e :
  properties_plain d -> properties_plain (snd (Dedup.add_entity d e)).
Proof.
  intros Hd cid signature.
  destruct (Dedup.best_match d e) as [[cid0 c]|] eqn:B.
  - destruct (add_entity_merges _ _ _ _ B) as [s [Hs ->]].
    cbn [snd Dedup.with_registry entity_registry]. intros Hin.
    apply In_sset in Hin. destruct Hin as [[-> ->]|Hin]; [|eauto].
    unfold Dedup.merge_signature. cbn [properties].
    apply merge_properties_plain. apply sget_Some_In in Hs. eauto.
  - rewrite add_entity_mints by assumption.
    unfold Dedup.mint. cbn [snd entity_registry]. intros Hin.
    apply In_sset in Hin. destruct Hin as [[-> ->]|Hin]; [|eauto].
    cbn [Dedup.new_signature properties].
    apply Forall_forall. intros kv Hkv. apply filter_In in Hkv. tauto.
Qed.

Lemma properties_plain_run entities : forall d,
  properties_plain d -> properties_plain (snd (Dedup.add_all d entities)).
Proof.
  induction entities as [|e rest IH]; intros d Hd; [exact Hd|].
  rewrite add_all_cons. cbn [snd]. now apply IH, properties_plain_step.
Qed.

Lemma plain_key_absent (props : list (string * pyval)) k :
  Forall (fun kv : string * pyval => Ent.not_reserved (fst kv) = true) props ->
  Ent.not_reserved k = false ->
  ~ In k (map fst props).
Proof.
  intros H Hk Hin. apply in_map_iff in Hin. destruct Hin as [[k' v] [Heq Hin]].
  cbn [fst] in Heq. subst k'. rewrite Forall_forall in H.
  specialize (H _ Hin). cbn [fst] in H. congruence.
Qed.

(** X10. After a run of [add_entity] calls on a new deduplicator, every
    record of [export_canonical_entities] is the record of one registry
    entry, in registry order, and carries that entry's canonical id, entity
    type and canonical name under ['@id'], ['@type'] and ['name']: no
    property of an observation ever takes the place of these three. *)
Theorem export_keeps_identity (t : Q) (v : string -> string -> option Q)
        (entities : list Entity) (i : nat) (cid : string) (signature : EntitySignature) :
  let d := snd (Dedup.add_all (Dedup.init t v) entities) in
  nth_error (entity_registry d) i = Some (cid, signature) ->
  exists record,
    nth_error (DedupReports.export_canonical_entities d) i = Some record
    /\ sget record "@id" = Some (JStr cid)
    /\ sget record "@type" = Some (JStr (entity_type signature))
    /\ sget record "name" = Some (JStr (canonical_name signature)).
Proof.
  intros d H. exists (DedupReports.export_entity cid signature).
  assert (Hplain : Forall (fun kv : string * pyval => Ent.not_reserved (fst kv) = true)
                          (properties signature)).
  { apply (properties_plain_run entities (Dedup.init t v)) with (cid := cid).
    - intros ? ? [].
    - eapply nth_error_In; eauto. }
  split.
  - unfold DedupReports.export_canonical_entities.
    rewrite nth_error_map, H. reflexivity.
  - unfold DedupReports.export_entity.
    repeat split; (rewrite overlay_absent; [reflexivity|]);
      apply plain_key_absent; auto.
Qed.

Lemma export_keeps_identity_witness :
  exists record,
    nth_error (DedupReports.export_canonical_entities
                 (snd (Dedup.add_all (Dedup.init 0.85 Tfidf.cosine) contact_run))) 1
    = Some record
    /\ sget record "@id" = Some (JStr "entity:regen:agent:fd8e94aa485f")
    /\ sget record "@type" = Some (JStr "regen:Agent")
    /\ sget record "name" = Some (JStr "ab cd").
Proof.
  refine (export_keeps_identity 0.85 Tfidf.cosine contact_run 1
            "entity:regen:agent:fd8e94aa485f"
            (match nth_error (entity_registry
                                (snd (Dedup.add_all (Dedup.init 0.85 Tfidf.cosine) contact_run))) 1
             with Some item => snd item | None => Dedup.new_signature regen_untyped end) _).
  vm_compute. reflexivity.
Defined.

(** ** The coreference graph *)

Lemma coreference_In d i j e1 e2 i' j' w :
  In (i', j', w) (DedupReports.coreference d i j e1 e2) <->
  i' = i /\ j' = j
  /\ DedupReports.differ_in_type e1 e2 = false
  /\ w = Dedup.calculate_similarity d (Ent.get_name e1 "") (Ent.get_name e2 "")
  /\ Qle_bool (similarity_threshold d) w = true.
Proof.
  unfold DedupReports.coreference.
  destruct (DedupReports.differ_in_type e1 e2); cbn [In].
  - split; [tauto | intros [_ [_ [H _]]]; discriminate].
  - cbv zeta. destruct (Qle_bool _ _) eqn:E; cbn [In].
    + split.
      * intros [H|[]]. inversion H; subst. auto.
      * intros [-> [-> [_ [-> _]]]]. now left.
    + split; [tauto|]. intros [_ [_ [_ [-> H]]]]. congruence.
Qed.

(** The edges of the graph, read off the two loops. *)
Lemma edges_In d entities i j w :
  In (i, j, w) (DedupReports.edges (DedupReports.resolve_coreferences d entities)) <->
  exists e1 e2,
    nth_error entities i = Some e1 /\ nth_error entities j = Some e2 /\ (i < j)%nat
    /\ DedupReports.differ_in_type e1 e2 = false
    /\ w = Dedup.calculate_similarity d (Ent.get_name e1 "") (Ent.get_name e2 "")
    /\ Qle_bool (similarity_threshold d) w = true.
Proof.
  unfold DedupReports.resolve_coreferences. cbn [DedupReports.edges]. split.
  - intros H. apply in_flat_map in H. destruct H as [i0 [Hi0 H]].
    apply in_flat_map in H. destruct H as [j0 [Hj0 H]].
    apply in_seq in Hj0.
    destruct (nth_error entities i0) as [e1|] eqn:E1; [|destruct H].
    destruct (nth_error entities j0) as [e2|] eqn:E2; [|destruct H].
    apply coreference_In in H. destruct H as [-> [-> H]].
    exists e1, e2. repeat split; try tauto; lia.
  - intros [e1 [e2 [E1 [E2 [Hlt H]]]]].
    assert (Hj : (j < List.length entities)%nat).
    { apply nth_error_Some. congruence. }
    apply in_flat_map. exists i. split; [apply in_seq; lia|].
    apply in_flat_map. exists j. split; [apply in_seq; lia|].
    rewrite E1, E2. apply coreference_In. tauto.
Qed.

(** X11. [resolve_coreferences] links a position [i] of the list only to a
    later position [j] whose entity has the same ['@type'] entry (or none
    either), with the similarity of the two names as weight, and only when
    that similarity reaches the threshold. *)
Theorem coreference_edges_well_formed
        (d : EntityDeduplicator) (entities : list Entity) (i j : nat) (w : Q) :
  In (i, j, w) (DedupReports.edges (DedupReports.resolve_coreferences d entities)) ->
  (i < j < List.length entities)%nat
  /\ exists e1 e2,
       nth_error entities i = Some e1 /\ nth_error entities j = Some e2
       /\ ent_type e1 = ent_type e2
       /\ w = Dedup.calculate_similarity d (Ent.get_name e1 "") (Ent.get_name e2 "")
       /\ (similarity_threshold d <= w)%Q.
Proof.
  intros H. apply edges_In in H. destruct H as [e1 [e2 [E1 [E2 [Hlt [Ht [Hw Hle]]]]]]].
  split.
  - split; [assumption|]. apply nth_error_Some. congruence.
  - exists e1, e2. repeat split; auto.
    + unfold DedupReports.differ_in_type in Ht.
      destruct (ent_type e1) as [t1|], (ent_type e2) as [t2|]; try discriminate; auto.
      apply negb_false_iff, String.eqb_eq in Ht. now subst.
    + now apply Qle_bool_iff.
Qed.

Lemma coreference_edges_well_formed_witness :
  (0 < 2 < List.length source_example)%nat
  /\ exists e1 e2,
       nth_error source_example 0 = Some e1 /\ nth_error source_example 2 = Some e2
       /\ ent_type e1 = ent_type e2
       /\ 1 = Dedup.calculate_similarity default_dedup (Ent.get_name e1 "") (Ent.get_name e2 "")
       /\ (similarity_threshold default_dedup <= 1)%Q.
Proof.
  apply (coreference_edges_well_formed default_dedup source_example 0 2 1).
  vm_compute. right. left. reflexivity.
Defined.

Lemma calculate_similarity_empty d a b :
  a = "" \/ b = "" -> Dedup.calculate_similarity d a b = 0.
Proof.
  unfold Dedup.calculate_similarity. intros [->| ->]; cbn [PyStr.nonempty negb orb];
    [reflexivity | now rewrite orb_true_r].
Qed.

(** X12. Under a positive threshold, an entity without a name (absent or
    empty) is an isolated node of the coreference graph: no edge starts or
    ends at its position. *)
Theorem nameless_entity_is_isolated
        (d : EntityDeduplicator) (entities : list Entity) (k : nat) (e : Entity) :
  (0 < similarity_threshold d)%Q ->
  nth_error entities k = Some e ->
  Ent.get_name e "" = "" ->
  existsb (fun edge : nat * nat * Q =>
             Nat.eqb (fst (fst edge)) k || Nat.eqb (snd (fst edge)) k)
          (DedupReports.edges (DedupReports.resolve_coreferences d entities))
  = false.
Proof.
  intros Ht Hk Hname.
  destruct (existsb _ _) eqn:E; [|reflexivity]. exfalso.
  apply existsb_exists in E. destruct E as [[[i j] w] [Hin Hor]].
  cbn [fst snd] in Hor.
  apply edges_In in Hin. destruct Hin as [e1 [e2 [E1 [E2 [_ [_ [Hw Hle]]]]]]].
  assert (Hz : w = 0).
  { rewrite Hw. apply calculate_similarity_empty.
    apply orb_true_iff in Hor. destruct Hor as [H|H]; apply Nat.eqb_eq in H; subst k.
    - left. congruence.
    - right. congruence. }
  subst w. rewrite Hz in Hle. apply Qle_bool_iff in Hle.
  apply (Qlt_not_le _ _ Ht Hle).
Qed.

Lemma nameless_entity_is_isolated_witness :
  existsb (fun edge : nat * nat * Q =>
             Nat.eqb (fst (fst edge)) 1 || Nat.eqb (snd (fst edge)) 1)
          (DedupReports.edges
             (DedupReports.resolve_coreferences default_dedup
                [regen_unknown; unnamed_with_website; unnamed_with_email]))
  = false.
Proof.
  apply (nameless_entity_is_isolated default_dedup
           [regen_unknown; unnamed_with_website; unnamed_with_email] 1 unnamed_with_website).
  - vm_compute. reflexivity.
  - reflexivity.
  - reflexivity.
Defined.

(** X13. Under a threshold of at most 1, two entities of the list that
    have the same ['@type'] entry and non-empty names with one normal form
    are linked, with weight 1.0. *)
Theorem equal_names_are_linked
        (d : EntityDeduplicator) (entities : list Entity) (i j : nat) (e1 e2 : Entity) :
  (similarity_threshold d <= 1)%Q ->
  (i < j)%nat ->
  nth_error entities i = Some e1 ->
  nth_error entities j = Some e2 ->
  ent_type e1 = ent_type e2 ->
  PyStr.nonempty (Ent.get_name e1 "") = true ->
  PyStr.nonempty (Ent.get_name e2 "") = true ->
  Dedup.normalize_name (Ent.get_name e1 "") = Dedup.normalize_name (Ent.get_name e2 "") ->
  In (i, j, 1) (DedupReports.edges (DedupReports.resolve_coreferences d entities)).
Proof.
  intros Ht Hlt E1 E2 Hty H1 H2 Hn. apply edges_In. exists e1, e2.
  assert (Hs : Dedup.calculate_similarity d (Ent.get_name e1 "") (Ent.get_name e2 "") = 1).
  { unfold Dedup.calculate_similarity. rewrite H1, H2, Hn, String.eqb_refl. reflexivity. }
  repeat split; auto.
  - unfold DedupReports.differ_in_type. rewrite Hty.
    destruct (ent_type e2); [|reflexivity]. now rewrite String.eqb_refl.
  - now apply Qle_bool_iff.
Qed.

Lemma equal_names_are_linked_witness :
  In (0%nat, 1%nat, 1)
     (DedupReports.edges (DedupReports.resolve_coreferences default_dedup source_example)).
Proof.
  apply (equal_names_are_linked default_dedup source_example 0 1
           (entity_of "regen:Agent" "Regen Network"
              [("website", VAtom (AStr "https://regen.network"));
               ("foundIn", VAtom (AStr "doc1.md"))])
           (entity_of "regen:Agent" "Regen Network Inc."
              [("email", VAtom (AStr "info@regen.network"));
               ("foundIn", VAtom (AStr "doc2.md"))])).
  - vm_compute. discriminate.
  - lia.
  - reflexivity.
  - reflexivity.
  - reflexivity.
  - reflexivity.
  - reflexivity.
  - vm_compute. reflexivity.
Defined.

(** ** The relationship store *)

Lemma triple_eqb_eq (a b : Rel.triple) : Rel.triple_eqb a b = true <-> a = b.
Proof.
  destruct a as [[s1 p1] o1], b as [[s2 p2] o2]. unfold Rel.triple_eqb.
  rewrite !andb_true_iff, !String.eqb_eq. split.
  - intros [[-> ->] ->]. reflexivity.
  - intros H. inversion H. auto.
Qed.

Lemma triple_eqb_refl (a : Rel.triple) : Rel.triple_eqb a a = true.
Proof. now apply triple_eqb_eq. Qed.

Lemma triple_eqb_neq (a b : Rel.triple) : a <> b -> Rel.triple_eqb a b = false.
Proof.
  intros H. destruct (Rel.triple_eqb a b) eqn:E; auto.
  apply triple_eqb_eq in E. contradiction.
Qed.

Section RelStore.
Implicit Types (rels : Rel.relationships) (t : Rel.triple) (v : list (string * pyval)).

Lemma tget_tset_same rels t v :
  Dict.get Rel.triple_eqb (Dict.set Rel.triple_eqb rels t v) t = Some v.
Proof.
  induction rels as [|[t0 v0] rels IH]; cbn [Dict.set Dict.get].
  - now rewrite triple_eqb_refl.
  - destruct (Rel.triple_eqb t0 t) eqn:E; cbn [Dict.get]; rewrite E; auto.
Qed.

Lemma tget_tset_other rels t t' v :
  t <> t' ->
  Dict.get Rel.triple_eqb (Dict.set Rel.triple_eqb rels t v) t'
  = Dict.get Rel.triple_eqb rels t'.
Proof.
  intros Hne. induction rels as [|[t0 v0] rels IH]; cbn [Dict.set Dict.get].
  - now rewrite triple_eqb_neq.
  - destruct (Rel.triple_eqb t0 t) eqn:E; cbn [Dict.get].
    + apply triple_eqb_eq in E. subst t0. now rewrite triple_eqb_neq.
    + now rewrite IH.
Qed.

Lemma tset_stored rels t v :
  Dict.get Rel.triple_eqb rels t = Some v -> Dict.set Rel.triple_eqb rels t v = rels.
Proof.
  induction rels as [|[t0 v0] rels IH]; cbn [Dict.set Dict.get]; [discriminate|].
  destruct (Rel.triple_eqb t0 t) eqn:E.
  - intros H. inversion H. reflexivity.
  - intros H. now rewrite IH.
Qed.

Lemma tkeys_tset rels t v :
  map fst (Dict.set Rel.triple_eqb rels t v)
  = match Dict.get Rel.triple_eqb rels t with
    | Some _ => map fst rels
    | None => map fst rels ++ [t]
    end.
Proof.
  induction rels as [|[t0 v0] rels IH]; cbn [Dict.set Dict.get map fst app]; auto.
  destruct (Rel.triple_eqb t0 t) eqn:E; cbn [map fst]; auto.
  rewrite IH. now destruct (Dict.get Rel.triple_eqb rels t).
Qed.

Lemma tget_none_keys rels t :
  Dict.get Rel.triple_eqb rels t = None -> ~ In t (map fst rels).
Proof.
  induction rels as [|[t0 v0] rels IH]; cbn [Dict.get map fst In]; [tauto|].
  destruct (Rel.triple_eqb t0 t) eqn:E; [discriminate|].
  intros H [Heq|Hin]; [|now apply IH].
  subst t0. now rewrite triple_eqb_refl in E.
Qed.

End RelStore.

Lemma smem_In_key (stored : list (string * pyval)) k v :
  In (k, v) stored -> smem stored k = true.
Proof.
  intros H. unfold Dict.mem. pose proof (sget_In_some stored k v H).
  now destruct (sget stored k).
Qed.

Lemma merge_properties_keeps_keys new_properties : forall stored k,
  smem stored k = true -> smem (Rel.merge_properties stored new_properties) k = true.
Proof.
  intros stored k H. unfold Dict.mem in *.
  destruct (sget stored k) as [v|] eqn:E; [|discriminate].
  now rewrite (merge_properties_keeps_stored new_properties stored k v E).
Qed.

Lemma merge_properties_cons stored kv rest :
  Rel.merge_properties stored (kv :: rest)
  = Rel.merge_properties
      (if smem stored (fst kv) then stored else sset stored (fst kv) (snd kv)) rest.
Proof. reflexivity. Qed.

Lemma merge_properties_holds new_properties : forall stored k v,
  In (k, v) new_properties ->
  smem (Rel.merge_properties stored new_properties) k = true.
Proof.
  induction new_properties as [|[k0 v0] rest IH]; intros stored k v Hin; [destruct Hin|].
  rewrite merge_properties_cons. cbn [fst snd].
  destruct Hin as [Heq|Hin]; [|eauto].
  inversion Heq; subst. apply merge_properties_keeps_keys.
  destruct (smem stored k) eqn:E; [exact E | apply smem_sset].
Qed.

Lemma merge_properties_known new_properties : forall stored,
  (forall k v, In (k, v) new_properties -> smem stored k = true) ->
  Rel.merge_properties stored new_properties = stored.
Proof.
  induction new_properties as [|[k0 v0] rest IH]; intros stored H; [reflexivity|].
  rewrite merge_properties_cons. cbn [fst snd].
  rewrite (H k0 v0) by now left.
  apply IH. intros k v Hin. apply (H k v). now right.
Qed.

(** X14. [add_relationship] is idempotent: the same call made twice in a
    row leaves the store as the first call left it. *)
Theorem add_relationship_idempotent
        (rels : Rel.relationships) (subject predicate obj : string)
        (properties : option (list (string * pyval))) :
  Rel.add_relationship (Rel.add_relationship rels subject predicate obj properties)
                       subject predicate obj properties
  = Rel.add_relationship rels subject predicate obj properties.
Proof.
  unfold Rel.add_relationship.
  set (t := Rel.normalize_relationship subject predicate obj).
  destruct (Dict.get Rel.triple_eqb rels t) as [stored|] eqn:E.
  - destruct (PyVal.or_empty properties) as [|item rest] eqn:Ep.
    + now rewrite E.
    + rewrite tget_tset_same.
      rewrite (merge_properties_known (item :: rest)
                 (Rel.merge_properties stored (item :: rest))).
      * apply tset_stored, tget_tset_same.
      * intros k v Hin. eapply merge_properties_holds; eauto.
  - rewrite tget_tset_same.
    destruct (PyVal.or_empty properties) as [|item rest] eqn:Ep; [reflexivity|].
    rewrite (merge_properties_known (item :: rest) (item :: rest)).
    + apply tset_stored, tget_tset_same.
    + intros k v Hin. eapply smem_In_key; eauto.
Qed.

(** X15. [add_relationship] never overwrites: a property value stored for
    a triple is still stored, unchanged, after any further call, for the
    same triple or another. *)
Theorem add_relationship_keeps_stored_values
        (rels : Rel.relationships) (subject predicate obj : string)
        (properties : option (list (string * pyval)))
        (t : Rel.triple) (stored : list (string * pyval)) (k : string) (v : pyval) :
  Dict.get Rel.triple_eqb rels t = Some stored ->
  sget stored k = Some v ->
  exists stored',
    Dict.get Rel.triple_eqb
             (Rel.add_relationship rels subject predicate obj properties) t
    = Some stored'
    /\ sget stored' k = Some v.
Proof.
  intros Ht Hk. unfold Rel.add_relationship.
  set (t0 := Rel.normalize_relationship subject predicate obj).
  destruct (Rel.triple_eqb t0 t) eqn:E.
  - apply triple_eqb_eq in E. subst t. rewrite Ht.
    destruct (PyVal.or_empty properties) as [|item rest]; [eauto|].
    rewrite tget_tset_same. eexists. split; [reflexivity|].
    now apply merge_properties_keeps_stored.
  - assert (Hne : t0 <> t).
    { intros ->. now rewrite triple_eqb_refl in E. }
    destruct (Dict.get Rel.triple_eqb rels t0);
      [destruct (PyVal.or_empty properties); [eauto|] |];
      rewrite tget_tset_other by assumption; eauto.
Qed.

Lemma add_relationship_keeps_stored_values_witness :
  exists stored',
    Dict.get Rel.triple_eqb
             (Rel.add_relationship
                (Rel.add_relationship Rel.init "a" "supports" "b"
                   (Some [("source", VAtom (AStr "doc1.md"))]))
                "a" "Support" "b"
                (Some [("source", VAtom (AStr "doc2.md")); ("weight", VAtom (AInt 2))]))
             ("a", "supports", "b")
    = Some stored'
    /\ sget stored' "source" = Some (VAtom (AStr "doc1.md")).
Proof.
  apply (add_relationship_keeps_stored_values
           (Rel.add_relationship Rel.init "a" "supports" "b"
              (Some [("source", VAtom (AStr "doc1.md"))]))
           "a" "Support" "b"
           (Some [("source", VAtom (AStr "doc2.md")); ("weight", VAtom (AInt 2))])
           ("a", "supports", "b") [("source", VAtom (AStr "doc1.md"))]).
  - reflexivity.
  - reflexivity.
Defined.

Lemma str_lower_idempotent p : Rel.str_lower (Rel.str_lower p) = Rel.str_lower p.
Proof.
  unfold Rel.str_lower, PyStr.to_string, PyStr.of_string, PyStr.lower.
  rewrite list_ascii_of_string_of_list_ascii, map_map.
  f_equal. apply map_ext. intros c. apply NormalizerFacts.lower_char_idempotent.
Qed.

Lemma predicate_map_values lp q :
  sget Rel.predicate_map lp = Some q ->
  q = "supports" \/ q = "opposes" \/ q = "addresses".
Proof.
  cbn [Dict.get Rel.predicate_map].
  repeat match goal with
         | |- context [String.eqb ?a lp] => destruct (String.eqb a lp)
         end;
    intros H; inversion H; auto; discriminate.
Qed.

(** X16. The predicate is normalized once and for all, and without regard
    to case: normalizing a normalized triple gives the same triple, and a
    predicate and its lower-case form give the same triple. *)
Theorem normalize_relationship_idempotent (subject predicate obj : string) :
  (let '(s, p, o) := Rel.normalize_relationship subject predicate obj in
   Rel.normalize_relationship s p o)
  = Rel.normalize_relationship subject predicate obj
  /\ Rel.normalize_relationship subject (Rel.str_lower predicate) obj
     = Rel.normalize_relationship subject predicate obj.
Proof.
  unfold Rel.normalize_relationship. split.
  - destruct (sget Rel.predicate_map (Rel.str_lower predicate)) as [q|] eqn:E.
    + apply predicate_map_values in E. destruct E as [->|[->| ->]]; reflexivity.
    + now rewrite str_lower_idempotent, E.
  - now rewrite str_lower_idempotent.
Qed.

Lemma normalized_triple_fixed subject predicate obj :
  let t := Rel.normalize_relationship subject predicate obj in
  Rel.normalize_relationship (fst (fst t)) (snd (fst t)) (snd t) = t.
Proof.
  cbv zeta. unfold Rel.normalize_relationship. cbn [fst snd].
  destruct (sget Rel.predicate_map (Rel.str_lower predicate)) as [q|] eqn:E.
  - apply predicate_map_values in E. destruct E as [->|[->| ->]]; reflexivity.
  - now rewrite str_lower_idempotent, E.
Qed.

Lemma add_relationship_keys rels subject predicate obj properties :
  let t := Rel.normalize_relationship subject predicate obj in
  map fst (Rel.add_relationship rels subject predicate obj properties)
  = match Dict.get Rel.triple_eqb rels t with
    | Some _ => map fst rels
    | None => map fst rels ++ [t]
    end.
Proof.
  cbv zeta. unfold Rel.add_relationship.
  destruct (Dict.get Rel.triple_eqb rels _) as [stored|] eqn:E.
  - destruct (PyVal.or_empty properties); [reflexivity|].
    now rewrite tkeys_tset, E.
  - now rewrite tkeys_tset, E.
Qed.

Lemma add_relationships_invariant calls : forall rels,
  NoDup (map fst rels) ->
  Forall (fun t : Rel.triple =>
            Rel.normalize_relationship (fst (fst t)) (snd (fst t)) (snd t) = t)
         (map fst rels) ->
  let rels' := add_relationships rels calls in
  NoDup (map fst rels')
  /\ Forall (fun t : Rel.triple =>
               Rel.normalize_relationship (fst (fst t)) (snd (fst t)) (snd t) = t)
            (map fst rels')
  /\ (List.length rels' <= List.length rels + List.length calls)%nat.
Proof.
  induction calls as [|[[[s p] o] props] calls IH]; intros rels Hnd Hfix; cbv zeta.
  - cbn [add_relationships fold_left List.length]. repeat split; auto. lia.
  - unfold add_relationships. cbn [fold_left]. fold (add_relationships
      (Rel.add_relationship rels s p o props) calls).
    pose proof (add_relationship_keys rels s p o props) as Hk. cbv zeta in Hk.
    destruct (IH (Rel.add_relationship rels s p o props)) as [H1 [H2 H3]].
    + rewrite Hk. destruct (Dict.get Rel.triple_eqb rels _) eqn:E; [assumption|].
      apply NoDup_app; [assumption | repeat constructor; intros [] |].
      intros a Ha [<-|[]]. now apply tget_none_keys in E.
    + rewrite Hk. destruct (Dict.get Rel.triple_eqb rels _) eqn:E; [assumption|].
      apply Forall_app. split; [assumption|]. constructor; [|constructor].
      apply normalized_triple_fixed.
    + cbv zeta in H1, H2, H3. repeat split; auto.
      assert (Hl : (List.length (Rel.add_relationship rels s p o props)
                    <= List.length rels + 1)%nat).
      { rewrite <- (length_map fst), Hk.
        destruct (Dict.get Rel.triple_eqb rels _);
          rewrite ?length_app, !length_map; cbn [List.length]; lia. }
      cbn [List.length]. lia.
Qed.

(** X17. After any run of [add_relationship] calls on a new store,
    [get_relationships] returns one record per stored triple, no two
    records are for the same triple, every stored triple is in normal form,
    and there are at most as many records as there were calls. *)
Theorem relationships_are_distinct
        (calls : list (string * string * string * option (list (string * pyval)))) :
  let rels := add_relationships Rel.init calls in
  List.length (Rel.get_relationships rels) = List.length rels
  /\ NoDup (map fst rels)
  /\ Forall (fun t : Rel.triple =>
               Rel.normalize_relationship (fst (fst t)) (snd (fst t)) (snd t) = t)
            (map fst rels)
  /\ (List.length (Rel.get_relationships rels) <= List.length calls)%nat.
Proof.
  cbv zeta.
  destruct (add_relationships_invariant calls Rel.init) as [H1 [H2 H3]];
    [constructor | constructor |].
  cbv zeta in H1, H2, H3. unfold Rel.get_relationships. rewrite length_map.
  repeat split; auto.
Qed.

(** X18. A record of [get_relationships] is the stored properties laid
    over the three keys of the triple: every stored property is in the
    record, under its key and with its value (a property named ['subject'],
    ['predicate'] or ['object'] takes the place of that part of the triple),
    and every other key reads as in the triple's three entries. *)
Theorem relationship_record
        (rels : Rel.relationships) (i : nat) (t : Rel.triple)
        (props : list (string * pyval)) :
  nth_error rels i = Some (t, props) ->
  NoDup (map fst props) ->
  exists record,
    nth_error (Rel.get_relationships rels) i = Some record
    /\ (forall k v, sget props k = Some v -> sget record k = Some v)
    /\ (forall k, sget props k = None -> sget record k = sget (triple_record t) k).
Proof.
  intros H Hnd. unfold Rel.get_relationships.
  rewrite nth_error_map, H. cbn [option_map].
  destruct t as [[subj pred] obj]. eexists. split; [reflexivity|]. split.
  - intros k v Hk. now apply (overlay_present (fun x : pyval => x)).
  - intros k Hk. apply (overlay_absent (fun x : pyval => x)).
    now apply sget_none_keys.
Qed.

Lemma relationship_record_witness :
  exists record,
    nth_error (Rel.get_relationships
                 (Rel.add_relationship Rel.init "a" "Support" "b"
                    (Some [("source", VAtom (AStr "doc1.md"))]))) 0
    = Some record
    /\ (forall k v, sget [("source", VAtom (AStr "doc1.md"))] k = Some v
                    -> sget record k = Some v)
    /\ (forall k, sget [("source", VAtom (AStr "doc1.md"))] k = None
                  -> sget record k = sget (triple_record ("a", "supports", "b")) k).
Proof.
  apply (relationship_record
           (Rel.add_relationship Rel.init "a" "Support" "b"
              (Some [("source", VAtom (AStr "doc1.md"))]))
           0 ("a", "supports", "b") [("source", VAtom (AStr "doc1.md"))]).
  - reflexivity.
  - repeat constructor. intros [].
Defined.

(** ** Sessions of the provenance tracker *)

Module SessionFacts.

Arguments Prov.generate_cid : simpl never.
Arguments Json.dumps : simpl never.

(** Properties that hold of [Prov.init] and that every call keeps hold at
    the end of a session. *)
Lemma run_invariant (P : ProvenanceTracker -> Prop) :
  P Prov.init ->
  (forall t uuid now entity source_doc source_cid position method,
      P t -> P (snd (Prov.record_observation t uuid now entity source_doc source_cid
                                              position method))) ->
  (forall t dr ids method cid t',
      P t -> Prov.create_canonical_entity t dr ids method = Prov.Ok (cid, t') -> P t') ->
  forall calls t, Prov.run Prov.init calls = Prov.Ok t -> P t.
Proof.
  intros Hinit Hrec Hcre calls. generalize Prov.init Hinit.
  induction calls as [|c calls IH]; intros t0 H0 t Hrun; cbn [Prov.run] in Hrun.
  - inversion Hrun; subst. exact H0.
  - destruct (Prov.step t0 c) as [t1|] eqn:Es; [|discriminate].
    apply (IH t1); auto.
    destruct c as [uuid now entity source_doc source_cid position method|dr ids method];
      cbn [Prov.step] in Es.
    + inversion Es; subst. now apply Hrec.
    + destruct (Prov.create_canonical_entity t0 dr ids method) as [[cid t1']|] eqn:Ec;
        [|discriminate].
      inversion Es; subst. eapply Hcre; eauto.
Qed.

Lemma create_canonical_entity_stores t dr ids method cid t' :
  Prov.create_canonical_entity t dr ids method = Prov.Ok (cid, t') ->
  resolutions t'
  = sset (resolutions t) ("res:" ++ Prov.uuid_resolution dr)%string
         (Prov.new_resolution dr cid ids method)
  /\ name_to_observations t' = name_to_observations t
  /\ doc_to_observations t' = doc_to_observations t
  /\ canonical_to_observations t'
     = fold_left (fun index obs_id => Prov.index_append index cid obs_id)
                 ids (canonical_to_observations t).
Proof.
  unfold Prov.create_canonical_entity.
  destruct ids as [|first_id more]; [discriminate|].
  destruct (Prov.find_existing t (first_id :: more)) as [existing|]; [|discriminate].
  destruct (match existing with Some _ => _ | None => _ end) as [[canonical_id c]|];
    [|discriminate].
  destruct (Prov.lookup_all (observations t) (first_id :: more)) as [obs|]; [|discriminate].
  intros H. inversion H; subst. cbn. repeat split.
Qed.

Lemma run_counts calls : forall t0 t,
  Prov.run t0 calls = Prov.Ok t ->
  List.length (transformations t)
  = (List.length (transformations t0) + List.length calls)%nat
  /\ (List.length (observations t)
      <= List.length (observations t0)
         + List.length (filter is_record_observation calls))%nat
  /\ (List.length (resolutions t)
      <= List.length (resolutions t0)
         + List.length (filter (fun c => negb (is_record_observation c)) calls))%nat
  /\ (List.length (canonical t)
      <= List.length (canonical t0)
         + List.length (filter (fun c => negb (is_record_observation c)) calls))%nat.
Proof.
  induction calls as [|c calls IH]; intros t0 t Hrun; cbn [Prov.run] in Hrun.
  - inversion Hrun; subst. cbn [filter List.length]. repeat split; lia.
  - destruct (Prov.step t0 c) as [t1|] eqn:Es; [|discriminate].
    destruct (IH _ _ Hrun) as [H1 [H2 [H3 H4]]].
    destruct c as [uuid now entity source_doc source_cid position method|dr ids method];
      cbn [Prov.step] in Es; cbn [filter is_record_observation negb List.length].
    + inversion Es; subst t1.
      unfold Prov.record_observation, Prov.record_transformation in *.
      cbn [snd observations resolutions canonical transformations] in *.
      rewrite length_app in H1. rewrite length_sset in H2. cbn [List.length] in H1.
      destruct (smem (observations t0) _); repeat split; lia.
    + destruct (Prov.create_canonical_entity t0 dr ids method) as [[cid t1']|] eqn:Ec;
        [|discriminate].
      inversion Es; subst t1'.
      destruct (ReplayFacts.create_canonical_entity_ok _ _ _ _ _ _ Ec)
        as [c [o [os [_ [_ [Ho [Hcan Hlog]]]]]]].
      destruct (create_canonical_entity_stores _ _ _ _ _ _ Ec) as [Hres _].
      rewrite Ho in H2. rewrite Hlog, length_app in H1. cbn [List.length] in H1.
      rewrite Hres, length_sset in H3. rewrite Hcan, length_sset in H4.
      destruct (smem (resolutions t0) _), (smem (canonical t0) _); repeat split; lia.
Qed.

Lemma without_cid_absent (transformation : list (string * json)) :
  sget transformation "cid" = None -> without_cid transformation = transformation.
Proof.
  unfold without_cid.
  induction transformation as [|[k v] rest IH]; cbn [Dict.get filter fst]; auto.
  destruct (String.eqb k "cid"); [discriminate|].
  intros H. cbn [negb]. now rewrite IH.
Qed.

Lemma without_cid_sset (transformation : list (string * json)) v :
  sget transformation "cid" = None ->
  without_cid (sset transformation "cid" v) = transformation.
Proof.
  unfold without_cid.
  induction transformation as [|[k x] rest IH]; cbn [Dict.get Dict.set filter fst].
  - intros _. cbn [filter fst String.eqb Ascii.eqb Bool.eqb andb negb]. reflexivity.
  - destruct (String.eqb k "cid") eqn:E; [discriminate|].
    intros H. cbn [filter fst]. rewrite E. cbn [negb]. now rewrite IH.
Qed.

Lemma certified_with_cid (transformation : list (string * json)) :
  sget transformation "cid" = None -> certified (Prov.with_cid transformation).
Proof.
  intros H. unfold certified, Prov.with_cid.
  now rewrite sget_sset_same, without_cid_sset.
Qed.

Lemma set_add_NoDup (x : string) (s : list string) :
  NoDup s -> NoDup (PySet.add String.eqb x s).
Proof.
  intros H. unfold PySet.add. destruct (PySet.mem String.eqb x s) eqn:E; auto.
  apply NoDup_app; [assumption | repeat constructor; intros [] |].
  intros a Ha [<-|[]]. apply set_mem_In in Ha. congruence.
Qed.

Lemma absorb_names_sound c o : names_sound c -> names_sound (Prov.absorb c o).
Proof.
  intros [H1 [H2 H3]]. unfold names_sound, Prov.absorb.
  cbn [CanonicalEntity.all_names CanonicalEntity.primary_name CanonicalEntity.observations].
  repeat split.
  - now apply set_add_NoDup.
  - apply set_add_In. now right.
  - apply Forall_app. split.
    + eapply Forall_impl; [|exact H3]. intros a Ha. apply set_add_In. now right.
    + constructor; [|constructor]. apply set_add_In. now left.
Qed.

Lemma absorb_led_by_first c o : led_by_first c -> led_by_first (Prov.absorb c o).
Proof.
  intros [first [rest [H1 [H2 H3]]]]. exists first, (rest ++ [o]).
  unfold Prov.absorb.
  cbn [CanonicalEntity.primary_name CanonicalEntity.entity_type CanonicalEntity.observations].
  now rewrite H1.
Qed.

Lemma absorb_all_sound obs : forall c,
  names_sound c /\ led_by_first c ->
  names_sound (fold_left Prov.absorb obs c) /\ led_by_first (fold_left Prov.absorb obs c).
Proof.
  induction obs as [|o obs IH]; intros c [H1 H2]; cbn [fold_left]; auto.
  apply IH. split; [now apply absorb_names_sound | now apply absorb_led_by_first].
Qed.

Lemma created_canonical_sound t dr ids method cid t' :
  (forall k c, In (k, c) (canonical t) -> canonical_sound c) ->
  Prov.create_canonical_entity t dr ids method = Prov.Ok (cid, t') ->
  forall k c, In (k, c) (canonical t') -> canonical_sound c.
Proof.
  intros Ht Hc k c Hin.
  destruct (ReplayFacts.create_canonical_entity_ok _ _ _ _ _ _ Hc)
    as [c0 [o [os [_ [Hcase [_ [Hcan _]]]]]]].
  rewrite Hcan in Hin. apply In_sset in Hin. destruct Hin as [[-> ->]|Hin]; [|eauto].
  cut (names_sound (fold_left Prov.absorb (o :: os) c0)
       /\ led_by_first (fold_left Prov.absorb (o :: os) c0)).
  { unfold canonical_sound, names_sound, led_by_first, Prov.close.
    cbn [CanonicalEntity.all_names CanonicalEntity.primary_name CanonicalEntity.observations
         CanonicalEntity.entity_type]. tauto. }
  destruct Hcase as [[_ Hex]|[_ [_ ->]]].
  - apply absorb_all_sound. apply sget_Some_In in Hex. apply Ht in Hex.
    destruct Hex. now split.
  - cbn [fold_left]. apply absorb_all_sound. split.
    + apply absorb_names_sound. unfold names_sound, Prov.new_canonical.
      cbn [CanonicalEntity.all_names CanonicalEntity.primary_name
           CanonicalEntity.observations].
      repeat split; [repeat constructor; intros [] | now left | constructor].
    + exists o, []. unfold Prov.absorb, Prov.new_canonical.
      cbn [CanonicalEntity.primary_name CanonicalEntity.entity_type
           CanonicalEntity.observations app]. auto.
Qed.

Lemma run_final calls :
  succeeds (Prov.run Prov.init calls) = true ->
  Prov.run Prov.init calls = Prov.Ok (final calls).
Proof.
  unfold final. destruct (Prov.run Prov.init calls); [reflexivity | discriminate].
Qed.

Lemma create_known t dr ids method cid :
  match Prov.create_canonical_entity t dr ids method with
  | Prov.Ok (c, _) => String.eqb c cid
  | Prov.Raise _ => false
  end = true ->
  exists t', Prov.create_canonical_entity t dr ids method = Prov.Ok (cid, t').
Proof.
  destruct (Prov.create_canonical_entity t dr ids method) as [[c t']|]; [|discriminate].
  intros H. apply String.eqb_eq in H. subst c. eauto.
Qed.

End SessionFacts.

(** X19. A session that raises nothing logs exactly one transformation per
    call; the metadata of [export_provenance_graph] then counts at most one
    observation per [record_observation], and at most one resolution and
    one canonical entity per [create_canonical_entity]. *)
Theorem export_metadata_counts (calls : list Prov.call) (t : ProvenanceTracker) (now : string) :
  Prov.run Prov.init calls = Prov.Ok t ->
  exists n_observations n_resolutions n_canonical,
    lookup (ProvReports.export_provenance_graph t now) ["metadata"; "total_transformations"]
    = Some (JInt (Z.of_nat (List.length calls)))
    /\ lookup (ProvReports.export_provenance_graph t now) ["metadata"; "total_observations"]
       = Some (JInt (Z.of_nat n_observations))
    /\ lookup (ProvReports.export_provenance_graph t now) ["metadata"; "total_resolutions"]
       = Some (JInt (Z.of_nat n_resolutions))
    /\ lookup (ProvReports.export_provenance_graph t now)
              ["metadata"; "total_canonical_entities"]
       = Some (JInt (Z.of_nat n_canonical))
    /\ (n_observations <= List.length (filter is_record_observation calls))%nat
    /\ (n_resolutions
        <= List.length (filter (fun c => negb (is_record_observation c)) calls))%nat
    /\ (n_canonical
        <= List.length (filter (fun c => negb (is_record_observation c)) calls))%nat.
Proof.
  intros Hrun. destruct (SessionFacts.run_counts _ _ _ Hrun) as [H1 [H2 [H3 H4]]].
  cbn [Prov.init transformations observations resolutions canonical List.length] in *.
  exists (List.length (observations t)), (List.length (resolutions t)),
    (List.length (canonical t)).
  unfold ProvReports.export_provenance_graph.
  cbn [lookup Dict.get String.eqb Ascii.eqb Bool.eqb andb].
  rewrite H1. repeat split; assumption.
Qed.

Lemma export_metadata_counts_witness :
  exists n_observations n_resolutions n_canonical,
    lookup (ProvReports.export_provenance_graph (final example_session)
                                                "2025-01-15T10:00:07+00:00")
           ["metadata"; "total_transformations"]
    = Some (JInt (Z.of_nat (List.length example_session)))
    /\ lookup (ProvReports.export_provenance_graph (final example_session)
                                                   "2025-01-15T10:00:07+00:00")
              ["metadata"; "total_observations"]
       = Some (JInt (Z.of_nat n_observations))
    /\ lookup (ProvReports.export_provenance_graph (final example_session)
                                                   "2025-01-15T10:00:07+00:00")
              ["metadata"; "total_resolutions"]
       = Some (JInt (Z.of_nat n_resolutions))
    /\ lookup (ProvReports.export_provenance_graph (final example_session)
                                                   "2025-01-15T10:00:07+00:00")
              ["metadata"; "total_canonical_entities"]
       = Some (JInt (Z.of_nat n_canonical))
    /\ (n_observations <= List.length (filter is_record_observation example_session))%nat
    /\ (n_resolutions
        <= List.length (filter (fun c => negb (is_record_observation c)) example_session))%nat
    /\ (n_canonical
        <= List.length (filter (fun c => negb (is_record_observation c)) example_session))%nat.
Proof.
  apply (export_metadata_counts example_session (final example_session)).
  apply SessionFacts.run_final. reflexivity.
Defined.

(** X20. Every record of the transformation log of a session carries, under
    ['cid'], the content id of its own dump without that entry: a reader of
    the log can check each record against its id. *)
Theorem transformations_are_certified (calls : list Prov.call) (t : ProvenanceTracker) :
  Prov.run Prov.init calls = Prov.Ok t ->
  Forall certified (transformations t).
Proof.
  apply (SessionFacts.run_invariant (fun t => Forall certified (transformations t))).
  - constructor.
  - intros t0 uuid now entity source_doc source_cid position method H.
    unfold Prov.record_observation, Prov.record_transformation. cbn [snd transformations].
    apply Forall_app. split; [assumption|]. constructor; [|constructor].
    now apply SessionFacts.certified_with_cid.
  - intros t0 dr ids method cid t' H Hc.
    destruct (ReplayFacts.create_canonical_entity_ok _ _ _ _ _ _ Hc)
      as [c [o [os [_ [_ [_ [_ Hlog]]]]]]].
    rewrite Hlog. apply Forall_app. split; [assumption|]. constructor; [|constructor].
    now apply SessionFacts.certified_with_cid.
Qed.

Lemma transformations_are_certified_witness :
  Forall certified (transformations (final example_session)).
Proof.
  apply (transformations_are_certified example_session).
  apply SessionFacts.run_final. reflexivity.
Defined.

(** X21. Every canonical entity of a session has at least one observation
    and takes its primary name and its entity type from the first one; its
    known names are distinct and hold the primary name and the name, as
    observed, of each of its observations. *)
Theorem canonical_entities_are_sound
        (calls : list Prov.call) (t : ProvenanceTracker)
        (cid : string) (c : CanonicalEntity.t) :
  Prov.run Prov.init calls = Prov.Ok t ->
  sget (canonical t) cid = Some c ->
  canonical_sound c.
Proof.
  intros Hrun Hc. apply sget_Some_In in Hc. revert cid c Hc.
  revert calls t Hrun.
  apply (SessionFacts.run_invariant
           (fun t => forall cid c, In (cid, c) (canonical t) -> canonical_sound c)).
  - intros ? ? [].
  - intros t0 uuid now entity source_doc source_cid position method H. exact H.
  - intros t0 dr ids method cid t' H Hc.
    eapply SessionFacts.created_canonical_sound; eauto.
Qed.

Lemma canonical_entities_are_sound_witness :
  exists c,
    sget (canonical (final example_session)) "entity:aaaaaaaaaaaa" = Some c
    /\ canonical_sound c.
Proof.
  destruct (sget_known (canonical (final example_session))
              "entity:aaaaaaaaaaaa" eq_refl) as [c E].
  exists c. split; [exact E|].
  apply (canonical_entities_are_sound example_session (final example_session)
           "entity:aaaaaaaaaaaa" c).
  - apply SessionFacts.run_final. reflexivity.
  - exact E.
Defined.

Module StoreFacts.

Arguments Prov.generate_cid : simpl never.
Arguments Json.dumps : simpl never.

Lemma absorb_all_fields obs : forall c,
  CanonicalEntity.canonical_id (fold_left Prov.absorb obs c) = CanonicalEntity.canonical_id c
  /\ CanonicalEntity.entity_type (fold_left Prov.absorb obs c) = CanonicalEntity.entity_type c
  /\ CanonicalEntity.resolutions (fold_left Prov.absorb obs c) = CanonicalEntity.resolutions c
  /\ CanonicalEntity.observations (fold_left Prov.absorb obs c)
     = CanonicalEntity.observations c ++ obs
  /\ (forall n, In n (CanonicalEntity.all_names c) ->
                In n (CanonicalEntity.all_names (fold_left Prov.absorb obs c)))
  /\ (forall o, In o obs ->
                In (EntityObservation.name o)
                   (CanonicalEntity.all_names (fold_left Prov.absorb obs c))).
Proof.
  induction obs as [|o obs IH]; intros c; cbn [fold_left].
  - rewrite app_nil_r. repeat split; auto. intros ? [].
  - destruct (IH (Prov.absorb c o)) as [H1 [H2 [H3 [H4 [H5 H6]]]]].
    change (CanonicalEntity.canonical_id (Prov.absorb c o))
      with (CanonicalEntity.canonical_id c) in H1.
    change (CanonicalEntity.entity_type (Prov.absorb c o))
      with (CanonicalEntity.entity_type c) in H2.
    change (CanonicalEntity.resolutions (Prov.absorb c o))
      with (CanonicalEntity.resolutions c) in H3.
    change (CanonicalEntity.observations (Prov.absorb c o))
      with (CanonicalEntity.observations c ++ [o]) in H4.
    change (CanonicalEntity.all_names (Prov.absorb c o))
      with (PySet.add String.eqb (EntityObservation.name o) (CanonicalEntity.all_names c))
      in H5.
    repeat split; auto.
    + rewrite H4, <- app_assoc. reflexivity.
    + intros n Hn. apply H5. apply set_add_In. now right.
    + intros o' [<-|Ho']; [|now apply H6].
      apply H5. apply set_add_In. now left.
Qed.

Lemma lookup_all_ids store ids obs :
  (forall i o, sget store i = Some o -> EntityObservation.observation_id o = i) ->
  Prov.lookup_all store ids = Prov.Ok obs ->
  map EntityObservation.observation_id obs = ids.
Proof.
  intros Hs. revert obs. induction ids as [|i ids IH]; intros obs H; cbn [Prov.lookup_all] in H.
  - now inversion H.
  - destruct (sget store i) as [o|] eqn:E; [|discriminate].
    destruct (Prov.lookup_all store ids) as [os|]; [|discriminate].
    inversion H; subst. cbn [map]. now rewrite (Hs _ _ E), (IH os).
Qed.

Lemma stores_sound_init : stores_sound Prov.init.
Proof. repeat split; try discriminate; try constructor; destruct H. Qed.

Lemma stores_sound_record t uuid now entity source_doc source_cid position method :
  stores_sound t ->
  stores_sound (snd (Prov.record_observation t uuid now entity source_doc source_cid
                                             position method)).
Proof.
  intros [H1 [H2 H3]]. unfold stores_sound, Prov.record_observation.
  cbn [snd observations canonical]. repeat split; auto; try (now apply (H3 cid c)).
  intros i o.
  change (EntityObservation.observation_id
            (Prov.new_observation uuid now entity source_doc source_cid position method))
    with ("obs:" ++ uuid)%string.
  destruct (String.string_dec ("obs:" ++ uuid)%string i) as [<-|Hne].
  - rewrite sget_sset_same. intros H. now inversion H.
  - rewrite sget_sset_other by assumption. apply H1.
Qed.

Lemma stores_sound_create t dr ids method cid t' :
  stores_sound t ->
  Prov.create_canonical_entity t dr ids method = Prov.Ok (cid, t') ->
  stores_sound t'.
Proof.
  intros [H1 [H2 H3]] Hc.
  destruct (ReplayFacts.create_canonical_entity_ok _ _ _ _ _ _ Hc)
    as [c0 [o [os [_ [Hcase [Ho [Hcan _]]]]]]].
  unfold stores_sound. rewrite Ho, Hcan. split; [exact H1|]. split.
  - destruct (sget (canonical t) cid) eqn:E.
    + rewrite keys_sset_present; [assumption | congruence].
    + rewrite keys_sset_absent by assumption.
      apply NoDup_app; [assumption | repeat constructor; intros [] |].
      intros a Ha [<-|[]]. now apply sget_none_keys in E.
  - intros k c Hin. apply In_sset in Hin. destruct Hin as [[-> ->]|Hin]; [|eauto].
    unfold Prov.close. cbn [CanonicalEntity.canonical_id].
    destruct (absorb_all_fields (o :: os) c0) as [-> _].
    destruct Hcase as [[_ Hex]|[_ [-> ->]]].
    + apply sget_Some_In in Hex. now apply H3.
    + split; reflexivity.
Qed.


Lemma index_append_lookup index cid i k :
  sget (Prov.index_append index cid i) k
  = if String.eqb cid k
    then Some (match sget index k with Some l => l | None => [] end ++ [i])
    else sget index k.
Proof.
  unfold Prov.index_append. destruct (String.eqb cid k) eqn:E.
  - apply String.eqb_eq in E. subst k.
    destruct (sget index cid); now rewrite sget_sset_same.
  - assert (cid <> k) by (intros ->; now rewrite String.eqb_refl in E).
    destruct (sget index cid); now rewrite sget_sset_other.
Qed.

Lemma index_fold_lookup cid ids : forall index k,
  sget (fold_left (fun index obs_id => Prov.index_append index cid obs_id) ids index) k
  = if String.eqb cid k
    then match ids with
         | [] => sget index k
         | _ => Some (match sget index k with Some l => l | None => [] end ++ ids)
         end
    else sget index k.
Proof.
  induction ids as [|i ids IH]; intros index k; cbn [fold_left].
  - now destruct (String.eqb cid k).
  - rewrite IH, index_append_lookup.
    destruct (String.eqb cid k); [|reflexivity].
    destruct ids; [reflexivity|]. now rewrite <- app_assoc.
Qed.

Lemma index_agrees_create t dr ids method cid t' :
  stores_sound t ->
  index_agrees t ->
  Prov.create_canonical_entity t dr ids method = Prov.Ok (cid, t') ->
  match Prov.find_existing t ids with
  | Prov.Ok (Some _) => true
  | _ => negb (smem (canonical t) ("entity:" ++ Prov.uuid_canonical dr)%string)
  end = true ->
  index_agrees t'.
Proof.
  intros [Hs _] Hi Hc Hf k.
  destruct (ReplayFacts.create_canonical_entity_ok _ _ _ _ _ _ Hc)
    as [c0 [o [os [Hl [Hcase [_ [Hcan _]]]]]]].
  destruct (SessionFacts.create_canonical_entity_stores _ _ _ _ _ _ Hc) as [_ [_ [_ Hidx]]].
  rewrite Hidx, Hcan, index_fold_lookup.
  pose proof (lookup_all_ids _ _ _ Hs Hl) as Hids.
  destruct (String.eqb cid k) eqn:E.
  - apply String.eqb_eq in E. subst k. rewrite sget_sset_same. cbn [option_map].
    unfold Prov.close. cbn [CanonicalEntity.observations].
    destruct (absorb_all_fields (o :: os) c0) as [_ [_ [_ [-> _]]]].
    rewrite map_app, Hids.
    destruct ids as [|i ids]; [discriminate Hids|].
    f_equal. f_equal. rewrite (Hi cid).
    destruct Hcase as [[_ Hex]|[Hnone [-> ->]]].
    + now rewrite Hex.
    + rewrite Hnone in Hf. unfold Dict.mem in Hf.
      destruct (sget (canonical t) _); [discriminate | reflexivity].
  - assert (cid <> k) by (intros ->; now rewrite String.eqb_refl in E).
    rewrite sget_sset_other by assumption. apply Hi.
Qed.

Lemma index_agrees_run calls : forall t t',
  stores_sound t -> index_agrees t ->
  Prov.run t calls = Prov.Ok t' ->
  Replay.fresh_draws t calls = true ->
  index_agrees t'.
Proof.
  induction calls as [|c calls IH]; intros t t' Hs Hi Hrun Hf; cbn [Prov.run] in Hrun.
  - inversion Hrun; subst. exact Hi.
  - cbn [Replay.fresh_draws] in Hf. apply andb_true_iff in Hf. destruct Hf as [Hf1 Hf2].
    destruct (Prov.step t c) as [t1|] eqn:Es; [|discriminate].
    destruct c as [uuid now entity source_doc source_cid position method|dr ids method];
      cbn [Prov.step] in Es.
    + assert (Et : t1 = snd (Prov.record_observation t uuid now entity source_doc source_cid
                                                      position method)) by congruence.
      subst t1. refine (IH _ t' _ _ Hrun Hf2); auto.
      now apply stores_sound_record.
    + destruct (Prov.create_canonical_entity t dr ids method) as [[cid t1']|] eqn:Ec;
        [|discriminate].
      inversion Es; subst. refine (IH _ t' _ _ Hrun Hf2).
      * eapply stores_sound_create; eauto.
      * eapply index_agrees_create; eauto.
Qed.

End StoreFacts.

(** X22. In a session whose drawn ids are new, the index
    [canonical_to_observations] lists for every canonical entity exactly
    the ids of the observations the entity holds, in the same order, and
    has no entry for any other id. *)
Theorem index_lists_the_observations
        (calls : list Prov.call) (t : ProvenanceTracker) (cid : string) :
  Prov.run Prov.init calls = Prov.Ok t ->
  Replay.fresh_draws Prov.init calls = true ->
  sget (canonical_to_observations t) cid
  = option_map (fun c => map EntityObservation.observation_id (CanonicalEntity.observations c))
               (sget (canonical t) cid).
Proof.
  intros Hrun Hf.
  apply (StoreFacts.index_agrees_run calls Prov.init t); auto.
  - exact StoreFacts.stores_sound_init.
  - intros k. reflexivity.
Qed.

Lemma index_lists_the_observations_witness :
  sget (canonical_to_observations (final example_session)) "entity:aaaaaaaaaaaa"
  = option_map (fun c => map EntityObservation.observation_id (CanonicalEntity.observations c))
               (sget (canonical (final example_session)) "entity:aaaaaaaaaaaa").
Proof.
  apply (index_lists_the_observations example_session).
  - apply SessionFacts.run_final. reflexivity.
  - reflexivity.
Defined.

Module ResolveFacts.

Arguments Prov.generate_cid : simpl never.
Arguments Json.dumps : simpl never.

Lemma find_matching_canonical_find t observation :
  Prov.find_matching_canonical t observation
  = option_map fst (find (observation_matches observation) (canonical t)).
Proof.
  unfold Prov.find_matching_canonical, observation_matches.
  destruct (find _ (canonical t)) as [[cid c]|]; reflexivity.
Qed.

Section FindSet.
Context {V : Type}.
Variable P : string * V -> bool.



End FindSet.





End ResolveFacts.


Module AgainFacts.
Import ResolveFacts.

Arguments Prov.generate_cid : simpl never.
Arguments Json.dumps : simpl never.



End AgainFacts.



(** ** The provenance of a canonical entity *)

Module ProvenanceFacts.

Arguments Prov.generate_cid : simpl never.
Arguments Json.dumps : simpl never.

Lemma startswith_refl l : PyRepr.startswith l l = true.
Proof.
  induction l as [|c l IH]; cbn [PyRepr.startswith]; auto.
  now rewrite Ascii.eqb_refl.
Qed.

Lemma contains_refl s : PyRepr.contains s s = true.
Proof.
  unfold PyRepr.contains. destruct (PyStr.of_string s) as [|c l]; [reflexivity|].
  unfold PyRepr.contains_chars. now rewrite startswith_refl.
Qed.

Lemma field_str_with_cid (transformation : list (string * json)) k :
  k <> "cid" ->
  ProvReports.field_str (Prov.with_cid transformation) k
  = ProvReports.field_str transformation k.
Proof.
  intros H. unfold ProvReports.field_str.
  now rewrite ReplayFacts.stored_record_fields.
Qed.

Lemma resolve_record_fields t cid (resolution : EntityResolution.t) :
  ProvReports.concerns t cid (Prov.with_cid (Prov.resolve_transformation resolution))
  = PyRepr.contains cid (EntityResolution.canonical_id resolution)
    || existsb (fun obs_id =>
                  PyRepr.contains obs_id
                    (PyRepr.str (JList (map JStr (EntityResolution.observation_ids
                                                    resolution)))))
               (match sget (canonical_to_observations t) cid with
                | Some ids => ids
                | None => []
                end).
Proof.
  unfold ProvReports.concerns. rewrite !field_str_with_cid by discriminate. reflexivity.
Qed.

Lemma extract_record_fields t cid (observation : EntityObservation.t) :
  ProvReports.concerns t cid (Prov.with_cid (Prov.extract_transformation observation))
  = PyRepr.contains cid (EntityObservation.observation_id observation)
    || existsb (fun obs_id => PyRepr.contains obs_id (EntityObservation.source_cid observation))
               (match sget (canonical_to_observations t) cid with
                | Some ids => ids
                | None => []
                end).
Proof.
  unfold ProvReports.concerns. rewrite !field_str_with_cid by discriminate. reflexivity.
Qed.

Lemma provenance_known t cid :
  smem (canonical t) cid = true ->
  exists provenance, ProvReports.get_entity_provenance t cid = Some provenance.
Proof.
  unfold Dict.mem, ProvReports.get_entity_provenance.
  destruct (sget (canonical t) cid); [eauto | discriminate].
Qed.

End ProvenanceFacts.

(** X25. After [create_canonical_entity] has returned a canonical id,
    [get_entity_provenance] has a record for that id; the record names the
    id, lists the resolution among its resolutions and the [Resolve] record
    of the call among its transformations, and counts as
    ['total_observations'] the observations it lists. *)
Theorem provenance_lists_the_resolution
        (t t' : ProvenanceTracker) (dr : Prov.draws) (ids : list string)
        (method : string) (cid : string) :
  Prov.create_canonical_entity t dr ids method = Prov.Ok (cid, t') ->
  exists provenance,
    ProvReports.get_entity_provenance t' cid = Some provenance
    /\ lookup provenance ["@id"] = Some (JStr cid)
    /\ In (ProvReports.resolution_entry (Prov.new_resolution dr cid ids method))
          (listed provenance "resolutions")
    /\ In (JDict (Prov.with_cid
                    (Prov.resolve_transformation (Prov.new_resolution dr cid ids method))))
          (listed provenance "transformations")
    /\ lookup provenance ["statistics"; "total_observations"]
       = Some (JInt (Z.of_nat (List.length (listed provenance "observations"))))
    /\ (List.length ids <= List.length (listed provenance "observations"))%nat.
Proof.
  intros Hc.
  destruct (ReplayFacts.create_canonical_entity_ok _ _ _ _ _ _ Hc)
    as [c0 [o [os [Hl [_ [_ [Hcan Hlog]]]]]]].
  unfold ProvReports.get_entity_provenance. rewrite Hcan, sget_sset_same.
  eexists. split; [reflexivity|].
  unfold listed. cbn [lookup Dict.get String.eqb Ascii.eqb Bool.eqb andb].
  unfold Prov.close. cbn [CanonicalEntity.resolutions CanonicalEntity.observations].
  destruct (StoreFacts.absorb_all_fields (o :: os) c0) as [_ [_ [Hres [Hobs _]]]].
  repeat split.
  - rewrite map_app. apply in_or_app. right. now left.
  - apply in_map. apply filter_In. split.
    + rewrite Hlog. apply in_or_app. right. now left.
    + rewrite ProvenanceFacts.resolve_record_fields.
      cbn [Prov.new_resolution EntityResolution.canonical_id].
      now rewrite ProvenanceFacts.contains_refl.
  - now rewrite length_map.
  - rewrite length_map, Hobs, length_app.
    destruct (ReplayFacts.lookup_all_present _ _ _ Hl) as [Hlen _]. lia.
Qed.

Lemma provenance_lists_the_resolution_witness :
  exists t' provenance,
    Prov.create_canonical_entity (final (firstn 6 example_session))
      {| Prov.uuid_canonical := "cccccccccccc"; Prov.uuid_resolution := "dddddddddddd";
         Prov.now_created := "2025-01-15T10:00:06+00:00";
         Prov.now_first_updated := "2025-01-15T10:00:06+00:00";
         Prov.now_resolution := "2025-01-15T10:00:06+00:00";
         Prov.now_last_updated := "2025-01-15T10:00:06+00:00" |}
      ["obs:000000000002"] "similarity"
    = Prov.Ok ("entity:cccccccccccc", t')
    /\ ProvReports.get_entity_provenance t' "entity:cccccccccccc" = Some provenance
    /\ lookup provenance ["@id"] = Some (JStr "entity:cccccccccccc")
    /\ In (ProvReports.resolution_entry
             (Prov.new_resolution
                {| Prov.uuid_canonical := "cccccccccccc"; Prov.uuid_resolution := "dddddddddddd";
                   Prov.now_created := "2025-01-15T10:00:06+00:00";
                   Prov.now_first_updated := "2025-01-15T10:00:06+00:00";
                   Prov.now_resolution := "2025-01-15T10:00:06+00:00";
                   Prov.now_last_updated := "2025-01-15T10:00:06+00:00" |}
                "entity:cccccccccccc" ["obs:000000000002"] "similarity"))
          (listed provenance "resolutions")
    /\ In (JDict (Prov.with_cid
                    (Prov.resolve_transformation
                       (Prov.new_resolution
                          {| Prov.uuid_canonical := "cccccccccccc";
                             Prov.uuid_resolution := "dddddddddddd";
                             Prov.now_created := "2025-01-15T10:00:06+00:00";
                             Prov.now_first_updated := "2025-01-15T10:00:06+00:00";
                             Prov.now_resolution := "2025-01-15T10:00:06+00:00";
                             Prov.now_last_updated := "2025-01-15T10:00:06+00:00" |}
                          "entity:cccccccccccc" ["obs:000000000002"] "similarity"))))
          (listed provenance "transformations")
    /\ lookup provenance ["statistics"; "total_observations"]
       = Some (JInt (Z.of_nat (List.length (listed provenance "observations"))))
    /\ (List.length ["obs:000000000002"] <= List.length (listed provenance "observations"))%nat.
Proof.
  destruct (SessionFacts.create_known (final (firstn 6 example_session))
              {| Prov.uuid_canonical := "cccccccccccc"; Prov.uuid_resolution := "dddddddddddd";
                 Prov.now_created := "2025-01-15T10:00:06+00:00";
                 Prov.now_first_updated := "2025-01-15T10:00:06+00:00";
                 Prov.now_resolution := "2025-01-15T10:00:06+00:00";
                 Prov.now_last_updated := "2025-01-15T10:00:06+00:00" |}
              ["obs:000000000002"] "similarity" "entity:cccccccccccc" eq_refl) as [t' E].
  destruct (provenance_lists_the_resolution _ _ _ _ _ _ E) as [provenance H].
  exists t', provenance. split; [exact E | exact H].
Defined.

(** X26. The [Extract] record of an observation is listed in the provenance
    of a canonical entity exactly when the canonical id occurs in the
    observation id, or the id of one of the entity's indexed observations
    occurs in the content id of the source document: the test reads
    ['fromState'], where an [Extract] record holds the source's content id,
    so that the observation's own id is not what makes its record listed. *)
Theorem extract_record_listing
        (t : ProvenanceTracker) (cid : string)
        (observation : EntityObservation.t) (provenance : json) :
  ProvReports.get_entity_provenance t cid = Some provenance ->
  In (Prov.with_cid (Prov.extract_transformation observation)) (transformations t) ->
  (In (JDict (Prov.with_cid (Prov.extract_transformation observation)))
      (listed provenance "transformations")
   <-> PyRepr.contains cid (EntityObservation.observation_id observation)
       || existsb (fun obs_id =>
                     PyRepr.contains obs_id (EntityObservation.source_cid observation))
                  (match sget (canonical_to_observations t) cid with
                   | Some ids => ids
                   | None => []
                   end)
       = true).
Proof.
  unfold ProvReports.get_entity_provenance.
  destruct (sget (canonical t) cid) as [c1|]; [|discriminate].
  intros H Hin. inversion H; subst provenance. clear H.
  unfold listed. cbn [lookup Dict.get String.eqb Ascii.eqb Bool.eqb andb].
  rewrite <- ProvenanceFacts.extract_record_fields. split.
  - intros H. apply in_map_iff in H. destruct H as [r [Heq Hr]].
    inversion Heq; subst r. apply filter_In in Hr. tauto.
  - intros H. apply in_map. apply filter_In. tauto.
Qed.

Lemma extract_record_listing_witness :
  exists provenance,
    ProvReports.get_entity_provenance (final example_session) "entity:aaaaaaaaaaaa"
    = Some provenance
    /\ (In (JDict (Prov.with_cid
                     (Prov.extract_transformation
                        (Prov.new_observation "000000000001" "2025-01-15T10:00:00+00:00"
                           (entity_of "regen:Agent" "Regen Network"
                              [("website", VAtom (AStr "https://regen.network"))])
                           "data/notion/page1.md" "cid:sha256:abc123" None "mistral:7b"))))
           (listed provenance "transformations")
        <-> false = true).
Proof.
  destruct (ProvenanceFacts.provenance_known (final example_session)
              "entity:aaaaaaaaaaaa" eq_refl) as [provenance E].
  exists provenance. split; [exact E|].
  apply (extract_record_listing (final example_session) "entity:aaaaaaaaaaaa"
           (Prov.new_observation "000000000001" "2025-01-15T10:00:00+00:00"
              (entity_of "regen:Agent" "Regen Network"
                 [("website", VAtom (AStr "https://regen.network"))])
              "data/notion/page1.md" "cid:sha256:abc123" None "mistral:7b")
           provenance E).
  left. reflexivity.
Defined.

(** The provenance of the first canonical entity of the example session
    lists one transformation, the [Resolve] record; the [Extract] records of
    its three observations are not among them. *)
Example example_provenance_transformations :
  option_map (fun provenance =>
                map (fun r => lookup r ["process"]) (listed provenance "transformations"))
             (ProvReports.get_entity_provenance (final example_session) "entity:aaaaaaaaaaaa")
  = Some [Some (JStr "Resolve")].
Proof. reflexivity. Qed.

(** ** Recording and matching observations *)

(** X27. [record_observation] files the observation it builds under the id
    it returns, leaves every other observation and the canonical store as
    they were, and appends the id to the index entries of the normalized
    name and of the source document; the observation keeps no entry of the
    record under ['@type'], ['name'] or ['@id'] among its properties. *)
Theorem record_observation_is_stored
        (t : ProvenanceTracker) (uuid now : string) (entity : Entity)
        (source_doc source_cid : string) (position : option (list (string * pyval)))
        (method : string) :
  let result :=
    Prov.record_observation t uuid now entity source_doc source_cid position method in
  let observation :=
    Prov.new_observation uuid now entity source_doc source_cid position method in
  fst result = ("obs:" ++ uuid)%string
  /\ sget (observations (snd result)) (fst result) = Some observation
  /\ (forall i, String.eqb i (fst result) = false ->
                sget (observations (snd result)) i = sget (observations t) i)
  /\ sget (name_to_observations (snd result))
          (Prov.normalize_name (EntityObservation.name observation))
     = Some (match sget (name_to_observations t)
                        (Prov.normalize_name (EntityObservation.name observation))
             with Some ids => ids | None => [] end ++ [fst result])
  /\ sget (doc_to_observations (snd result)) source_doc
     = Some (match sget (doc_to_observations t) source_doc
             with Some ids => ids | None => [] end ++ [fst result])
  /\ canonical (snd result) = canonical t
  /\ Forall (fun kv : string * pyval => Ent.not_reserved (fst kv) = true)
            (EntityObservation.properties observation).
Proof.
  cbv zeta. unfold Prov.record_observation.
  cbn [fst snd observations name_to_observations doc_to_observations canonical].
  change (EntityObservation.observation_id
            (Prov.new_observation uuid now entity source_doc source_cid position method))
    with ("obs:" ++ uuid)%string.
  change (EntityObservation.name
            (Prov.new_observation uuid now entity source_doc source_cid position method))
    with (Ent.get_name entity "").
  repeat split.
  - apply sget_sset_same.
  - intros i Hi. apply sget_sset_other. intros <-. now rewrite String.eqb_refl in Hi.
  - rewrite StoreFacts.index_append_lookup. now rewrite String.eqb_refl.
  - rewrite StoreFacts.index_append_lookup. now rewrite String.eqb_refl.
  - unfold Prov.new_observation. cbn [EntityObservation.properties].
    apply Forall_forall. intros kv Hkv. apply filter_In in Hkv. tauto.
Qed.

(** X28. [find_matching_canonical] answers with the first canonical entity,
    in store order, that has the entity type of the observation and knows a
    name with the same normal form as the observed one; it answers [None]
    exactly when the store has no such entity. It never matches across
    entity types. *)
Theorem find_matching_canonical_answer
        (t : ProvenanceTracker) (observation : EntityObservation.t) :
  match Prov.find_matching_canonical t observation with
  | Some cid =>
      exists c before after,
        canonical t = before ++ (cid, c) :: after
        /\ CanonicalEntity.entity_type c = EntityObservation.entity_type observation
        /\ (exists n, In n (CanonicalEntity.all_names c)
                      /\ Prov.normalize_name n
                         = Prov.normalize_name (EntityObservation.name observation))
        /\ forallb (fun item => negb (observation_matches observation item)) before = true
  | None =>
      forallb (fun item => negb (observation_matches observation item)) (canonical t) = true
  end.
Proof.
  rewrite ResolveFacts.find_matching_canonical_find.
  induction (canonical t) as [|[k c] r IH]; cbn [find option_map forallb]; [reflexivity|].
  destruct (observation_matches observation (k, c)) eqn:E; cbn [option_map fst negb andb].
  - exists c, [], r. split; [reflexivity|].
    unfold observation_matches in E. cbn [snd] in E.
    apply andb_true_iff in E. destruct E as [E1 E2].
    apply String.eqb_eq in E1. split; [congruence|]. split; [|reflexivity].
    unfold Prov.knows_name in E2. apply existsb_exists in E2.
    destruct E2 as [n [Hn Hm]]. apply String.eqb_eq in Hm. eauto.
  - destruct (find (observation_matches observation) r) as [[k' c']|];
      cbn [option_map fst] in *; [|exact IH].
    destruct IH as [c0 [before [after [H1 [H2 [H3 H4]]]]]].
    exists c0, ((k, c) :: before), after. rewrite H1. repeat split; auto.
    cbn [forallb]. now rewrite E, H4.
Qed.

(** ** Normalized names and canonical ids *)

(** X29. A normalized name is empty or made of words separated by single
    blanks, with no blank at either end; every character of a word is a
    word character or a hyphen that [str.lower] leaves as it is. *)
Theorem normalized_name_is_tidy (name : string) :
  NormalForm.tidy (PyStr.of_string (Dedup.normalize_name name)) = true.
Proof.
  unfold Dedup.normalize_name, Normalizer.normalize_name, PyStr.to_string, PyStr.of_string.
  rewrite list_ascii_of_string_of_list_ascii.
  apply NormalizerFacts.normalize_chars_tidy.
Qed.

Lemma In_firstn {A : Type} (n : nat) (l : list A) x : In x (firstn n l) -> In x l.
Proof.
  intros H. rewrite <- (firstn_skipn n l). apply in_or_app. now left.
Qed.

Lemma app_eq_length {A : Type} (a c b d : list A) :
  a ++ b = c ++ d -> List.length b = List.length d -> a = c /\ b = d.
Proof.
  revert c. induction a as [|x a IH]; intros [|y c] H Hl; cbn [app] in H.
  - auto.
  - exfalso. apply (f_equal (@List.length A)) in H.
    cbn [List.length] in H. rewrite length_app in H. lia.
  - exfalso. apply (f_equal (@List.length A)) in H.
    cbn [List.length] in H. rewrite length_app in H. lia.
  - inversion H; subst. destruct (IH c H2 Hl) as [-> ->]. auto.
Qed.

Module DigestFacts.
Import Sha256.

Lemma compress_length h block :
  List.length h = 8%nat -> List.length (compress h block) = 8%nat.
Proof.
  intros H. unfold compress. rewrite length_map, length_combine, H. reflexivity.
Qed.

Lemma digest_words_length msg : List.length (digest_words msg) = 8%nat.
Proof.
  unfold digest_words. generalize (chunks 64 (List.length (pad msg) / 64) (pad msg)).
  assert (H : List.length H0 = 8%nat) by reflexivity. revert H. generalize H0.
  intros h H blocks. revert h H.
  induction blocks as [|b blocks IH]; intros h H; cbn [fold_left]; auto.
  apply IH. now apply compress_length.
Qed.

Lemma hex_digit_is_hex d : (0 <= d < 16)%Z -> is_hex_digit (hex_digit d) = true.
Proof.
  intros H.
  assert (Hd : (d = 0 \/ d = 1 \/ d = 2 \/ d = 3 \/ d = 4 \/ d = 5 \/ d = 6 \/ d = 7
                \/ d = 8 \/ d = 9 \/ d = 10 \/ d = 11 \/ d = 12 \/ d = 13 \/ d = 14
                \/ d = 15)%Z) by lia.
  repeat (destruct Hd as [->|Hd]; [reflexivity|]). subst. reflexivity.
Qed.

Lemma hex_word_shape x :
  List.length (hex_word x) = 8%nat
  /\ Forall (fun c => is_hex_digit c = true) (hex_word x).
Proof.
  unfold hex_word. split; [now rewrite length_map|].
  apply Forall_forall. intros c Hc. apply in_map_iff in Hc.
  destruct Hc as [i [<- _]]. apply hex_digit_is_hex.
  apply Z.mod_pos_bound. lia.
Qed.

Lemma flat_map_shape (words : list Z) :
  List.length (flat_map hex_word words) = (8 * List.length words)%nat
  /\ Forall (fun c => is_hex_digit c = true) (flat_map hex_word words).
Proof.
  induction words as [|w words [IH1 IH2]]; cbn [flat_map List.length].
  - split; [reflexivity | constructor].
  - destruct (hex_word_shape w) as [H1 H2]. split.
    + rewrite length_app, H1, IH1. lia.
    + apply Forall_app. now split.
Qed.

Lemma hexdigest_shape msg :
  List.length (hexdigest msg) = 64%nat
  /\ Forall (fun c => is_hex_digit c = true) (hexdigest msg).
Proof.
  unfold hexdigest. destruct (flat_map_shape (digest_words msg)) as [H1 H2].
  rewrite digest_words_length in H1. now split.
Qed.

Lemma hexdigest_prefix msg n :
  (n <= 64)%nat ->
  List.length (firstn n (hexdigest msg)) = n
  /\ Forall (fun c => is_hex_digit c = true) (firstn n (hexdigest msg)).
Proof.
  intros Hn. destruct (hexdigest_shape msg) as [H1 H2]. split.
  - rewrite length_firstn, H1. lia.
  - apply Forall_forall. intros c Hc. apply In_firstn in Hc.
    rewrite Forall_forall in H2. auto.
Qed.

End DigestFacts.

Lemma to_string_app (a b : list ascii) :
  PyStr.to_string (a ++ b) = (PyStr.to_string a ++ PyStr.to_string b)%string.
Proof.
  unfold PyStr.to_string. induction a as [|c a IH]; cbn; [reflexivity | now rewrite IH].
Qed.

Lemma of_string_app (a b : string) :
  PyStr.of_string (a ++ b)%string = PyStr.of_string a ++ PyStr.of_string b.
Proof.
  unfold PyStr.of_string. induction a as [|c a IH]; cbn; [reflexivity | now rewrite IH].
Qed.

Lemma generate_canonical_id_chars etype name :
  exists digest,
    List.length digest = 12%nat
    /\ Forall (fun c => is_hex_digit c = true) digest
    /\ PyStr.of_string (Dedup.generate_canonical_id etype name)
       = PyStr.of_string "entity:" ++ PyStr.lower (PyStr.of_string etype)
         ++ [":"%char] ++ digest.
Proof.
  unfold Dedup.generate_canonical_id.
  set (h := Sha256.hexdigest _).
  exists (firstn 12 h).
  destruct (DigestFacts.hexdigest_prefix
              (Sha256.utf8 (PyStr.of_string
                              (etype ++ ":" ++ Dedup.normalize_name name)%string)) 12)
    as [H1 H2]; [lia|].
  fold h in H1, H2. repeat split; auto.
  rewrite !of_string_app. unfold PyStr.of_string, PyStr.to_string.
  rewrite !list_ascii_of_string_of_list_ascii. reflexivity.
Qed.

Lemma chars_eqb_refl (l : list ascii) : PyStr.chars_eqb l l = true.
Proof.
  induction l as [|c l IH]; cbn [PyStr.chars_eqb]; auto.
  now rewrite Ascii.eqb_refl.
Qed.

(** X30. Canonical ids of different entity types never coincide. An id is
    the text ['entity:'], the lower-cased entity type, a colon and twelve
    hexadecimal digits of the hash, so that two ids whose lower-cased types
    differ are different strings, whatever the names and their hashes. *)
Theorem canonical_ids_differ_across_types (etype1 etype2 name1 name2 : string) :
  PyStr.chars_eqb (PyStr.lower (PyStr.of_string etype1))
                  (PyStr.lower (PyStr.of_string etype2)) = false ->
  String.eqb (Dedup.generate_canonical_id etype1 name1)
             (Dedup.generate_canonical_id etype2 name2) = false.
Proof.
  intros Hne.
  destruct (String.eqb _ _) eqn:E; [|reflexivity]. apply String.eqb_eq in E.
  destruct (generate_canonical_id_chars etype1 name1) as [d1 [L1 [_ E1]]].
  destruct (generate_canonical_id_chars etype2 name2) as [d2 [L2 [_ E2]]].
  rewrite E, E2 in E1. apply app_inv_head in E1.
  rewrite !app_assoc in E1. apply app_eq_length in E1; [|congruence].
  destruct E1 as [E1 _]. apply app_inj_tail in E1. destruct E1 as [E1 _].
  rewrite E1, chars_eqb_refl in Hne. discriminate.
Qed.

Lemma canonical_ids_differ_across_types_witness :
  String.eqb (Dedup.generate_canonical_id "regen:Agent" "Regen Network")
             (Dedup.generate_canonical_id "regen:SemanticAsset" "Regen Network") = false.
Proof.
  apply (canonical_ids_differ_across_types "regen:Agent" "regen:SemanticAsset").
  reflexivity.
Defined.
